(** * Crop-mapping dataset pipeline: a shallow embedding of the two notebooks

    [cmap_dataset.ipynb] (filename parser, group collector, completeness
    filter) and [cmap_nn.ipynb] (sequence builder, point-disjoint splitter)
    are embedded as Rocq functions.  Python values are modelled as follows:
    - [str] as [string], a character being a code point below 256;
    - [int] as [Z], [bytes] as [list byte], [list] as [list];
    - a [float] as the rational it stands for, every literal and every
      result of float arithmetic being rounded to the nearest double;
    - a [dict] as an association list in insertion order with unique keys;
    - a raised exception as the [Raise] case of [result];
    - the notebook's global [groups] and its printed output as the state of
      a small state-and-exception monad;
    - the file system as the answers it gives to [os.path.isdir], [os.walk]
      and [open];
    - the library calls ([os.path], [int], [train_test_split],
      [RandomOverSampler]) by their documented behaviour, the order of a
      [set] and the seeded shuffle being left as parameters and the unseeded
      global generator being an explicit stream of draws. *)

From Stdlib Require Import ZArith List String Ascii Bool Lia Permutation.
From Stdlib Require Import Sorted QArith Qround Qpower Qabs Strings.Byte.
Import ListNotations.

Local Open Scope string_scope.
Local Open Scope Z_scope.
Local Open Scope list_scope.

(** ** Python primitives shared by the two notebooks *)
Module Py.

Inductive Exn : Type :=
| ValueError
| IndexError
| KeyError
| ZeroDivisionError.

Inductive result (A : Type) : Type :=
| Ok (a : A)
| Raise (e : Exn).

Arguments Ok {A} a.
Arguments Raise {A} e.

Definition rbind {A B : Type} (m : result A) (k : A -> result B) : result B :=
  match m with
  | Ok a => k a
  | Raise e => Raise e
  end.

Declare Scope result_scope.
Delimit Scope result_scope with res.
Notation "x <- m ;; k" := (rbind m (fun x => k))
  (at level 61, m at next level, right associativity) : result_scope.

(** [for x in l: acc = f(acc, x)] where the body may raise. *)
Fixpoint foldM {A S : Type} (f : S -> A -> result S) (l : list A) (s : S)
  : result S :=
  match l with
  | [] => Ok s
  | x :: l' => rbind (f s x) (foldM f l')
  end.

(** [[f(x) for x in l]] where [f] may raise. *)
Fixpoint mapM {A B : Type} (f : A -> result B) (l : list A) : result (list B) :=
  match l with
  | [] => Ok []
  | x :: l' => rbind (f x) (fun y => rbind (mapM f l') (fun ys => Ok (y :: ys)))
  end.

(** *** Sequences *)

Definition len {A : Type} (l : list A) : Z := Z.of_nat (List.length l).

(** [l[i]], negative [i] counting from the end. *)
Definition getitem {A : Type} (l : list A) (i : Z) : result A :=
  let j := if i <? 0 then len l + i else i in
  if j <? 0 then Raise IndexError
  else match nth_error l (Z.to_nat j) with
       | Some x => Ok x
       | None => Raise IndexError
       end.

(** Clamping of one slice bound, as [PySlice_AdjustIndices] does for step 1. *)
Definition slice_bound (n i : Z) : Z :=
  if i <? 0 then Z.max 0 (n + i) else Z.min i n.

(** [l[lo:hi]]. *)
Definition slice {A : Type} (l : list A) (lo hi : Z) : list A :=
  let a := slice_bound (len l) lo in
  let b := slice_bound (len l) hi in
  firstn (Z.to_nat (b - a)) (skipn (Z.to_nat a) l).

(** [range(n)]. *)
Definition range (n : Z) : list Z := map Z.of_nat (seq 0 (Z.to_nat n)).

(** [[x] * n]. *)
Definition replicate {A : Type} (x : A) (n : Z) : list A := repeat x (Z.to_nat n).

(** [enumerate(l)]. *)
Definition enumerate {A : Type} (l : list A) : list (Z * A) :=
  combine (range (len l)) l.

(** *** Strings *)

(** [s.split(sep)] for a one-character separator. *)
Fixpoint split (sep : ascii) (s : string) : list string :=
  match s with
  | EmptyString => [EmptyString]
  | String c s' =>
      if Ascii.eqb c sep then EmptyString :: split sep s'
      else match split sep s' with
           | [] => [String c EmptyString]
           | p :: ps => String c p :: ps
           end
  end.

(** [sep.join(l)]. *)
Definition join (sep : string) (l : list string) : string := String.concat sep l.

Definition startswith (s p : string) : bool := String.prefix p s.

Definition endswith (s suf : string) : bool :=
  (String.length suf <=? String.length s)%nat
  && String.eqb
       (substring (String.length s - String.length suf) (String.length suf) s)
       suf.

(** [c.lower()] on code points below 256. *)
Definition lower_char (c : ascii) : ascii :=
  let n := nat_of_ascii c in
  if ((65 <=? n) && (n <=? 90)
      || (192 <=? n) && (n <=? 222) && negb (n =? 215))%nat
  then ascii_of_nat (n + 32)
  else c.

Fixpoint lower (s : string) : string :=
  match s with
  | EmptyString => EmptyString
  | String c s' => String (lower_char c) (lower s')
  end.

(** [s.rfind(c)], [-1] when [c] does not occur; [i] is the index of the head. *)
Fixpoint rfind_from (c : ascii) (s : string) (i : Z) : Z :=
  match s with
  | EmptyString => -1
  | String a s' =>
      let r := rfind_from c s' (i + 1) in
      if 0 <=? r then r else if Ascii.eqb a c then i else -1
  end.

Definition rfind (c : ascii) (s : string) : Z := rfind_from c s 0.

(** The loop of [genericpath._splitext] that skips leading dots: [steps] is
    [dotIndex - filenameIndex]. *)
Fixpoint splitext_scan (p : string) (filenameIndex steps dotIndex : nat)
  : option (string * string) :=
  match steps with
  | O => None
  | S k =>
      if negb (String.eqb (substring filenameIndex 1 p) ".")
      then Some (substring 0 dotIndex p,
                 substring dotIndex (String.length p - dotIndex) p)
      else splitext_scan p (S filenameIndex) k dotIndex
  end.

(** [os.path.splitext(p)] of [posixpath]. *)
Definition splitext (p : string) : string * string :=
  let sepIndex := rfind "/"%char p in
  let dotIndex := rfind "."%char p in
  if sepIndex <? dotIndex then
    match splitext_scan p (Z.to_nat (sepIndex + 1))
            (Z.to_nat (dotIndex - (sepIndex + 1))) (Z.to_nat dotIndex) with
    | Some r => r
    | None => (p, EmptyString)
    end
  else (p, EmptyString).

(** [os.path.join(a, b)] of [posixpath]. *)
Definition path_join (a b : string) : string :=
  if startswith b "/" then b
  else if String.eqb a "" || endswith a "/" then (a ++ b)%string
  else (a ++ "/" ++ b)%string.

(** *** [int(s)] in base ten *)

(** The white space [int] strips: tab to carriage return and the blank,
    and of the code points from 128 on the two Unicode spaces NEL and
    NBSP.  The separators 0x1c to 0x1f are white space for [str.isspace]
    but not for [int]. *)
Definition is_space (c : ascii) : bool :=
  let n := nat_of_ascii c in
  ((9 <=? n) && (n <=? 13) || (n =? 32) || (n =? 133) || (n =? 160))%nat.

Definition is_digit (c : ascii) : bool :=
  let n := nat_of_ascii c in ((48 <=? n) && (n <=? 57))%nat.

Definition digit_value (c : ascii) : Z := Z.of_nat (nat_of_ascii c - 48).

Fixpoint lstrip (s : string) : string :=
  match s with
  | String c s' => if is_space c then lstrip s' else s
  | EmptyString => EmptyString
  end.

(** Digits with single underscores between them; [prev] tells whether the
    previous character was a digit, [count] is the number of digits read.
    Trailing white space is accepted. *)
Fixpoint int_digits (s : string) (acc : Z) (prev : bool) (count : nat)
  : option (Z * nat) :=
  match s with
  | EmptyString => if prev then Some (acc, count) else None
  | String c s' =>
      if is_digit c then int_digits s' (10 * acc + digit_value c) true (S count)
      else if Ascii.eqb c "_" then
             if prev then int_digits s' acc false count else None
      else if is_space c then
             if prev then
               match lstrip s' with
               | EmptyString => Some (acc, count)
               | _ => None
               end
             else None
      else None
  end.

(** The default of [sys.set_int_max_str_digits] in Python 3.11. *)
Definition max_str_digits : nat := 4300.

Definition int_unsigned (s : string) : result Z :=
  match int_digits s 0 false 0 with
  | Some (v, count) =>
      if (max_str_digits <? count)%nat then Raise ValueError else Ok v
  | None => Raise ValueError
  end.

Definition py_int (s : string) : result Z :=
  match lstrip s with
  | String "+" s' => int_unsigned s'
  | String "-" s' => rbind (int_unsigned s') (fun v => Ok (- v))
  | s' => int_unsigned s'
  end.

(** *** Floats *)

(** A finite [float] is modelled by the rational it stands for.  [round64 x]
    is the double nearest to [x], ties going to the even mantissa (IEEE 754
    binary64): 53 bits of mantissa, and the fixed exponent -1074 in the
    subnormal range.  The interpreter rounds every literal and the result of
    every arithmetic operation this way.  Overflow to [inf] is left out: a
    result beyond the largest double stays a finite number above it, which
    compares with 0 and 1 as [inf] does. *)

(** The integer nearest to [y], ties to even. *)
Definition round_half_even (y : Q) : Z :=
  let f := Qfloor y in
  match Qcompare (y - inject_Z f) (1 # 2) with
  | Lt => f
  | Gt => f + 1
  | Eq => if Z.even f then f else f + 1
  end.

(** For [0 < x], the exponent [k] with [2^k <= x < 2^(k+1)]. *)
Definition ilog2 (x : Q) : Z :=
  let c := Z.log2 (Qnum x) - Z.log2 (Zpos (Qden x)) in
  if Qle_bool (2 ^ c) x then c else c - 1.

Definition round64 (x : Q) : Q :=
  if Qeq_bool x 0 then 0%Q
  else
    let e := Z.max (ilog2 (Qabs x) - 52) (-1074) in
    Qred (inject_Z (round_half_even (x / 2 ^ e)) * 2 ^ e).

(** *** Dictionaries as association lists *)

Section Dict.
Context {K V : Type} (eqb : K -> K -> bool).

Fixpoint dict_get (d : list (K * V)) (k : K) : option V :=
  match d with
  | [] => None
  | (k', v) :: d' => if eqb k k' then Some v else dict_get d' k
  end.

Definition dict_mem (d : list (K * V)) (k : K) : bool :=
  match dict_get d k with Some _ => true | None => false end.

(** [d[k] = v]: the key keeps its place when present, else goes last. *)
Fixpoint dict_set (d : list (K * V)) (k : K) (v : V) : list (K * V) :=
  match d with
  | [] => [(k, v)]
  | (k', v') :: d' =>
      if eqb k k' then (k', v) :: d' else (k', v') :: dict_set d' k v
  end.

(** [d[k]] changed by [f] in place; nothing happens for an absent key. *)
Fixpoint dict_update (d : list (K * V)) (k : K) (f : V -> V) : list (K * V) :=
  match d with
  | [] => []
  | (k', v') :: d' =>
      if eqb k k' then (k', f v') :: d' else (k', v') :: dict_update d' k f
  end.
End Dict.

End Py.

(** ** cmap_dataset.ipynb: filename parser, group collector, completeness filter *)
Module Dataset.
Import Py.

Definition bytes : Type := list byte.

(** *** Parameters *)

Definition base_dir : string := "../dataset/dataset_ca_17".

Definition sensors : list string :=
  ["GNDVI"; "NDVI"; "NDVI45"; "OSAVI"; "PSRI"; "RGB"].

Definition crop_mapping : list (string * Z) :=
  [("BARLEY", 0); ("CANOLA", 1); ("CORN", 2); ("MIXEDWOOD", 3); ("OAT", 4);
   ("ORCHARD", 5); ("PASTURE", 6); ("POTATO", 7); ("SOYBEAN", 8);
   ("SPRING_WHEAT", 9)].

(** [d.get(k, default)]. *)
Definition get_default {V : Type} (d : list (string * V)) (k : string) (default : V)
  : V :=
  match dict_get String.eqb d k with
  | Some v => v
  | None => default
  end.

(** *** Parse filenames *)

Record Meta : Type := mkMeta {
  POINT : Z;
  DATE : string;
  REGION : string;
  CROP_TYPE : string;
  SENSOR_TYPE : string;
  LABEL : Z
}.

Local Open Scope result_scope.

(** [None] is the "pattern not met" answer; [int] raising [ValueError] is the
    [Raise] case. *)
Definition parse_filename (filename : string) : result (option Meta) :=
  let '(name, _) := splitext filename in
  let parts := split "_" name in
  if (List.length parts <? 6)%nat
     || negb (String.eqb (hd EmptyString parts) "POINT")
  then Ok None
  else
    p1 <- getitem parts 1 ;;
    point <- py_int p1 ;;
    date <- getitem parts 2 ;;
    region <- getitem parts 3 ;;
    sensor_type <- getitem parts (-1) ;;
    let crop_type := join "_" (slice parts 4 (-1)) in
    let label := get_default crop_mapping crop_type (-1) in
    Ok (Some (mkMeta point date region crop_type sensor_type label)).

Local Close Scope result_scope.

(** *** Data collection *)

Definition Identifier : Type := Z * string * string * string.

Definition identifier_eqb (a b : Identifier) : bool :=
  let '(p, d, r, c) := a in
  let '(p', d', r', c') := b in
  (p =? p') && String.eqb d d' && String.eqb r r' && String.eqb c c'.

(** One entry of [groups]: five metadata fields and one slot per sensor,
    [None] until a file of that sensor is stored. *)
Record GroupRecord : Type := mkGroupRecord {
  rec_POINT : Z;
  rec_DATE : string;
  rec_REGION : string;
  rec_CROP_TYPE : string;
  rec_LABEL : Z;
  rec_slots : list (string * option bytes)
}.

Definition Groups : Type := list (Identifier * GroupRecord).

(** The lines the notebook prints. *)
Inductive Line : Type :=
| ErrorReading (file : string)
| InvalidSensor (sensor_type file : string)
| CompleteRecords (complete original : Z).

(** What the scan does to the outside world, in order. *)
Inductive Event : Type :=
| Opened (path : string)
| Printed (line : Line).

(** The directory tree as the scan sees it: [os.path.isdir], the
    [(root, files)] pairs [os.walk] yields for a directory, and what
    [open(path, 'rb').read()] returns for a path taken relative to the
    working directory ([None] when it raises). *)
Record FileSystem : Type := mkFileSystem {
  isdir : string -> bool;
  walk : string -> list (string * list string);
  read_file : string -> option bytes
}.

Record ScanState : Type := mkScanState {
  groups : Groups;
  output : list Event
}.

(** State and exceptions: a raised exception leaves the state as it was at
    the raise, as a Python traceback leaves the notebook's globals. *)
Definition Scan (A : Type) : Type := ScanState -> result A * ScanState.

Definition ret {A : Type} (a : A) : Scan A := fun st => (Ok a, st).

Definition bind {A B : Type} (m : Scan A) (k : A -> Scan B) : Scan B :=
  fun st =>
    match m st with
    | (Ok a, st') => k a st'
    | (Raise e, st') => (Raise e, st')
    end.

Definition lift {A : Type} (r : result A) : Scan A := fun st => (r, st).

Declare Scope scan_scope.
Delimit Scope scan_scope with scan.
Notation "x <- m ;; k" := (bind m (fun x => k))
  (at level 61, m at next level, right associativity) : scan_scope.
Notation "m ;;; k" := (bind m (fun _ => k))
  (at level 61, right associativity) : scan_scope.

Local Open Scope scan_scope.

Definition emit (e : Event) : Scan unit :=
  fun st => (Ok tt, mkScanState (groups st) (output st ++ [e])).

Definition print (l : Line) : Scan unit := emit (Printed l).

Definition get_groups : Scan Groups := fun st => (Ok (groups st), st).

Definition put_groups (g : Groups) : Scan unit :=
  fun st => (Ok tt, mkScanState g (output st)).

(** [for x in l: body(x)]. *)
Fixpoint for_each {A : Type} (l : list A) (body : A -> Scan unit) : Scan unit :=
  match l with
  | [] => ret tt
  | x :: l' => body x ;;; for_each l' body
  end.

(** [with open(path, 'rb') as f: f.read()]; [None] stands for the exception
    the [except] clause catches. *)
Definition open_read (fs : FileSystem) (path : string) : Scan (option bytes) :=
  emit (Opened path) ;;; ret (read_file fs path).

Definition new_record (meta : Meta) : GroupRecord :=
  mkGroupRecord (POINT meta) (DATE meta) (REGION meta) (CROP_TYPE meta)
    (LABEL meta) (map (fun sensor => (sensor, None)) sensors).

Definition set_slot (sensor : string) (image_bytes : bytes) (v : GroupRecord)
  : GroupRecord :=
  mkGroupRecord (rec_POINT v) (rec_DATE v) (rec_REGION v) (rec_CROP_TYPE v)
    (rec_LABEL v) (dict_set String.eqb (rec_slots v) sensor (Some image_bytes)).

(** The body of [for file in files]; each [continue] is a [ret tt]. *)
Definition process_file (fs : FileSystem) (file : string) : Scan unit :=
  if negb (endswith (lower file) ".png") then ret tt
  else if negb (startswith file "POINT_") then ret tt
  else
    meta <- lift (parse_filename file) ;;
    match meta with
    | None => ret tt
    | Some meta =>
        let identifier :=
          (POINT meta, DATE meta, REGION meta, CROP_TYPE meta) in
        r <- open_read fs file ;;
        match r with
        | None => print (ErrorReading file)
        | Some image_bytes =>
            g <- get_groups ;;
            (if negb (dict_mem identifier_eqb g identifier)
             then put_groups (dict_set identifier_eqb g identifier (new_record meta))
             else ret tt) ;;;
            if existsb (String.eqb (SENSOR_TYPE meta)) sensors
            then
              g' <- get_groups ;;
              put_groups (dict_update identifier_eqb g' identifier
                            (set_slot (SENSOR_TYPE meta) image_bytes))
            else print (InvalidSensor (SENSOR_TYPE meta) file)
        end
    end.

(** The cell's loop over the sensor directories. *)
Definition collect (fs : FileSystem) : Scan unit :=
  for_each sensors (fun sensor_dir =>
    let sensor_path := path_join base_dir sensor_dir in
    if negb (isdir fs sensor_path) then ret tt
    else
      for_each (walk fs sensor_path) (fun '(root, files) =>
        for_each files (process_file fs))).

Definition initial_state : ScanState := mkScanState [] [].

Local Close Scope scan_scope.

(** *** Completeness filter *)

(** [all(v[sensor] is not None for sensor in ss)]: stops at the first
    [None]; a missing key raises [KeyError]. *)
Fixpoint all_present (v : GroupRecord) (ss : list string) : result bool :=
  match ss with
  | [] => Ok true
  | sensor :: ss' =>
      match dict_get String.eqb (rec_slots v) sensor with
      | None => Raise KeyError
      | Some None => Ok false
      | Some (Some _) => all_present v ss'
      end
  end.

(** [{k: v for k, v in groups.items() if all(...)}]. *)
Fixpoint complete_groups (g : Groups) : result Groups :=
  match g with
  | [] => Ok []
  | (k, v) :: g' =>
      rbind (all_present v sensors) (fun keep =>
      rbind (complete_groups g') (fun rest =>
      Ok (if keep then (k, v) :: rest else rest)))
  end.

(** The filtering statements of the cell: the sub-mapping, the printed count
    line and [records = list(complete_groups.values())]. *)
Definition filter_cell (g : Groups) : result (Groups * Line * list GroupRecord) :=
  rbind (complete_groups g) (fun cg =>
  Ok (cg, CompleteRecords (len cg) (len g), map snd cg)).

End Dataset.

(** ** cmap_nn.ipynb: sequence builder and point-disjoint splitter *)
Module NN.
Import Py.

(** A decoded image; the pipeline never looks inside one. *)
Definition Image : Type := list byte.

(** One record yielded by [load_records]. *)
Record DecodedRecord : Type := mkRecord {
  DATE : string;
  POINT : Z;
  REGION : string;
  LABEL : Z;
  images : list (string * option Image)
}.

Definition Sequence : Type := list DecodedRecord.

Inductive Line : Type :=
| Created (n_sequences n_points : Z).

Local Open Scope result_scope.

(** *** Create sequences *)

(** [points[record["POINT"]].append(record)] on a [defaultdict(list)]. *)
Definition points_append (points : list (Z * list DecodedRecord))
  (record : DecodedRecord) : list (Z * list DecodedRecord) :=
  if dict_mem Z.eqb points (POINT record)
  then dict_update Z.eqb points (POINT record) (fun l => l ++ [record])
  else dict_set Z.eqb points (POINT record) [record].

Definition group_by_point (records : list DecodedRecord)
  : list (Z * list DecodedRecord) :=
  fold_left points_append records [].

(** [point_recs.sort(key=lambda x: x["DATE"])]: the sort is stable, so its
    result is the one of a stable insertion sort. *)
Fixpoint insert_by_date (x : DecodedRecord) (l : list DecodedRecord)
  : list DecodedRecord :=
  match l with
  | [] => [x]
  | y :: l' =>
      if String.leb (DATE x) (DATE y) then x :: y :: l'
      else y :: insert_by_date x l'
  end.

Definition sort_by_date (l : list DecodedRecord) : list DecodedRecord :=
  fold_right insert_by_date [] l.

(** [{r["LABEL"] for r in point_recs}]. *)
Definition label_set (point_recs : list DecodedRecord) : list Z :=
  nodup Z.eq_dec (map LABEL point_recs).

(** The body of [for point_recs in points.values()]: what one point adds to
    [sequences] and [labels]. *)
Definition point_sequences (sequence_length : Z) (point_recs : list DecodedRecord)
  : result (list Sequence * list Z) :=
  let point_recs := sort_by_date point_recs in
  if negb (len (label_set point_recs) =? 1) then Ok ([], [])
  else
    r0 <- getitem point_recs 0 ;;
    let label := LABEL r0 in
    Ok (map (fun i => slice point_recs i (i + sequence_length))
          (range (len point_recs - sequence_length + 1)),
        replicate label (len point_recs - sequence_length + 1)).

Definition create_sequences (sequence_length : Z) (records : list DecodedRecord)
  : result (list Sequence * list Z * Line) :=
  let points := group_by_point records in
  acc <- foldM
           (fun acc point_recs =>
              sl <- point_sequences sequence_length point_recs ;;
              Ok (fst acc ++ fst sl, snd acc ++ snd sl))
           (map snd points) ([], []) ;;
  Ok (fst acc, snd acc, Created (len (fst acc)) (len points)).

(** *** Dataset splitting *)

(** [np.unique(y)]: the distinct values in ascending order. *)
Fixpoint insert_unique (x : Z) (l : list Z) : list Z :=
  match l with
  | [] => [x]
  | y :: l' =>
      if x <? y then x :: y :: l'
      else if x =? y then y :: l'
      else y :: insert_unique x l'
  end.

Definition np_unique (y : list Z) : list Z := fold_right insert_unique [] y.

Definition count (c : Z) (y : list Z) : nat := count_occ Z.eq_dec y c.

(** [_count_class_sample(y)]: each class with its number of samples, by
    ascending class. *)
Definition target_stats (y : list Z) : list (Z * nat) :=
  map (fun c => (c, count c y)) (np_unique y).

(** [min(stats, key=stats.get)]: the first key whose count is minimal. *)
Fixpoint min_key (stats : list (Z * nat)) (best : Z * nat) : Z * nat :=
  match stats with
  | [] => best
  | (c, n) :: stats' =>
      min_key stats' (if (n <? snd best)%nat then (c, n) else best)
  end.

Definition class_minority (stats : list (Z * nat)) : option Z :=
  match stats with
  | [] => None
  | s :: stats' => Some (fst (min_key stats' s))
  end.

Definition n_sample_majority (stats : list (Z * nat)) : nat :=
  fold_right Nat.max 0%nat (map snd stats).

(** [sampling_strategy='not minority'] for over-sampling: every class but
    the minority one is brought to the majority count. *)
Definition sampling_strategy_not_minority (y : list Z) : list (Z * nat) :=
  let stats := target_stats y in
  match class_minority stats with
  | None => []
  | Some minority =>
      map (fun kv => (fst kv, (n_sample_majority stats - snd kv)%nat))
        (filter (fun kv => negb (fst kv =? minority)) stats)
  end.

(** The unseeded generator [np.random] that [RandomOverSampler] falls back
    to when no [random_state] is given: its state is the stream of raw draws
    it will deliver. *)
Definition GlobalRng : Type := nat -> nat.

(** [np.flatnonzero(y == c)]. *)
Definition flatnonzero (y : list Z) (c : Z) : list nat :=
  map fst (filter (fun iy => snd iy =? c) (combine (seq 0 (List.length y)) y)).

(** [random_state.choice(a, size=k, replace=True)], reading the stream from
    [offset]. *)
Definition choice (g : GlobalRng) (offset : nat) (a : list nat) (k : nat)
  : list nat :=
  map (fun t => nth (g (offset + t)%nat mod List.length a)%nat a 0%nat) (seq 0 k).

(** The loop of [RandomOverSampler._fit_resample]: the positions appended for
    each class of the strategy. *)
Fixpoint bootstrap (g : GlobalRng) (offset : nat) (y : list Z)
  (strategy : list (Z * nat)) : list nat :=
  match strategy with
  | [] => []
  | (class_sample, num_samples) :: strategy' =>
      choice g offset (flatnonzero y class_sample) num_samples
      ++ bootstrap g (offset + num_samples) y strategy'
  end.

(** [RandomOverSampler(sampling_strategy='not minority').fit_resample(X, y)]
    for a one-column [X]: the rows of [X] followed by the bootstrapped rows.
    An empty [X], an [X] and a [y] of different lengths, and a [y] with fewer
    than two classes are rejected. *)
Definition fit_resample (g : GlobalRng) (X : list Z) (y : list Z)
  : result (list Z * list Z) :=
  if (List.length X =? 0)%nat then Raise ValueError
  else if negb (List.length X =? List.length y)%nat then Raise ValueError
  else if (List.length (np_unique y) <=? 1)%nat then Raise ValueError
  else
    let extra := bootstrap g 0 y (sampling_strategy_not_minority y) in
    Ok (X ++ map (fun j => nth j X 0) extra, y ++ map (fun j => nth j y 0) extra).

Record SplitResult : Type := mkSplitResult {
  X_train : list Sequence;
  y_train : list Z;
  X_val : list Sequence;
  y_val : list Z;
  X_test : list Sequence;
  y_test : list Z
}.

(** [a / b] on floats. *)
Definition divide (a b : Q) : result Q :=
  if Qeq_bool b 0 then Raise ZeroDivisionError else Ok (round64 (a / b)).

Section Splitter.

(** [list(set(l))]: the order in which a set lists its elements is left to
    the interpreter. *)
Variable list_set : list Z -> list Z.

(** [np.random.RandomState(seed).permutation(n)]. *)
Variable permutation : Z -> nat -> list nat.

(** [sklearn.model_selection.train_test_split(arr, test_size=f,
    random_state=seed)] for a float [f] and no [train_size]: [ceil(f * n)]
    shuffled positions go to the test part, the others to the training part.
    The product is a float product, so it is rounded before [ceil] is
    taken; the length of a list is below 2^53 and converts to a float as it
    is. *)
Definition train_test_split {A : Type} (arr : list A) (test_size : Q)
  (random_state : Z) : result (list A * list A) :=
  let n_samples := List.length arr in
  if Qle_bool test_size 0 || Qle_bool 1 test_size then Raise ValueError
  else
    let n_test :=
      Z.to_nat
        (Qceiling (round64 (test_size * inject_Z (Z.of_nat n_samples)))) in
    let n_train := (n_samples - n_test)%nat in
    if (n_train =? 0)%nat then Raise ValueError
    else
      let perm := permutation random_state n_samples in
      let ind_test := firstn n_test perm in
      let ind_train := firstn n_train (skipn n_test perm) in
      train <- mapM (fun i => getitem arr (Z.of_nat i)) ind_train ;;
      test <- mapM (fun i => getitem arr (Z.of_nat i)) ind_test ;;
      Ok (train, test).

(** [[seq[0]["POINT"] for seq in sequences]]. *)
Definition point_ids (sequences : list Sequence) : result (list Z) :=
  mapM (fun seq => r <- getitem seq 0 ;; Ok (POINT r)) sequences.

(** The two seeded splits of the unique points.  [test_size] and [val_size]
    are floats of the parameter cell: each is the double nearest to the
    number written there, and [1 - test_size] and the quotient are float
    operations. *)
Definition split_points (test_size val_size : Q) (points : list Z)
  : result (list Z * list Z * list Z) :=
  let test_size := round64 test_size in
  let val_size := round64 val_size in
  let unique_points := list_set points in
  tt1 <- train_test_split unique_points test_size 42 ;;
  ratio <- divide val_size (round64 (1 - test_size)) ;;
  tv <- train_test_split (fst tt1) ratio 42 ;;
  Ok (fst tv, snd tv, snd tt1).

(** [[i for i, p in enumerate(points) if p in part]]. *)
Definition indices_in (points part : list Z) : list Z :=
  map fst (filter (fun ip => existsb (Z.eqb (snd ip)) part) (enumerate points)).

(** Everything after the two splits: over-sampling of the training indices
    and the six returned lists. *)
Definition assemble (g : GlobalRng) (sequences : list Sequence) (labels : list Z)
  (points train_points val_points test_points : list Z) : result SplitResult :=
  let train_indices := indices_in points train_points in
  y <- mapM (getitem labels) train_indices ;;
  resampled <- fit_resample g train_indices y ;;
  let resampled_indices := fst resampled in
  Xtr <- mapM (getitem sequences) resampled_indices ;;
  ytr <- mapM (getitem labels) resampled_indices ;;
  Xva <- mapM (getitem sequences) (indices_in points val_points) ;;
  yva <- mapM (getitem labels) (indices_in points val_points) ;;
  Xte <- mapM (getitem sequences) (indices_in points test_points) ;;
  yte <- mapM (getitem labels) (indices_in points test_points) ;;
  Ok (mkSplitResult Xtr ytr Xva yva Xte yte).

Definition split_dataset (test_size val_size : Q) (g : GlobalRng)
  (sequences : list Sequence) (labels : list Z) : result SplitResult :=
  points <- point_ids sequences ;;
  parts <- split_points test_size val_size points ;;
  let '(train_points, val_points, test_points) := parts in
  assemble g sequences labels points train_points val_points test_points.

End Splitter.

Local Close Scope result_scope.

(** The fractions as written in the notebook's parameter cell, 0.3 and
    0.15. *)
Definition test_size : Q := 3 # 10.
Definition val_size : Q := 15 # 100.

(** One environment the section can be run in: a set lists its elements in
    ascending order and a shuffle reverses. *)
Definition ascending_set (l : list Z) : list Z := np_unique l.
Definition reversing_permutation (seed : Z) (n : nat) : list nat := rev (seq 0 n).

End NN.

(** ** Vocabulary of the statements *)
Module Vocabulary.
Import Py.

(** Whether character [c] occurs in [s]. *)
Fixpoint occurs (c : ascii) (s : string) : bool :=
  match s with
  | EmptyString => false
  | String a s' => Ascii.eqb a c || occurs c s'
  end.

(** A segment of a file name: no underscore and no path separator. *)
Definition segment (s : string) : Prop :=
  occurs "_" s = false /\ occurs "/" s = false.

(** An extension proper: no dot and no path separator. *)
Definition extension (s : string) : Prop :=
  occurs "." s = false /\ occurs "/" s = false.

(** The crop enumeration of the specification, BARLEY = 0 up to
    SPRING_WHEAT = 9. *)
Definition crop_enumeration : list string :=
  ["BARLEY"; "CANOLA"; "CORN"; "MIXEDWOOD"; "OAT"; "ORCHARD"; "PASTURE";
   "POTATO"; "SOYBEAN"; "SPRING_WHEAT"].

Fixpoint index_of (x : string) (l : list string) (i : Z) : option Z :=
  match l with
  | [] => None
  | y :: l' => if String.eqb x y then Some i else index_of x l' (i + 1)
  end.

(** The label of a crop type: its position in the enumeration, else -1. *)
Definition enumeration_index (crop_type : string) : Z :=
  match index_of crop_type crop_enumeration 0 with
  | Some i => i
  | None => -1
  end.

End Vocabulary.

(** *** Completeness of a grouped record *)
Module GroupVocabulary.
Import Py Dataset.

(** The slot of [sensor] holds a blob. *)
Definition present (v : GroupRecord) (sensor : string) : Prop :=
  exists blob, dict_get String.eqb (rec_slots v) sensor = Some (Some blob).

(** Every required sensor has a present blob. *)
Definition complete (v : GroupRecord) : Prop :=
  forall sensor, In sensor sensors -> present v sensor.

(** The record has one slot per required sensor, as [new_record] makes it. *)
Definition well_formed (v : GroupRecord) : Prop :=
  map fst (rec_slots v) = sensors.

Definition presentb (v : GroupRecord) (sensor : string) : bool :=
  match dict_get String.eqb (rec_slots v) sensor with
  | Some (Some _) => true
  | _ => false
  end.

Definition completeb (v : GroupRecord) : bool := forallb (presentb v) sensors.


End GroupVocabulary.

(** *** Points, date order and windows *)
Module SequenceVocabulary.
Import Py NN.

(** The records of point [p], in the order of the input. *)
Definition records_of (p : Z) (records : list DecodedRecord) : list DecodedRecord :=
  filter (fun r => POINT r =? p) records.

(** Ascending order of the date tokens. *)
Definition date_le (a b : DecodedRecord) : Prop :=
  String.leb (DATE a) (DATE b) = true.

(** The window of width [L] that starts at position [i]. *)
Definition window (L i : nat) (l : list DecodedRecord) : Sequence :=
  firstn L (skipn i l).

(** No record of point [p] occurs in the sequences [ss]. *)
Definition free_of (p : Z) (ss : list Sequence) : Prop :=
  forall s r, In s ss -> In r s -> POINT r <> p.

(** What [group_by_point] has built after the records [done]: one entry per
    point met, holding exactly that point's records in input order. *)
Definition grouped (done : list DecodedRecord) (g : list (Z * list DecodedRecord))
  : Prop :=
  NoDup (map fst g)
  /\ (forall q l, In (q, l) g -> l = records_of q done /\ l <> [])
  /\ (forall r, In r done -> In (POINT r) (map fst g)).

(** What [point_sequences] returns for one point (it never raises). *)
Definition contribution (L : Z) (recs : list DecodedRecord)
  : list Sequence * list Z :=
  match point_sequences L recs with
  | Ok x => x
  | Raise _ => ([], [])
  end.

End SequenceVocabulary.

(** *** Points of sequences *)
Module SplitVocabulary.
Import Py NN.

(** The point a sequence belongs to: that of its first record. *)
Definition point_of (seq : Sequence) : option Z :=
  match seq with
  | r :: _ => Some (POINT r)
  | [] => None
  end.

(** The number of entries a split with float fraction [f] takes out of [n]:
    [ceil(f * n)], the product being a float product. *)
Definition test_count (f : Q) (n : nat) : nat :=
  Z.to_nat (Qceiling (round64 (f * inject_Z (Z.of_nat n)))).

(** The float fraction of the second split, [val_size / (1 - test_size)]
    on the floats written [val_size] and [test_size]. *)
Definition val_ratio (test_size val_size : Q) : Q :=
  round64 (round64 val_size / round64 (1 - round64 test_size)).

(** The training part of [assemble]: the over-sampled sequences and labels. *)
Definition train_part (g : GlobalRng) (sequences : list Sequence)
  (labels points train_points : list Z) : result (list Sequence * list Z) :=
  let train_indices := indices_in points train_points in
  rbind (mapM (getitem labels) train_indices) (fun y =>
  rbind (fit_resample g train_indices y) (fun resampled =>
  rbind (mapM (getitem sequences) (fst resampled)) (fun Xtr =>
  rbind (mapM (getitem labels) (fst resampled)) (fun ytr =>
  Ok (Xtr, ytr))))).

(** Two labels of [y] occur a different number of times. *)
Definition unbalanced (y : list Z) : bool :=
  existsb (fun l1 => existsb (fun l2 => negb (count l1 y =? count l2 y)%nat) y) y.

(** The first record of the sequence is dated D0. *)
Definition starts_at_D0 (seq : Sequence) : bool :=
  match seq with
  | r :: _ => String.eqb (DATE r) "D0"
  | [] => false
  end.

(** All lists of [k] distinct points among [1 .. n]. *)
Definition points_upto (n : nat) : list Z := map Z.of_nat (seq 1 n).

Fixpoint distinct (l : list Z) : bool :=
  match l with
  | [] => true
  | x :: l' => negb (existsb (Z.eqb x) l') && distinct l'
  end.

Fixpoint tuples (k : nat) (pool : list Z) : list (list Z) :=
  match k with
  | O => [[]]
  | S k' => flat_map (fun x => map (cons x) (tuples k' pool)) pool
  end.

Definition arrangements (k n : nat) : list (list Z) :=
  filter distinct (tuples k (points_upto n)).

End SplitVocabulary.

(** ** Concrete inputs used by the examples *)
Module Examples.
Import Py Dataset.

Definition rgb_dir : string := "../dataset/dataset_ca_17/RGB".

(** A tree with the one sensor directory [rgb_dir] holding [files]. *)
Definition one_dir_fs (files : list string) (read : string -> option bytes)
  : FileSystem :=
  mkFileSystem
    (fun p => String.eqb p rgb_dir)
    (fun p => if String.eqb p rgb_dir then [(rgb_dir, files)] else [])
    read.

Definition corn_file : string := "POINT_1_20170601_R1_CORN_RGB.png".
Definition bad_point_file : string := "POINT_abc_20170601_R1_CORN_RGB.png".
Definition tif_file : string := "POINT_1_20170601_R1_CORN_RGB.tif".

(** Every name can be read from the working directory. *)
Definition readable_fs (files : list string) : FileSystem :=
  one_dir_fs files (fun _ => Some ["001"%byte]).

(** [corn_file] lies in the scanned directory and nowhere else. *)
Definition tree_only_fs : FileSystem :=
  one_dir_fs [corn_file]
    (fun p => if String.eqb p (path_join rgb_dir corn_file)
              then Some ["001"%byte; "002"%byte] else None).

(** [corn_file] lies in the scanned directory, and an unrelated file of the
    same name lies in the working directory. *)
Definition shadowed_fs : FileSystem :=
  one_dir_fs [corn_file]
    (fun p => if String.eqb p (path_join rgb_dir corn_file)
              then Some ["001"%byte; "002"%byte]
              else if String.eqb p corn_file then Some ["255"%byte]
              else None).

Definition corn_identifier : Identifier := (1, "20170601", "R1", "CORN").

Definition corn_record (rgb : option bytes) : GroupRecord :=
  mkGroupRecord 1 "20170601" "R1" "CORN" 2
    [("GNDVI", None); ("NDVI", None); ("NDVI45", None); ("OSAVI", None);
     ("PSRI", None); ("RGB", rgb)].

Definition full_record (p : Z) : GroupRecord :=
  mkGroupRecord p "20170601" "R1" "CORN" 2
    (map (fun sensor => (sensor, Some ["001"%byte])) sensors).

(** Three groups, the second of which lacks its RGB blob. *)
Definition three_groups : Groups :=
  [((1, "20170601", "R1", "CORN"), full_record 1);
   ((2, "20170601", "R1", "CORN"), corn_record None);
   ((3, "20170601", "R1", "CORN"), full_record 3)].

End Examples.

(** ** Concrete inputs for the sequence builder and the splitter *)
Module SequenceExamples.
Import Py NN.

(** A record without images. *)
Definition rec (date : string) (point label : Z) : DecodedRecord :=
  mkRecord date point "R1" label [].

(** Point 1 has four CORN records, out of date order; point 2 has a CORN and
    a BARLEY record. *)
Definition two_points : list DecodedRecord :=
  [rec "D3" 1 2; rec "D1" 2 2; rec "D1" 1 2; rec "D4" 1 2; rec "D2" 2 0;
   rec "D2" 1 2].

(** The date token D0, D1, ... *)
Definition day (j : nat) : string :=
  String "D" (String (ascii_of_nat (48 + j)) EmptyString).

(** Point [k] of [1 .. n] has [k + 2] records dated D0, D1, ..., all with
    label [k], so that it yields [k] sequences of length three. *)
Definition graded_records (n : nat) : list DecodedRecord :=
  flat_map (fun k => map (fun j => rec (day j) (Z.of_nat k) (Z.of_nat k))
                       (seq 0 (k + 2)))
    (seq 1 n).

(** The sequences and labels the builder makes of them with the notebook's
    [sequence_length = 3]. *)
Definition graded (n : nat) : list Sequence * list Z :=
  match create_sequences 3 (graded_records n) with
  | Ok (sequences, labels, _) => (sequences, labels)
  | Raise _ => ([], [])
  end.

(** The point of each of these sequences. *)
Definition graded_points (n : nat) : list Z :=
  flat_map (fun k => repeat (Z.of_nat k) k) (seq 1 n).

(** Two states of the global generator: every raw draw is 0, or is 1. *)
Definition zeros : GlobalRng := fun _ => 0%nat.
Definition ones : GlobalRng := fun _ => 1%nat.

Definition empty_result : SplitResult := mkSplitResult [] [] [] [] [] [].

(** The split of six graded points in the environment where sets are
    ascending and shuffles reverse. *)
Definition graded_split : SplitResult :=
  match split_dataset ascending_set reversing_permutation test_size val_size
          zeros (fst (graded 6)) (snd (graded 6)) with
  | Ok r => r
  | Raise _ => empty_result
  end.

End SequenceExamples.

(** ** Checks run over every possible list of training points *)
Module SplitChecks.
Import Py NN SplitVocabulary SequenceExamples.

(** With the training points [tr] of the five graded points, the labels
    returned for training are not balanced. *)
Definition stays_unbalanced (g : GlobalRng) (tr : list Z) : bool :=
  match train_part g (fst (graded 5)) (snd (graded 5))
          (graded_points 5) tr with
  | Ok (_, ytr) => unbalanced ytr
  | Raise _ => false
  end.

(** With the training points [tr] of the six graded points, the two states
    of the global generator give training sets with different numbers of
    sequences starting at D0. *)
Definition draws_differ (tr : list Z) : bool :=
  match train_part zeros (fst (graded 6)) (snd (graded 6))
          (graded_points 6) tr,
        train_part ones (fst (graded 6)) (snd (graded 6))
          (graded_points 6) tr
  with
  | Ok (X0, _), Ok (X1, _) =>
      negb (List.length (filter starts_at_D0 X0)
            =? List.length (filter starts_at_D0 X1))%nat
  | _, _ => false
  end.

End SplitChecks.

(** *** What the collector keeps true of its groups *)
Module CollectorVocabulary.
Import Py Dataset Vocabulary GroupVocabulary.

(** The key a record is filed under. *)
Definition key_of (v : GroupRecord) : Identifier :=
  (rec_POINT v, rec_DATE v, rec_REGION v, rec_CROP_TYPE v).

(** An entry filed under its own key, labelled after its crop type, with
    one slot per required sensor. *)
Definition consistent (kv : Identifier * GroupRecord) : Prop :=
  fst kv = key_of (snd kv)
  /\ rec_LABEL (snd kv) = enumeration_index (rec_CROP_TYPE (snd kv))
  /\ well_formed (snd kv).

Definition collected (st : ScanState) : Prop :=
  NoDup (map fst (groups st)) /\ Forall consistent (groups st).

(** [st'] has every group of [st], with every blob [st] had still present,
    and its output starts with the output of [st]. *)
Definition extends (st st' : ScanState) : Prop :=
  (forall id v, dict_get identifier_eqb (groups st) id = Some v ->
     exists v', dict_get identifier_eqb (groups st') id = Some v'
                /\ forall sensor, presentb v sensor = true ->
                                  presentb v' sensor = true)
  /\ exists more, output st' = output st ++ more.

(** What the groups become when a file with metadata [meta] and content
    [image_bytes] is accepted. *)
Definition filed (g : Groups) (meta : Meta) (image_bytes : bytes) : Groups :=
  let identifier := (POINT meta, DATE meta, REGION meta, CROP_TYPE meta) in
  let g1 := if negb (dict_mem identifier_eqb g identifier)
            then dict_set identifier_eqb g identifier (new_record meta)
            else g in
  if existsb (String.eqb (SENSOR_TYPE meta)) sensors
  then dict_update identifier_eqb g1 identifier
         (set_slot (SENSOR_TYPE meta) image_bytes)
  else g1.

End CollectorVocabulary.

(** ** cmap_dataset.ipynb: the cell that loads the records into the HDF5 file *)
Module Writer.
Import Py Dataset.

(** The exceptions of this cell: [KeyError] of a record subscript,
    [OverflowError] of [np.array(..., dtype=np.int64)], and the [ValueError]
    of [create_dataset] for a name the file already has. *)
Inductive WriteExn : Type :=
| RecordKeyError (key : string)
| Int64OverflowError
| NameAlreadyExists (name : string).

Inductive wresult (A : Type) : Type :=
| Done (a : A)
| Failed (e : WriteExn).

Arguments Done {A} a.
Arguments Failed {A} e.

(** A dataset of the file: 64-bit integers, UTF-8 strings, or one
    variable-length [uint8] array per row. *)
Inductive Column : Type :=
| Int64Data (data : list Z)
| StringData (data : list string)
| VlenData (data : list bytes).

(** The datasets of an open file, in creation order. *)
Definition H5File : Type := list (string * Column).

(** Statements run on the open file: a failure leaves the file as it was at
    the failure. *)
Definition Write (A : Type) : Type := H5File -> wresult A * H5File.

Definition wret {A : Type} (a : A) : Write A := fun hf => (Done a, hf).

Definition wbind {A B : Type} (m : Write A) (k : A -> Write B) : Write B :=
  fun hf =>
    match m hf with
    | (Done a, hf') => k a hf'
    | (Failed e, hf') => (Failed e, hf')
    end.

Definition wraise {A : Type} (e : WriteExn) : Write A := fun hf => (Failed e, hf).

(** [hf.create_dataset(name, ...)]: refused when the name is taken. *)
Definition create_dataset (name : string) (col : Column) : Write unit :=
  fun hf =>
    if dict_mem String.eqb hf name then (Failed (NameAlreadyExists name), hf)
    else (Done tt, hf ++ [(name, col)]).

Definition in_int64 (z : Z) : bool :=
  (- 2 ^ 63 <=? z) && (z <? 2 ^ 63).

(** [hf.create_dataset(name, data=np.array(data, dtype=np.int64))]: the array
    is built first. *)
Definition create_int64 (name : string) (data : list Z) : Write unit :=
  if forallb in_int64 data then create_dataset name (Int64Data data)
  else wraise Int64OverflowError.

(** [hf.create_dataset(name, (n,), dtype=vlen_uint8)]: [n] rows, all empty. *)
Definition create_empty_vlen (name : string) (n : nat) : Write unit :=
  create_dataset name (VlenData (repeat [] n)).

Definition convert_image_bytes (img_bytes : option bytes) : bytes :=
  match img_bytes with
  | None => []
  | Some b => b
  end.

(** [[convert_image_bytes(rec[sensor]) for rec in records]]. *)
Fixpoint sensor_images (sensor : string) (records : list GroupRecord)
  : wresult (list bytes) :=
  match records with
  | [] => Done []
  | rec :: records' =>
      match dict_get String.eqb (rec_slots rec) sensor with
      | None => Failed (RecordKeyError sensor)
      | Some img_bytes =>
          match sensor_images sensor records' with
          | Done rest => Done (convert_image_bytes img_bytes :: rest)
          | Failed e => Failed e
          end
      end
  end.

Inductive Line : Type :=
| DataSaved (path : string).

Definition hdf5_path : string := "../dataset/dataset_ca_17.hdf5".

(** The body of [with h5py.File(hdf5_path, "w") as hf:], followed by the
    [print]. *)
Definition write_datasets (records : list GroupRecord)
  (rgb_images ndvi_images ndvi45_images osavi_images psri_images gndvi_images
   : list bytes) : Write Line :=
  let points := map rec_POINT records in
  let dates := map rec_DATE records in
  let regions := map rec_REGION records in
  let crop_types := map rec_CROP_TYPE records in
  let labels := map rec_LABEL records in
  wbind (create_int64 "POINT" points) (fun _ =>
  wbind (create_dataset "DATE" (StringData dates)) (fun _ =>
  wbind (create_dataset "REGION" (StringData regions)) (fun _ =>
  wbind (create_dataset "CROP_TYPE" (StringData crop_types)) (fun _ =>
  wbind (create_int64 "LABEL" labels) (fun _ =>
  wbind (create_empty_vlen "RGB" (List.length rgb_images)) (fun _ =>
  wbind (create_empty_vlen "NDVI" (List.length ndvi_images)) (fun _ =>
  wbind (create_empty_vlen "NDVI45" (List.length ndvi45_images)) (fun _ =>
  wbind (create_empty_vlen "OSAVI" (List.length osavi_images)) (fun _ =>
  wbind (create_empty_vlen "PSRI" (List.length psri_images)) (fun _ =>
  wbind (create_empty_vlen "GNDVI" (List.length gndvi_images)) (fun _ =>
  wbind (create_dataset "RGB" (VlenData rgb_images)) (fun _ =>
  wbind (create_dataset "NDVI" (VlenData ndvi_images)) (fun _ =>
  wbind (create_dataset "NDVI45" (VlenData ndvi45_images)) (fun _ =>
  wbind (create_dataset "OSAVI" (VlenData osavi_images)) (fun _ =>
  wbind (create_dataset "PSRI" (VlenData psri_images)) (fun _ =>
  wbind (create_dataset "GNDVI" (VlenData gndvi_images)) (fun _ =>
  wret (DataSaved hdf5_path)))))))))))))))))).

(** The whole cell.  The image lists are built before the file is opened,
    in the order RGB, NDVI, NDVI45, OSAVI, PSRI, GNDVI; the file is [None]
    when the cell fails before opening it, else the file as the cell left
    it (opened with mode "w", so starting empty). *)
Definition write_cell (records : list GroupRecord)
  : wresult Line * option H5File :=
  match sensor_images "RGB" records with
  | Failed e => (Failed e, None)
  | Done rgb_images =>
  match sensor_images "NDVI" records with
  | Failed e => (Failed e, None)
  | Done ndvi_images =>
  match sensor_images "NDVI45" records with
  | Failed e => (Failed e, None)
  | Done ndvi45_images =>
  match sensor_images "OSAVI" records with
  | Failed e => (Failed e, None)
  | Done osavi_images =>
  match sensor_images "PSRI" records with
  | Failed e => (Failed e, None)
  | Done psri_images =>
  match sensor_images "GNDVI" records with
  | Failed e => (Failed e, None)
  | Done gndvi_images =>
      let (r, hf) :=
        write_datasets records rgb_images ndvi_images ndvi45_images
          osavi_images psri_images gndvi_images [] in
      (r, Some hf)
  end end end end end end.

(** No dataset of the file holds a byte of image data. *)
Definition no_image_bytes (hf : H5File) : Prop :=
  forall name data, In (name, VlenData data) hf -> Forall (fun b => b = []) data.

End Writer.

(** *** Parts of the sequences *)
Module PartitionVocabulary.
Import Py NN.

(** [[x for x, p in zip(l, points) if p in part]]: the entries of [l] that
    stand at the position of a point of [part], in the order of [l]. *)
Definition select {A : Type} (part points : list Z) (l : list A) : list A :=
  map snd
    (filter (fun px => existsb (Z.eqb (fst px)) part) (combine points l)).

(** [m] is the minority label of [y]: a label of [y] that no label of [y]
    occurs less often than, and the smallest label of that count. *)
Definition minority_of (y : list Z) (m : Z) : Prop :=
  In m y
  /\ forall d, In d y ->
       (count m y <= count d y)%nat /\ (count d y = count m y -> m <= d).

(** [M] is the count of the most frequent label of [y]. *)
Definition majority_count (y : list Z) (M : nat) : Prop :=
  (exists d, In d y /\ count d y = M) /\ forall d, (count d y <= M)%nat.

(** The positions [k, k+1, ...] of [points] whose point is in [part]. *)
Definition indices_from (k : nat) (points part : list Z) : list Z :=
  map fst
    (filter (fun ip => existsb (Z.eqb (snd ip)) part)
       (combine (map Z.of_nat (seq k (List.length points))) points)).

End PartitionVocabulary.

(** ** Class weights (cmap_nn.ipynb) *)
Module Weights.
Import Py NN.

(** [class_weight.compute_class_weight('balanced', classes=np.unique(y),
    y=y)] for a non-empty [y]: one weight per class, by ascending class,
    [len(y) / (n_classes * count)], the counts being a float array: the
    product and the quotient are float operations. *)
Definition compute_class_weight (y : list Z) : list Q :=
  let classes := np_unique y in
  map (fun c =>
         round64
           (inject_Z (len y)
            / round64 (inject_Z (len classes)
                       * inject_Z (Z.of_nat (count c y)))))
    classes.

(** [dict(enumerate(class_weights))]. *)
Definition class_weights (y_train : list Z) : list (Z * Q) :=
  enumerate (compute_class_weight y_train).

(** The number of distinct labels of [y] that are smaller than [c]. *)
Definition rank (c : Z) (y : list Z) : Z :=
  len (nodup Z.eq_dec (filter (fun d => d <? c) y)).

End Weights.

(** *** Floats *)
Module FloatVocabulary.
Import Py.

(** Every double is a whole multiple of the smallest subnormal, 2^-1074. *)
Definition on_grid (x : Q) : Prop :=
  exists k : Z, (x == inject_Z k * 2 ^ (-1074))%Q.

End FloatVocabulary.

(** ** Facts about the Python primitives *)
Module PyFacts.
Import Py Vocabulary.

Lemma append_assoc (a b c : string) : ((a ++ b) ++ c = a ++ (b ++ c))%string.
Proof. induction a as [|x a IH]; simpl; [reflexivity | now rewrite IH]. Qed.

Lemma occurs_append (c : ascii) (a b : string) :
  occurs c (a ++ b)%string = occurs c a || occurs c b.
Proof.
  induction a as [|x a IH]; simpl; [reflexivity|].
  now rewrite IH, orb_assoc.
Qed.

Lemma occurs_cons (c a : ascii) (s : string) :
  occurs c (String a s) = Ascii.eqb a c || occurs c s.
Proof. reflexivity. Qed.

Lemma split_no_sep (sep : ascii) (s : string) :
  occurs sep s = false -> split sep s = [s].
Proof.
  induction s as [|a s IH]; simpl; [reflexivity|].
  intros H. apply orb_false_iff in H as [Ha Hs].
  now rewrite Ha, (IH Hs).
Qed.

Lemma split_append_sep (sep : ascii) (s t : string) :
  occurs sep s = false ->
  split sep (s ++ String sep t)%string = s :: split sep t.
Proof.
  induction s as [|a s IH]; simpl.
  - intros _. now rewrite Ascii.eqb_refl.
  - intros H. apply orb_false_iff in H as [Ha Hs].
    now rewrite Ha, (IH Hs).
Qed.

(** Splitting undoes joining when no part holds the separator. *)
Lemma split_join (sep : ascii) (parts : list string) :
  parts <> [] ->
  Forall (fun p => occurs sep p = false) parts ->
  split sep (join (String sep EmptyString) parts) = parts.
Proof.
  unfold join.
  induction parts as [|p parts IH]; [congruence|].
  intros _ H. inversion H as [|? ? Hp Hrest]; subst.
  destruct parts as [|q parts].
  - simpl. now apply split_no_sep.
  - change (concat (String sep "") (p :: q :: parts))
      with (p ++ String sep (concat (String sep "") (q :: parts)))%string.
    rewrite split_append_sep by assumption.
    f_equal. apply IH; [congruence | assumption].
Qed.

Lemma occurs_join (c sep : ascii) (parts : list string) :
  Ascii.eqb sep c = false ->
  Forall (fun p => occurs c p = false) parts ->
  occurs c (join (String sep EmptyString) parts) = false.
Proof.
  unfold join. intros Hsep.
  induction parts as [|p parts IH]; intros H; [reflexivity|].
  inversion H as [|? ? Hp Hrest]; subst.
  destruct parts as [|q parts]; [exact Hp|].
  change (concat (String sep "") (p :: q :: parts))
    with (p ++ String sep (concat (String sep "") (q :: parts)))%string.
  rewrite occurs_append, occurs_cons, Hp, Hsep.
  simpl orb. now apply IH.
Qed.

Lemma rfind_from_absent (c : ascii) (s : string) (i : Z) :
  occurs c s = false -> rfind_from c s i = -1.
Proof.
  revert i. induction s as [|a s IH]; intros i; simpl; [reflexivity|].
  intros H. apply orb_false_iff in H as [Ha Hs].
  now rewrite (IH _ Hs), Ha.
Qed.

Lemma rfind_from_last (c : ascii) (s t : string) (i : Z) :
  0 <= i ->
  occurs c t = false ->
  rfind_from c (s ++ String c t)%string i = i + Z.of_nat (String.length s).
Proof.
  revert i. induction s as [|a s IH]; intros i Hi Ht; simpl String.append.
  - simpl. rewrite (rfind_from_absent _ _ _ Ht), Ascii.eqb_refl. simpl. lia.
  - cbn [rfind_from]. rewrite IH by (assumption || lia).
    replace (0 <=? i + 1 + Z.of_nat (String.length s)) with true
      by (symmetry; apply Z.leb_le; lia).
    cbn [String.length]. lia.
Qed.

Lemma substring_prefix (s t : string) :
  substring 0 (String.length s) (s ++ t)%string = s.
Proof.
  induction s as [|a s IH]; simpl.
  - now destruct t.
  - now rewrite IH.
Qed.

Lemma substring_suffix (s t : string) :
  substring (String.length s) (String.length t) (s ++ t)%string = t.
Proof.
  induction s as [|a s IH]; simpl; [|exact IH].
  induction t as [|b t IHt]; simpl; [reflexivity | now rewrite IHt].
Qed.

Lemma length_append (s t : string) :
  String.length (s ++ t)%string = (String.length s + String.length t)%nat.
Proof. induction s as [|a s IH]; simpl; [reflexivity | now rewrite IH]. Qed.

(** [os.path.splitext] takes the extension off a name that holds no path
    separator and starts with a character other than the dot. *)
Lemma splitext_extension (a : ascii) (stem ext : string) :
  Ascii.eqb a "." = false ->
  occurs "/" (String a stem) = false ->
  extension ext ->
  splitext (String a stem ++ String "." ext)%string
  = (String a stem, String "." ext).
Proof.
  intros Ha Hsl [Hdot Hesl].
  unfold splitext, rfind.
  rewrite rfind_from_last by (assumption || lia).
  rewrite rfind_from_absent.
  2:{ rewrite occurs_append. rewrite Hsl. simpl. now rewrite Hesl. }
  replace (-1 <? 0 + Z.of_nat (String.length (String a stem))) with true
    by (symmetry; apply Z.ltb_lt; lia).
  replace (Z.to_nat (-1 + 1)) with 0%nat by reflexivity.
  replace (Z.to_nat (0 + Z.of_nat (String.length (String a stem)) - (-1 + 1)))
    with (S (String.length stem)) by (cbn [String.length]; lia).
  replace (Z.to_nat (0 + Z.of_nat (String.length (String a stem))))
    with (String.length (String a stem)) by lia.
  cbn [splitext_scan].
  replace (substring 0 1 (String a stem ++ String "." ext))
    with (String a EmptyString) by (simpl; now destruct (stem ++ String "." ext)%string).
  replace (String a "" =? ".")%string with false.
  2:{ symmetry. apply String.eqb_neq. intros E. inversion E; subst.
      now rewrite Ascii.eqb_refl in Ha. }
  cbn [negb]. rewrite substring_prefix. f_equal.
  rewrite length_append.
  replace (String.length (String a stem) + String.length (String "." ext)
           - String.length (String a stem))%nat
    with (String.length (String "." ext)) by lia.
  apply substring_suffix.
Qed.

Lemma getitem_last {A : Type} (l : list A) (x : A) :
  getitem (l ++ [x]) (-1) = Ok x.
Proof.
  unfold getitem, len. rewrite length_app. simpl List.length.
  replace (-1 <? 0) with true by reflexivity.
  replace (Z.of_nat (List.length l + 1) + -1 <? 0) with false
    by (symmetry; apply Z.ltb_ge; lia).
  replace (Z.to_nat (Z.of_nat (List.length l + 1) + -1)) with (List.length l) by lia.
  now rewrite nth_error_app2, Nat.sub_diag by lia.
Qed.

Lemma getitem_nat {A : Type} (l : list A) (i : nat) :
  getitem l (Z.of_nat i)
  = match nth_error l i with Some x => Ok x | None => Raise IndexError end.
Proof.
  unfold getitem.
  replace (Z.of_nat i <? 0) with false by (symmetry; apply Z.ltb_ge; lia).
  replace (Z.of_nat i <? 0) with false by (symmetry; apply Z.ltb_ge; lia).
  now rewrite Nat2Z.id.
Qed.

(** [l[k:-1]] drops the first [k] elements and the last one. *)
Lemma slice_middle {A : Type} (pre mid : list A) (x : A) :
  slice (pre ++ mid ++ [x]) (len pre) (-1) = mid.
Proof.
  unfold slice, slice_bound, len.
  rewrite !length_app. simpl List.length.
  replace (Z.of_nat (List.length pre) <? 0) with false
    by (symmetry; apply Z.ltb_ge; lia).
  replace (-1 <? 0) with true by reflexivity.
  rewrite Z.min_l, Z.max_r by lia.
  rewrite Nat2Z.id, skipn_app, skipn_all, Nat.sub_diag. simpl.
  replace (Z.to_nat _) with (List.length mid + 0)%nat by lia.
  rewrite firstn_app_2. simpl. apply app_nil_r.
Qed.

(** *** Comprehensions that may raise *)

Lemma mapM_Forall2 {A B : Type} (f : A -> result B) (l : list A) (ys : list B) :
  mapM f l = Ok ys <-> Forall2 (fun x y => f x = Ok y) l ys.
Proof.
  revert ys. induction l as [|x l IH]; intros ys; cbn [mapM].
  - split; intros H; [inversion H; constructor | now inversion H].
  - destruct (f x) as [y|e] eqn:Ef; cbn [rbind].
    + destruct (mapM f l) as [ys'|e] eqn:Em; cbn [rbind].
      * split; intros H.
        -- inversion H; subst. constructor; [exact Ef | now apply IH].
        -- inversion H as [|? ? ? ? Hy Hys]; subst.
           apply IH in Hys. congruence.
      * split; intros H; [discriminate|].
        inversion H as [|? ? ? ? Hy Hys]; subst. apply IH in Hys. discriminate.
    + split; intros H; [discriminate|].
      inversion H as [|? ? ? ? Hy Hys]; subst. congruence.
Qed.

Lemma Forall2_In_l {A B : Type} (R : A -> B -> Prop) (l : list A) (ys : list B)
  (x : A) :
  Forall2 R l ys -> In x l -> exists y, In y ys /\ R x y.
Proof.
  induction 1 as [|x' y' l ys Hxy _ IH]; intros Hin; [destruct Hin|].
  destruct Hin as [<- | Hin].
  - exists y'. split; [now left | exact Hxy].
  - destruct (IH Hin) as [y [Hy Hr]]. exists y. split; [now right | exact Hr].
Qed.

Lemma Forall2_In_r {A B : Type} (R : A -> B -> Prop) (l : list A) (ys : list B)
  (y : B) :
  Forall2 R l ys -> In y ys -> exists x, In x l /\ R x y.
Proof.
  induction 1 as [|x' y' l ys Hxy _ IH]; intros Hin; [destruct Hin|].
  destruct Hin as [<- | Hin].
  - exists x'. split; [now left | exact Hxy].
  - destruct (IH Hin) as [x [Hx Hr]]. exists x. split; [now right | exact Hr].
Qed.

Lemma Forall2_nth_error_l {A B : Type} (R : A -> B -> Prop) (l : list A)
  (ys : list B) (i : nat) (x : A) :
  Forall2 R l ys -> nth_error l i = Some x ->
  exists y, nth_error ys i = Some y /\ R x y.
Proof.
  intros H. revert i. induction H as [|x' y' l ys Hxy _ IH]; intros i Hi.
  - now destruct i.
  - destruct i as [|i]; simpl in *.
    + inversion Hi; subst. now exists y'.
    + now apply IH.
Qed.

Lemma getitem_nonneg {A : Type} (l : list A) (i : Z) (x : A) :
  0 <= i -> (getitem l i = Ok x <-> nth_error l (Z.to_nat i) = Some x).
Proof.
  intros Hi. unfold getitem.
  replace (i <? 0) with false by (symmetry; apply Z.ltb_ge; lia).
  replace (i <? 0) with false by (symmetry; apply Z.ltb_ge; lia).
  destruct (nth_error l (Z.to_nat i)); split; congruence.
Qed.

(** [enumerate] pairs each element with its position. *)
Lemma enumerate_from {A : Type} (l : list A) (s : nat) (i : Z) (x : A) :
  In (i, x) (combine (map Z.of_nat (seq s (List.length l))) l)
  <-> Z.of_nat s <= i /\ nth_error l (Z.to_nat i - s) = Some x.
Proof.
  revert s. induction l as [|a l IH]; intros s; cbn [List.length seq map combine].
  - split; [intros [] | intros [_ H]]. now destruct (Z.to_nat i - s)%nat.
  - cbn [In]. rewrite IH. split.
    + intros [E | [Hle Hn]].
      * inversion E; subst. split; [lia|].
        now rewrite Nat2Z.id, Nat.sub_diag.
      * split; [lia|].
        replace (Z.to_nat i - s)%nat with (S (Z.to_nat i - S s)) by lia.
        exact Hn.
    + intros [Hle Hn]. destruct (Z.to_nat i - s)%nat as [|k] eqn:Ek.
      * left. simpl in Hn. inversion Hn; subst. f_equal. lia.
      * right. split; [lia|]. simpl in Hn.
        now replace (Z.to_nat i - S s)%nat with k by lia.
Qed.

Lemma In_enumerate {A : Type} (l : list A) (i : Z) (x : A) :
  In (i, x) (enumerate l) <-> 0 <= i /\ nth_error l (Z.to_nat i) = Some x.
Proof.
  unfold enumerate, range, len. rewrite Nat2Z.id, enumerate_from.
  now rewrite Nat.sub_0_r.
Qed.

Lemma map_nth_error_seq {A : Type} (l : list A) :
  map (nth_error l) (seq 0 (List.length l)) = map Some l.
Proof.
  induction l as [|a l IH]; [reflexivity|].
  cbn [List.length seq map nth_error]. f_equal.
  rewrite <- seq_shift, map_map. exact IH.
Qed.

Lemma filter_length_permutation {A : Type} (f : A -> bool) (l l' : list A) :
  Permutation l l' -> List.length (filter f l) = List.length (filter f l').
Proof.
  induction 1 as [|x l l' _ IH|x y l|l l' l'' _ IH1 _ IH2]; simpl.
  - reflexivity.
  - destruct (f x); simpl; congruence.
  - destruct (f x), (f y); reflexivity.
  - congruence.
Qed.

End PyFacts.

(** ** Facts about float rounding *)
Module FloatFacts.
Import Py FloatVocabulary.

Lemma pow2_pos (e : Z) : (0 < 2 ^ e)%Q.
Proof. now apply Qpower_0_lt. Qed.

Lemma pow2_inject (e : Z) : 0 <= e -> (2 ^ e == inject_Z (2 ^ e))%Q.
Proof. intros H. now rewrite Zpower_Qpower. Qed.

Lemma round_half_even_floor (y : Q) : Qfloor y <= round_half_even y.
Proof.
  unfold round_half_even.
  destruct (Qcompare _ _); [destruct (Z.even _)| |]; lia.
Qed.

Lemma round_half_even_ge_one (y : Q) : (1 <= y)%Q -> 1 <= round_half_even y.
Proof.
  intros H. apply Qfloor_resp_le in H. change (Qfloor 1) with 1 in H.
  pose proof (round_half_even_floor y). lia.
Qed.

Lemma ilog2_le (x : Q) : (0 < x)%Q -> (2 ^ ilog2 x <= x)%Q.
Proof.
  intros Hx. unfold ilog2.
  destruct (Qle_bool _ x) eqn:E; [now apply Qle_bool_iff|]. clear E.
  destruct x as [n d].
  assert (Hn : 0 < n) by (unfold Qlt in Hx; simpl in Hx; lia).
  cbn [Qnum Qden].
  pose proof (Z.log2_spec n Hn) as [Ha _].
  pose proof (Z.log2_spec (Zpos d) (Pos2Z.is_pos d)) as [_ Hb].
  pose proof (Z.log2_nonneg n) as Ha0.
  pose proof (Z.log2_nonneg (Zpos d)) as Hb0.
  set (a := Z.log2 n) in *. set (b := Z.log2 (Zpos d)) in *.
  replace (a - b - 1) with (a - Z.succ b) by lia.
  rewrite Qpower_minus by discriminate.
  rewrite (pow2_inject a), (pow2_inject (Z.succ b)) by lia.
  apply Qle_shift_div_r.
  - change 0%Q with (inject_Z 0). rewrite <- Zlt_Qlt. lia.
  - unfold Qle, Qmult, inject_Z. cbn [Qnum Qden].
    rewrite Pos.mul_1_r, !Z.mul_1_r.
    apply Z.le_trans with (n * Zpos d); [|apply Z.mul_le_mono_nonneg_l; lia].
    apply Z.mul_le_mono_nonneg_r; lia.
Qed.

Lemma round64_positive (x : Q) : (2 ^ (-1074) <= x)%Q -> (0 < round64 x)%Q.
Proof.
  intros Hx.
  assert (Hpos : (0 < x)%Q)
    by (eapply Qlt_le_trans; [apply (pow2_pos (-1074)) | exact Hx]).
  unfold round64.
  destruct (Qeq_bool x 0) eqn:E.
  { apply Qeq_bool_iff in E. rewrite E in Hpos. discriminate. }
  assert (Habs : Qabs x = x).
  { destruct x as [n d]. unfold Qlt in Hpos. simpl in Hpos.
    unfold Qabs. f_equal. lia. }
  rewrite Habs. set (e := Z.max (ilog2 x - 52) (-1074)).
  assert (He : (2 ^ e <= x)%Q).
  { unfold e. destruct (Z.max_spec (ilog2 x - 52) (-1074)) as [[_ ->]|[_ ->]];
      [exact Hx|].
    eapply Qle_trans; [|apply (ilog2_le x Hpos)].
    apply Qpower_le_compat_l; [lia | discriminate]. }
  assert (Hy : (1 <= x / 2 ^ e)%Q).
  { apply Qle_shift_div_l; [apply pow2_pos | now rewrite Qmult_1_l]. }
  apply round_half_even_ge_one in Hy.
  rewrite Qred_correct. apply Qmult_lt_0_compat; [|apply pow2_pos].
  change 0%Q with (inject_Z 0). rewrite <- Zlt_Qlt. lia.
Qed.

Lemma round64_on_grid (x : Q) : on_grid (round64 x).
Proof.
  unfold round64, on_grid. destruct (Qeq_bool x 0).
  { exists 0. now rewrite Qmult_0_l. }
  set (e := Z.max (ilog2 (Qabs x) - 52) (-1074)).
  set (m := round_half_even (x / 2 ^ e)).
  exists (m * 2 ^ (e + 1074)).
  rewrite Qred_correct, inject_Z_mult, <- pow2_inject by lia.
  rewrite <- Qmult_assoc, <- Qpower_plus by discriminate.
  now replace (e + 1074 + -1074) with e by lia.
Qed.

Lemma on_grid_positive (x : Q) :
  on_grid x -> (0 < x)%Q -> (2 ^ (-1074) <= x)%Q.
Proof.
  intros [k Hk] Hx. rewrite Hk in *.
  destruct (Z_lt_le_dec 0 k) as [Hpos | Hneg].
  - rewrite <- (Qmult_1_l (2 ^ (-1074))) at 1.
    apply Qmult_le_compat_r; [|apply Qlt_le_weak, pow2_pos].
    change 1%Q with (inject_Z 1). rewrite <- Zle_Qle. lia.
  - exfalso. apply (Qlt_not_le _ _ Hx).
    rewrite <- (Qmult_0_l (2 ^ (-1074))).
    apply Qmult_le_compat_r; [|apply Qlt_le_weak, pow2_pos].
    change 0%Q with (inject_Z 0). rewrite <- Zle_Qle. lia.
Qed.

Lemma on_grid_complement (x : Q) : on_grid x -> on_grid (1 - x).
Proof.
  intros [k Hk]. exists (2 ^ 1074 - k).
  unfold Zminus. rewrite inject_Z_plus, inject_Z_opp, Hk.
  rewrite <- (pow2_inject 1074) by lia.
  rewrite Qmult_plus_distr_l.
  rewrite <- Qpower_plus by discriminate.
  change (1074 + -1074) with 0. rewrite Qpower_0_r. ring.
Qed.

(** The floats written 0.3 and 0.15, the float [1 - 0.3], which is the float
    written 0.7, the products [0.3 * 100 = 30.0] and [0.15 / 0.7 * 70 =
    15.000000000000002], and the float nearest to 2/3. *)
Lemma round64_examples :
  (round64 (3 # 10) = 5404319552844595 # 18014398509481984
   /\ round64 (15 # 100) = 5404319552844595 # 36028797018963968
   /\ round64 (1 - round64 (3 # 10)) = round64 (7 # 10)
   /\ round64 (round64 (3 # 10) * 100) = 30 # 1
   /\ round64
        (round64 (round64 (15 # 100) / round64 (1 - round64 (3 # 10))) * 70)
      = 8444249301319681 # 562949953421312
   /\ round64 (2 # 3) = 6004799503160661 # 9007199254740992)%Q.
Proof. repeat split; vm_compute; reflexivity. Qed.

End FloatFacts.

(** ** Facts about the filename parser, the collector and the filter *)
Module DatasetFacts.
Import Py Vocabulary GroupVocabulary PyFacts Dataset.

Lemma label_is_enumeration_index (crop_type : string) :
  get_default crop_mapping crop_type (-1) = enumeration_index crop_type.
Proof.
  unfold get_default, crop_mapping, enumeration_index, crop_enumeration.
  cbn [dict_get index_of].
  repeat (destruct (String.eqb crop_type _); [reflexivity|]).
  reflexivity.
Qed.

(** C6. A file name POINT_<p>_<d>_<r>_<c>_<s>.<ext> whose second segment is
    numeric parses into point [int(p)], date [d], region [r], the crop type
    rejoined with underscores from its one or more segments, sensor [s], and
    as label the position of the crop type in the fixed enumeration
    (BARLEY = 0 up to SPRING_WHEAT = 9), or -1 for any other crop type. *)
Theorem parse_filename_components
  (p d r s ext : string) (crop : list string) (n : Z) :
  py_int p = Ok n ->
  crop <> [] ->
  Forall segment (p :: d :: r :: s :: crop) ->
  extension ext ->
  parse_filename
    (join "_" ("POINT" :: p :: d :: r :: crop ++ [s]) ++ "." ++ ext)%string
  = Ok (Some (mkMeta n d r (join "_" crop) s
                (enumeration_index (join "_" crop)))).
Proof.
  intros Hint Hcrop Hseg Hext.
  assert (Hus : Forall (fun x => occurs "_" x = false)
                  ("POINT" :: p :: d :: r :: crop ++ [s])).
  { inversion Hseg as [|? ? [Hp _] H1]; subst.
    inversion H1 as [|? ? [Hd _] H2]; subst.
    inversion H2 as [|? ? [Hr _] H3]; subst.
    inversion H3 as [|? ? [Hs _] H4]; subst.
    repeat (constructor; [assumption || reflexivity|]).
    apply Forall_app. split; [|now constructor].
    eapply Forall_impl; [|exact H4]. now intros x [Hx _]. }
  assert (Hsl : Forall (fun x => occurs "/" x = false)
                  ("POINT" :: p :: d :: r :: crop ++ [s])).
  { inversion Hseg as [|? ? [_ Hp] H1]; subst.
    inversion H1 as [|? ? [_ Hd] H2]; subst.
    inversion H2 as [|? ? [_ Hr] H3]; subst.
    inversion H3 as [|? ? [_ Hs] H4]; subst.
    repeat (constructor; [assumption || reflexivity|]).
    apply Forall_app. split; [|now constructor].
    eapply Forall_impl; [|exact H4]. now intros x [_ Hx]. }
  pose proof (occurs_join "/" "_" _ eq_refl Hsl) as Hnosl.
  assert (Hsplit : split "_" (join "_" ("POINT" :: p :: d :: r :: crop ++ [s]))
                   = "POINT" :: p :: d :: r :: crop ++ [s])
    by (apply split_join; [discriminate | exact Hus]).
  set (parts := "POINT" :: p :: d :: r :: crop ++ [s]) in *.
  assert (Hstem : exists rest, join "_" parts = String "P" rest).
  { eexists. reflexivity. }
  destruct Hstem as [rest Hstem].
  unfold parse_filename.
  change ("." ++ ext)%string with (String "." ext).
  rewrite Hstem in *.
  rewrite splitext_extension by (assumption || reflexivity).
  rewrite Hsplit. subst parts.
  assert (Hlen : (List.length ("POINT" :: p :: d :: r :: crop ++ [s]) <? 6)%nat
                 = false).
  { apply Nat.ltb_ge. destruct crop; [congruence|].
    simpl. rewrite length_app. simpl. lia. }
  rewrite Hlen.
  cbn [hd orb negb]. replace ("POINT" =? "POINT")%string with true by reflexivity.
  cbn [negb].
  change (getitem ("POINT" :: p :: d :: r :: crop ++ [s]) 1) with (Ok p).
  cbn [rbind]. rewrite Hint. cbn [rbind].
  change (getitem ("POINT" :: p :: d :: r :: crop ++ [s]) 2) with (Ok d).
  change (getitem ("POINT" :: p :: d :: r :: crop ++ [s]) 3) with (Ok r).
  cbn [rbind].
  change ("POINT" :: p :: d :: r :: crop ++ [s])
    with (("POINT" :: p :: d :: r :: crop) ++ [s]) at 1.
  rewrite getitem_last. cbn [rbind].
  change ("POINT" :: p :: d :: r :: crop ++ [s])
    with (["POINT"; p; d; r] ++ crop ++ [s]).
  change 4 with (len ["POINT"; p; d; r]).
  rewrite slice_middle, label_is_enumeration_index.
  reflexivity.
Qed.

Lemma parse_filename_components_witness :
  parse_filename "POINT_12_20170601_R1_SPRING_WHEAT_RGB.png"
  = Ok (Some (mkMeta 12 "20170601" "R1" "SPRING_WHEAT" "RGB" 9)).
Proof.
  apply (parse_filename_components "12" "20170601" "R1" "RGB" "png"
           ["SPRING"; "WHEAT"] 12).
  - reflexivity.
  - discriminate.
  - repeat constructor.
  - split; reflexivity.
Defined.

(** *** The scan loop *)

Lemma for_each_raise {A : Type} (body : A -> Scan unit) (x : A) (rest : list A)
  (st st' : ScanState) (e : Exn) :
  body x st = (Raise e, st') ->
  for_each (x :: rest) body st = (Raise e, st').
Proof. intros H. cbn [for_each]. unfold bind. now rewrite H. Qed.

(** A file that passes the two name tests and whose point id [int] rejects
    makes the loop body raise, with the state untouched. *)
Lemma process_file_raises (fs : FileSystem) (file : string) (st : ScanState)
  (e : Exn) :
  endswith (lower file) ".png" = true ->
  startswith file "POINT_" = true ->
  parse_filename file = Raise e ->
  process_file fs file st = (Raise e, st).
Proof.
  intros Hpng Hpoint Hparse. unfold process_file.
  rewrite Hpng, Hpoint. cbn [negb]. unfold bind, lift. now rewrite Hparse.
Qed.

Lemma parse_filename_raises (file p : string) (tail : list string) (e : Exn) :
  split "_" (fst (splitext file)) = "POINT" :: p :: tail ->
  (4 <= List.length tail)%nat ->
  py_int p = Raise e ->
  parse_filename file = Raise e.
Proof.
  intros Hsplit Htail Hint. unfold parse_filename.
  destruct (splitext file) as [name ext]. cbn [fst] in Hsplit. rewrite Hsplit.
  replace (List.length ("POINT" :: p :: tail) <? 6)%nat with false
    by (symmetry; apply Nat.ltb_ge; simpl; lia).
  cbn [hd orb]. replace ("POINT" =? "POINT")%string with true by reflexivity.
  cbn [negb].
  change (getitem ("POINT" :: p :: tail) 1) with (Ok p).
  cbn [rbind]. now rewrite Hint.
Qed.

(** C7. A scanned file whose stem splits into POINT, a second segment that
    [int] rejects, and at least four more segments makes [parse_filename]
    raise [ValueError], and nothing in the loop catches it: the loop over the
    directory's files stops at that file with the groups and the output as
    they were, and the files after it are never looked at. *)
Theorem malformed_point_aborts_scan (fs : FileSystem) (file p : string)
  (tail rest : list string) (st : ScanState) :
  endswith (lower file) ".png" = true ->
  startswith file "POINT_" = true ->
  split "_" (fst (splitext file)) = "POINT" :: p :: tail ->
  (4 <= List.length tail)%nat ->
  py_int p = Raise ValueError ->
  parse_filename file = Raise ValueError
  /\ for_each (file :: rest) (process_file fs) st = (Raise ValueError, st).
Proof.
  intros Hpng Hpoint Hsplit Htail Hint.
  pose proof (parse_filename_raises file p tail ValueError Hsplit Htail Hint)
    as Hparse.
  split; [exact Hparse|].
  apply for_each_raise. now apply process_file_raises.
Qed.

Lemma malformed_point_aborts_scan_witness :
  parse_filename Examples.bad_point_file = Raise ValueError
  /\ for_each [Examples.bad_point_file; Examples.corn_file]
       (process_file (Examples.readable_fs
                        [Examples.bad_point_file; Examples.corn_file]))
       initial_state
     = (Raise ValueError, initial_state).
Proof.
  apply (malformed_point_aborts_scan
           (Examples.readable_fs [Examples.bad_point_file; Examples.corn_file])
           Examples.bad_point_file "abc" ["20170601"; "R1"; "CORN"; "RGB"]
           [Examples.corn_file] initial_state).
  - reflexivity.
  - reflexivity.
  - reflexivity.
  - simpl. lia.
  - reflexivity.
Defined.

(** The whole collector on that directory, and on the directory without the
    malformed file. *)
Example malformed_point_aborts_collect :
  collect (Examples.readable_fs [Examples.bad_point_file; Examples.corn_file])
    initial_state
  = (Raise ValueError, initial_state)
  /\ collect (Examples.readable_fs [Examples.corn_file]) initial_state
     = (Ok tt,
        mkScanState
          [(Examples.corn_identifier, Examples.corn_record (Some ["001"%byte]))]
          [Opened Examples.corn_file]).
Proof. split; vm_compute; reflexivity. Qed.

(** *** What the collector reads *)

Lemma for_each_ext {A : Type} (body body' : A -> Scan unit) (l : list A) :
  (forall x st, In x l -> body x st = body' x st) ->
  forall st, for_each l body st = for_each l body' st.
Proof.
  induction l as [|x l IH]; intros H st; [reflexivity|].
  cbn [for_each]. unfold bind. rewrite (H x st (or_introl eq_refl)).
  destruct (body' x st) as [[[]|e] st']; [|reflexivity].
  apply IH. intros y st'' Hy. apply H. now right.
Qed.

Lemma process_file_read (fs fs' : FileSystem) (file : string) (st : ScanState) :
  read_file fs file = read_file fs' file ->
  process_file fs file st = process_file fs' file st.
Proof.
  intros H. unfold process_file, open_read, bind. now rewrite H.
Qed.

(** The outcome of the collector depends on the contents of the tree only
    through what [open] returns for the bare names the walk lists: two trees
    with the same directories and listings in which every listed name reads
    the same from the working directory are collected alike, whatever the
    listed files themselves hold. *)
Lemma collect_reads_listed_names_only (fs fs' : FileSystem) (st : ScanState) :
  (forall p, isdir fs p = isdir fs' p) ->
  (forall p, walk fs p = walk fs' p) ->
  (forall sensor_dir root files file,
      In sensor_dir sensors ->
      In (root, files) (walk fs (path_join base_dir sensor_dir)) ->
      In file files ->
      read_file fs file = read_file fs' file) ->
  collect fs st = collect fs' st.
Proof.
  intros Hdir Hwalk Hread. unfold collect. revert st.
  apply for_each_ext. intros sensor_dir st Hs.
  rewrite <- Hdir, <- Hwalk.
  destruct (negb (isdir fs (path_join base_dir sensor_dir))); [reflexivity|].
  revert st. apply for_each_ext. intros [root files] st Hrf.
  revert st. apply for_each_ext. intros file st Hfile.
  apply process_file_read. exact (Hread sensor_dir root files file Hs Hrf Hfile).
Qed.

(** C9. The collector opens the bare file name, which the interpreter
    resolves against the working directory, not against the directory the
    walk found the file in.  A file present only in the scanned tree is
    reported unreadable and skipped; when the working directory holds a file
    of the same name, that file's bytes are stored instead. *)
Theorem collector_reads_bare_name :
  read_file Examples.tree_only_fs (path_join Examples.rgb_dir Examples.corn_file)
  = Some ["001"%byte; "002"%byte]
  /\ collect Examples.tree_only_fs initial_state
     = (Ok tt,
        mkScanState []
          [Opened Examples.corn_file;
           Printed (ErrorReading Examples.corn_file)])
  /\ collect Examples.shadowed_fs initial_state
     = (Ok tt,
        mkScanState
          [(Examples.corn_identifier, Examples.corn_record (Some ["255"%byte]))]
          [Opened Examples.corn_file]).
Proof. repeat split; vm_compute; reflexivity. Qed.

(** C10. A file whose lower-cased name does not end in ".png", or whose name
    does not start with "POINT_", is passed over before it is parsed or
    opened: the loop body returns normally and leaves the groups and the
    output as they were. *)
Theorem other_files_leave_groups_unchanged
  (fs : FileSystem) (file : string) (st : ScanState) :
  endswith (lower file) ".png" = false \/ startswith file "POINT_" = false ->
  process_file fs file st = (Ok tt, st).
Proof.
  intros [H | H]; unfold process_file.
  - now rewrite H.
  - destruct (endswith (lower file) ".png"); [now rewrite H | reflexivity].
Qed.

Lemma other_files_leave_groups_unchanged_witness :
  process_file Examples.shadowed_fs Examples.tif_file initial_state
  = (Ok tt, initial_state).
Proof.
  apply (other_files_leave_groups_unchanged Examples.shadowed_fs
           Examples.tif_file initial_state).
  left. reflexivity.
Defined.

(** *** The completeness filter *)

Lemma dict_get_key {V : Type} (d : list (string * V)) (k : string) :
  In k (map fst d) -> dict_get String.eqb d k <> None.
Proof.
  induction d as [|[k' v] d IH]; simpl; [tauto|].
  intros [E | H].
  - subst. now rewrite String.eqb_refl.
  - destruct (String.eqb k k'); [discriminate | auto].
Qed.

Lemma all_present_spec (v : GroupRecord) (ss : list string) :
  incl ss (map fst (rec_slots v)) ->
  all_present v ss = Ok (forallb (presentb v) ss).
Proof.
  induction ss as [|s ss IH]; intros Hincl; [reflexivity|].
  cbn [all_present forallb]. unfold presentb at 1.
  pose proof (dict_get_key (rec_slots v) s (Hincl s (or_introl eq_refl))) as Hk.
  destruct (dict_get String.eqb (rec_slots v) s) as [[blob|]|];
    [|reflexivity|congruence].
  apply IH. intros x Hx. apply Hincl. now right.
Qed.

Lemma completeb_spec (v : GroupRecord) : completeb v = true <-> complete v.
Proof.
  unfold completeb, complete. rewrite forallb_forall.
  split; intros H s Hs; specialize (H s Hs); unfold presentb, present in *.
  - destruct (dict_get String.eqb (rec_slots v) s) as [[blob|]|];
      try discriminate. now exists blob.
  - destruct H as [blob ->]. reflexivity.
Qed.

Lemma complete_groups_filter (g : Groups) :
  Forall (fun kv => well_formed (snd kv)) g ->
  complete_groups g = Ok (filter (fun kv => completeb (snd kv)) g).
Proof.
  induction 1 as [|[k v] g Hwf _ IH]; [reflexivity|].
  cbn [complete_groups filter snd]. unfold well_formed in Hwf. simpl in Hwf.
  rewrite all_present_spec by (rewrite Hwf; apply incl_refl).
  cbn [rbind]. rewrite IH. reflexivity.
Qed.

Lemma filter_all {A : Type} (f : A -> bool) (l : list A) :
  Forall (fun x => f x = true) l -> filter f l = l.
Proof. induction 1 as [|x l Hx _ IH]; simpl; [|rewrite Hx, IH]; reflexivity. Qed.

Lemma filter_none {A : Type} (f : A -> bool) (l : list A) :
  Forall (fun x => f x = false) l -> filter f l = [].
Proof. induction 1 as [|x l Hx _ IH]; simpl; [|rewrite Hx, IH]; reflexivity. Qed.

(** C8. On a mapping of [n] groups, each with a slot per required sensor, of
    which exactly the [k] groups of [good] are complete, the filter returns
    the sub-mapping of the complete groups, in the order of the input: it
    has [k] entries, an entry is kept exactly when it is an entry of the
    input whose record is complete, and the printed line carries the pair
    ([k] complete, [n] original). *)
Theorem complete_groups_exact (g good bad : Groups) (k n : nat) :
  Forall (fun kv => well_formed (snd kv)) g ->
  Permutation g (good ++ bad) ->
  Forall (fun kv => complete (snd kv)) good ->
  Forall (fun kv => ~ complete (snd kv)) bad ->
  List.length good = k ->
  List.length g = n ->
  exists cg,
    filter_cell g
    = Ok (cg, CompleteRecords (Z.of_nat k) (Z.of_nat n), map snd cg)
    /\ cg = filter (fun kv => completeb (snd kv)) g
    /\ List.length cg = k
    /\ (forall kv, In kv cg <-> In kv g /\ complete (snd kv)).
Proof.
  intros Hwf Hperm Hgood Hbad Hk Hn.
  assert (Hlen : List.length (filter (fun kv => completeb (snd kv)) g) = k).
  { rewrite (filter_length_permutation _ _ _ Hperm), filter_app, length_app.
    rewrite filter_all, filter_none, Nat.add_0_r; [exact Hk| |].
    - eapply Forall_impl; [|exact Hbad]. intros kv Hkv. cbv beta.
      destruct (completeb (snd kv)) eqn:E; [|reflexivity].
      now apply completeb_spec in E.
    - eapply Forall_impl; [|exact Hgood]. intros kv Hkv.
      now apply completeb_spec. }
  exists (filter (fun kv => completeb (snd kv)) g).
  repeat split.
  - unfold filter_cell. rewrite (complete_groups_filter g Hwf). cbn [rbind].
    unfold len. now rewrite Hlen, Hn.
  - exact Hlen.
  - now apply filter_In in H.
  - apply completeb_spec. now apply filter_In in H.
  - intros [Hin Hc]. apply filter_In. split; [assumption|].
    now apply completeb_spec.
Qed.

Lemma complete_groups_exact_witness :
  exists cg,
    filter_cell Examples.three_groups
    = Ok (cg, CompleteRecords 2 3, map snd cg)
    /\ cg = filter (fun kv => completeb (snd kv)) Examples.three_groups
    /\ List.length cg = 2%nat
    /\ (forall kv, In kv cg <-> In kv Examples.three_groups /\ complete (snd kv)).
Proof.
  apply (complete_groups_exact Examples.three_groups
           [((1, "20170601", "R1", "CORN"), Examples.full_record 1);
            ((3, "20170601", "R1", "CORN"), Examples.full_record 3)]
           [((2, "20170601", "R1", "CORN"), Examples.corn_record None)]
           2 3).
  - repeat constructor.
  - simpl. apply perm_skip. apply perm_swap.
  - repeat constructor; apply completeb_spec; reflexivity.
  - repeat constructor. intros H. apply completeb_spec in H. discriminate H.
  - reflexivity.
  - reflexivity.
Defined.

(** *** The collector only builds records with one slot per sensor *)

Lemma dict_set_keys {V : Type} (d : list (string * V)) (k : string) (v : V) :
  In k (map fst d) -> map fst (dict_set String.eqb d k v) = map fst d.
Proof.
  induction d as [|[k' v'] d IH]; simpl; [tauto|].
  intros H. destruct (String.eqb k k') eqn:E; [reflexivity|].
  simpl. f_equal. apply IH. destruct H as [H | H]; [|exact H].
  subst. now rewrite String.eqb_refl in E.
Qed.


Lemma dict_update_Forall {K V : Type} (eqb : K -> K -> bool) (P : K * V -> Prop)
  (d : list (K * V)) (k : K) (f : V -> V) :
  Forall P d -> (forall k' v, P (k', v) -> P (k', f v)) ->
  Forall P (dict_update eqb d k f).
Proof.
  intros Hd Hf. induction Hd as [|[k' v'] d Hx Hd IH]; simpl.
  - constructor.
  - destruct (eqb k k'); constructor; auto.
Qed.




End DatasetFacts.

(** ** Facts about the sequence builder *)
Module SequenceFacts.
Import Py PyFacts NN SequenceVocabulary.

(** *** Grouping by point *)

Lemma dict_mem_keys {V : Type} (g : list (Z * V)) (k : Z) :
  dict_mem Z.eqb g k = true <-> In k (map fst g).
Proof.
  unfold dict_mem. induction g as [|[k' v] g IH]; simpl.
  - split; [discriminate | tauto].
  - destruct (Z.eqb_spec k k') as [->|Hne].
    + split; auto.
    + rewrite IH. split; [auto | intros [E | H]; [congruence | exact H]].
Qed.

Lemma dict_set_absent {V : Type} (g : list (Z * V)) (k : Z) (v : V) :
  ~ In k (map fst g) -> dict_set Z.eqb g k v = g ++ [(k, v)].
Proof.
  induction g as [|[k' v'] g IH]; simpl; [reflexivity|].
  intros H. destruct (Z.eqb_spec k k') as [->|Hne]; [tauto|].
  f_equal. apply IH. tauto.
Qed.

Lemma dict_update_keys {V : Type} (g : list (Z * V)) (k : Z) (f : V -> V) :
  map fst (dict_update Z.eqb g k f) = map fst g.
Proof.
  induction g as [|[k' v'] g IH]; simpl; [reflexivity|].
  destruct (k =? k'); simpl; [reflexivity | now rewrite IH].
Qed.

Lemma dict_update_In {V : Type} (g : list (Z * V)) (k : Z) (f : V -> V)
  (q : Z) (l : V) :
  NoDup (map fst g) ->
  In (q, l) (dict_update Z.eqb g k f) ->
  (q <> k /\ In (q, l) g) \/ (q = k /\ exists l0, In (k, l0) g /\ l = f l0).
Proof.
  induction g as [|[k' v'] g IH]; simpl; [tauto|].
  intros Hnd. inversion Hnd as [|? ? Hnotin Hnd']; subst.
  destruct (Z.eqb_spec k k') as [->|Hne]; simpl.
  - intros [E | H].
    + inversion E; subst. right. split; [reflexivity|]. exists v'. auto.
    + left. split; [|auto]. intros ->. apply Hnotin.
      apply in_map_iff. now exists (k', l).
  - intros [E | H].
    + inversion E; subst. left. split; [congruence | auto].
    + destruct (IH Hnd' H) as [[Hq Hin] | [Hq [l0 [Hin Hl]]]].
      * left. auto.
      * right. split; [exact Hq|]. exists l0. auto.
Qed.

Lemma records_of_app (p : Z) (a b : list DecodedRecord) :
  records_of p (a ++ b) = records_of p a ++ records_of p b.
Proof. apply filter_app. Qed.

Lemma records_of_absent (p : Z) (done : list DecodedRecord) :
  (forall r, In r done -> POINT r <> p) -> records_of p done = [].
Proof.
  intros H. unfold records_of. induction done as [|r done IH]; [reflexivity|].
  simpl. destruct (Z.eqb_spec (POINT r) p) as [E|_].
  - exfalso. apply (H r); [now left | exact E].
  - apply IH. intros r' Hr'. apply H. now right.
Qed.

Lemma points_append_grouped (done : list DecodedRecord)
  (g : list (Z * list DecodedRecord)) (r : DecodedRecord) :
  grouped done g -> grouped (done ++ [r]) (points_append g r).
Proof.
  intros (Hnd & Hlists & Hkeys). unfold points_append.
  destruct (dict_mem Z.eqb g (POINT r)) eqn:Hmem.
  - apply dict_mem_keys in Hmem. split; [|split].
    + now rewrite dict_update_keys.
    + intros q l H.
      apply (dict_update_In _ _ _ _ _ Hnd) in H
        as [[Hq Hin] | [Hq [l0 [Hin Hl]]]].
      * destruct (Hlists _ _ Hin) as [-> Hne]. split; [|exact Hne].
        rewrite records_of_app.
        unfold records_of at 3. simpl.
        destruct (Z.eqb_spec (POINT r) q); [congruence|].
        now rewrite app_nil_r.
      * subst. destruct (Hlists _ _ Hin) as [-> _]. split.
        -- rewrite records_of_app.
           unfold records_of at 3. simpl. now rewrite Z.eqb_refl.
        -- now destruct (records_of (POINT r) done).
    + intros r' Hr'. rewrite dict_update_keys.
      apply in_app_or in Hr' as [Hr' | [<- | []]]; auto.
  - assert (Habs : ~ In (POINT r) (map fst g)).
    { intros H. apply dict_mem_keys in H. congruence. }
    rewrite dict_set_absent by exact Habs. split; [|split].
    + rewrite map_app. simpl.
      apply NoDup_app; [exact Hnd | constructor; [tauto | constructor] |].
      intros k Hk [<- | []]. exact (Habs Hk).
    + intros q l H. apply in_app_or in H as [Hin | [E | []]].
      * destruct (Hlists _ _ Hin) as [-> Hne]. split; [|exact Hne].
        rewrite records_of_app.
        unfold records_of at 3. simpl.
        destruct (Z.eqb_spec (POINT r) q) as [E|_]; [|now rewrite app_nil_r].
        exfalso. apply Habs. rewrite E. apply in_map_iff.
        now exists (q, records_of q done).
      * inversion E; subst. split; [|discriminate].
        rewrite records_of_app.
        rewrite records_of_absent.
        -- unfold records_of. simpl. now rewrite Z.eqb_refl.
        -- intros r' Hr' E'. apply Habs. rewrite <- E'. now apply Hkeys.
    + intros r' Hr'. rewrite map_app. apply in_or_app.
      apply in_app_or in Hr' as [Hr' | [<- | []]]; [left; auto | right; now left].
Qed.

Lemma fold_points_append_grouped (rest done : list DecodedRecord)
  (g : list (Z * list DecodedRecord)) :
  grouped done g -> grouped (done ++ rest) (fold_left points_append rest g).
Proof.
  revert done g. induction rest as [|r rest IH]; intros done g H; simpl.
  - now rewrite app_nil_r.
  - replace (done ++ r :: rest) with ((done ++ [r]) ++ rest)
      by now rewrite <- app_assoc.
    apply IH. now apply points_append_grouped.
Qed.

Lemma group_by_point_grouped (records : list DecodedRecord) :
  grouped records (group_by_point records).
Proof.
  apply (fold_points_append_grouped records [] []).
  split; [constructor | split].
  - intros q l [].
  - intros r [].
Qed.

(** *** Sorting by date *)

Lemma insert_by_date_perm (x : DecodedRecord) (l : list DecodedRecord) :
  Permutation (insert_by_date x l) (x :: l).
Proof.
  induction l as [|y l IH]; simpl; [reflexivity|].
  destruct (String.leb (DATE x) (DATE y)); [reflexivity|].
  rewrite IH. apply perm_swap.
Qed.

Lemma sort_by_date_perm (l : list DecodedRecord) :
  Permutation (sort_by_date l) l.
Proof.
  induction l as [|x l IH]; simpl; [reflexivity|].
  rewrite insert_by_date_perm. now constructor.
Qed.

Lemma insert_by_date_hd (y x : DecodedRecord) (l : list DecodedRecord) :
  date_le y x -> HdRel date_le y l -> HdRel date_le y (insert_by_date x l).
Proof.
  intros Hyx Hyl. destruct l as [|z l]; simpl; [now constructor|].
  destruct (String.leb (DATE x) (DATE z)); constructor;
    [exact Hyx | now inversion Hyl].
Qed.

Lemma insert_by_date_sorted (x : DecodedRecord) (l : list DecodedRecord) :
  Sorted date_le l -> Sorted date_le (insert_by_date x l).
Proof.
  induction 1 as [|y l Hs IH Hhd]; simpl; [repeat constructor|].
  destruct (String.leb (DATE x) (DATE y)) eqn:E.
  - constructor; [now constructor | now constructor].
  - constructor; [exact IH|].
    apply insert_by_date_hd; [|exact Hhd].
    unfold date_le. destruct (String.leb_total (DATE x) (DATE y)); congruence.
Qed.

Lemma sort_by_date_sorted (l : list DecodedRecord) :
  Sorted date_le (sort_by_date l).
Proof.
  induction l as [|x l IH]; simpl; [constructor|].
  now apply insert_by_date_sorted.
Qed.

(** *** The label set of a point *)

Lemma nodup_constant (label : Z) (l : list Z) :
  l <> [] -> Forall (fun x => x = label) l -> nodup Z.eq_dec l = [label].
Proof.
  induction l as [|x l IH]; [congruence|].
  intros _ H. inversion H as [|? ? Hx Hl]; subst. simpl.
  destruct l as [|y l]; [reflexivity|].
  destruct (in_dec Z.eq_dec label (y :: l)) as [_|Hn].
  - apply IH; [discriminate | exact Hl].
  - exfalso. apply Hn. inversion Hl; subst. now left.
Qed.

Lemma label_set_same (label : Z) (recs : list DecodedRecord) :
  recs <> [] -> Forall (fun r => LABEL r = label) recs ->
  label_set recs = [label].
Proof.
  intros Hne H. unfold label_set. apply nodup_constant.
  - now destruct recs.
  - now apply Forall_map.
Qed.

Lemma two_distinct_length (l : list Z) (a b : Z) :
  NoDup l -> In a l -> In b l -> a <> b -> (2 <= List.length l)%nat.
Proof.
  intros Hnd Ha Hb Hab.
  destruct l as [|x [|y l]]; simpl in *; [tauto| |lia].
  destruct Ha as [<-|[]], Hb as [<-|[]]. congruence.
Qed.

Lemma label_set_mixed (recs : list DecodedRecord) (r1 r2 : DecodedRecord) :
  In r1 recs -> In r2 recs -> LABEL r1 <> LABEL r2 ->
  (2 <= List.length (label_set recs))%nat.
Proof.
  intros H1 H2 Hne. unfold label_set.
  apply (two_distinct_length _ (LABEL r1) (LABEL r2)).
  - apply NoDup_nodup.
  - apply nodup_In. now apply in_map.
  - apply nodup_In. now apply in_map.
  - exact Hne.
Qed.

(** *** What one point contributes *)

Lemma slice_window {A : Type} (l : list A) (i L : nat) :
  (i + L <= List.length l)%nat ->
  slice l (Z.of_nat i) (Z.of_nat i + Z.of_nat L) = firstn L (skipn i l).
Proof.
  intros H. unfold slice, slice_bound, len.
  replace (Z.of_nat i <? 0) with false by (symmetry; apply Z.ltb_ge; lia).
  replace (Z.of_nat i + Z.of_nat L <? 0) with false
    by (symmetry; apply Z.ltb_ge; lia).
  rewrite !Z.min_l by lia.
  f_equal; [lia | f_equal; lia].
Qed.

Lemma slice_incl {A : Type} (l : list A) (lo hi : Z) : incl (slice l lo hi) l.
Proof.
  unfold slice. intros x Hx.
  set (a := Z.to_nat (slice_bound (len l) lo)) in *.
  set (k := Z.to_nat (slice_bound (len l) hi - slice_bound (len l) lo)) in *.
  rewrite <- (firstn_skipn a l). apply in_or_app. right.
  rewrite <- (firstn_skipn k (skipn a l)). apply in_or_app. now left.
Qed.

(** The windows of a point whose records share one label. *)
Lemma point_sequences_same_label (L : nat) (label : Z)
  (recs : list DecodedRecord) :
  recs <> [] ->
  Forall (fun r => LABEL r = label) recs ->
  let count := (List.length recs + 1 - L)%nat in
  point_sequences (Z.of_nat L) recs
  = Ok (map (fun i => window L i (sort_by_date recs)) (seq 0 count),
        repeat label count).
Proof.
  intros Hne Hlab count. unfold point_sequences.
  pose proof (sort_by_date_perm recs) as Hperm.
  assert (Hne' : sort_by_date recs <> []).
  { intros E. rewrite E in Hperm. apply Permutation_nil in Hperm. congruence. }
  assert (Hlab' : Forall (fun r => LABEL r = label) (sort_by_date recs)).
  { apply Forall_forall. intros r Hr.
    apply (proj1 (Forall_forall _ _) Hlab). eapply Permutation_in; eauto. }
  rewrite (label_set_same label _ Hne' Hlab').
  change (negb (len [label] =? 1)) with false. cbv iota.
  assert (Hlen : List.length (sort_by_date recs) = List.length recs)
    by now apply Permutation_length.
  destruct (sort_by_date recs) as [|r0 sorted] eqn:Es; [congruence|].
  change (getitem (r0 :: sorted) 0) with (Ok r0). cbn [rbind].
  inversion Hlab' as [|? ? Hr0 _]. rewrite Hr0.
  unfold len, range, replicate. rewrite Hlen.
  replace (Z.to_nat (Z.of_nat (List.length recs) - Z.of_nat L + 1))
    with count by (unfold count; lia).
  f_equal. f_equal. rewrite map_map. apply map_ext_in.
  intros i Hi. apply in_seq in Hi. unfold window.
  apply slice_window. rewrite Hlen. unfold count in Hi. lia.
Qed.

(** A point whose records disagree on the label contributes nothing. *)
Lemma point_sequences_mixed (L : Z) (recs : list DecodedRecord)
  (r1 r2 : DecodedRecord) :
  In r1 recs -> In r2 recs -> LABEL r1 <> LABEL r2 ->
  point_sequences L recs = Ok ([], []).
Proof.
  intros H1 H2 Hne. unfold point_sequences.
  pose proof (sort_by_date_perm recs) as Hperm.
  assert (Hlen : (2 <= List.length (label_set (sort_by_date recs)))%nat).
  { apply (label_set_mixed _ r1 r2); [| |exact Hne];
      eapply Permutation_in; try eassumption; now apply Permutation_sym. }
  unfold len.
  replace (Z.of_nat (List.length (label_set (sort_by_date recs))) =? 1)
    with false by (symmetry; apply Z.eqb_neq; lia).
  reflexivity.
Qed.

(** [point_sequences] never raises; its sequences hold records of the point
    only, and it returns as many labels as sequences. *)
Lemma point_sequences_total (L : Z) (recs : list DecodedRecord) :
  exists ss ls,
    point_sequences L recs = Ok (ss, ls)
    /\ (forall s r, In s ss -> In r s -> In r recs)
    /\ List.length ss = List.length ls.
Proof.
  unfold point_sequences.
  pose proof (sort_by_date_perm recs) as Hperm.
  destruct (len (label_set (sort_by_date recs)) =? 1) eqn:E; cbn [negb].
  - destruct (sort_by_date recs) as [|r0 sorted] eqn:Es; [discriminate E|].
    change (getitem (r0 :: sorted) 0) with (Ok r0). cbn [rbind].
    eexists. eexists. split; [reflexivity|]. split.
    + intros s r Hs Hr. apply in_map_iff in Hs as [i [<- _]].
      apply slice_incl in Hr. eapply Permutation_in; eauto.
    + unfold range, replicate.
      now rewrite !length_map, length_seq, repeat_length.
  - exists [], []. split; [reflexivity|]. split; [intros s r []|reflexivity].
Qed.

(** *** The whole builder *)

Lemma contribution_eq (L : Z) (recs : list DecodedRecord) :
  point_sequences L recs = Ok (contribution L recs).
Proof.
  unfold contribution.
  destruct (point_sequences_total L recs) as (ss & ls & -> & _). reflexivity.
Qed.

Lemma foldM_contributions (L : Z) (groups : list (list DecodedRecord))
  (acc : list Sequence * list Z) :
  foldM
    (fun acc point_recs =>
       rbind (point_sequences L point_recs)
         (fun sl => Ok (fst acc ++ fst sl, snd acc ++ snd sl)))
    groups acc
  = Ok (fst acc ++ flat_map (fun l => fst (contribution L l)) groups,
        snd acc ++ flat_map (fun l => snd (contribution L l)) groups).
Proof.
  revert acc. induction groups as [|l groups IH]; intros acc; cbn [foldM flat_map].
  - rewrite !app_nil_r. now destruct acc.
  - rewrite contribution_eq. cbn [rbind]. rewrite IH. cbn [fst snd].
    now rewrite !app_assoc.
Qed.

(** The builder never raises: its output is the concatenation, over the
    points in order of first appearance, of what each point contributes. *)
Lemma create_sequences_concat (L : Z) (records : list DecodedRecord) :
  create_sequences L records
  = Ok (flat_map (fun l => fst (contribution L l))
          (map snd (group_by_point records)),
        flat_map (fun l => snd (contribution L l))
          (map snd (group_by_point records)),
        Created
          (len (flat_map (fun l => fst (contribution L l))
                  (map snd (group_by_point records))))
          (len (group_by_point records))).
Proof.
  unfold create_sequences. rewrite foldM_contributions. reflexivity.
Qed.

(** The groups of points other than [p] contribute no record of [p]. *)
Lemma other_groups_free (L : Z) (p : Z) (records : list DecodedRecord)
  (g : list (Z * list DecodedRecord)) :
  (forall q l, In (q, l) g -> l = records_of q records /\ q <> p) ->
  free_of p (flat_map (fun l => fst (contribution L l)) (map snd g)).
Proof.
  intros Hg s r Hs Hr.
  apply in_flat_map in Hs as [l [Hl Hs]].
  apply in_map_iff in Hl as [[q l'] [E Hin]]. simpl in E. subst l'.
  destruct (Hg _ _ Hin) as [-> Hq].
  destruct (point_sequences_total L (records_of q records))
    as (ss & ls & Hps & Hsub & _).
  unfold contribution in Hs. rewrite Hps in Hs. simpl in Hs.
  specialize (Hsub s r Hs Hr). apply filter_In in Hsub as [_ Hp].
  apply Z.eqb_eq in Hp. congruence.
Qed.

(** The entry of a point that has records, with the entries around it. *)
Lemma group_by_point_split (p : Z) (records : list DecodedRecord) :
  records_of p records <> [] ->
  exists g1 g2,
    group_by_point records = g1 ++ (p, records_of p records) :: g2
    /\ (forall q l, In (q, l) (g1 ++ g2) -> l = records_of q records /\ q <> p).
Proof.
  intros Hne.
  destruct (group_by_point_grouped records) as (Hnd & Hlists & Hkeys).
  assert (Hp : In p (map fst (group_by_point records))).
  { destruct (records_of p records) as [|r rs] eqn:E; [congruence|].
    assert (Hr : In r (records_of p records)) by (rewrite E; now left).
    apply filter_In in Hr as [Hr Hpr]. apply Z.eqb_eq in Hpr. subst p.
    now apply Hkeys. }
  apply in_map_iff in Hp as [[q l] [E Hin]]. simpl in E. subst q.
  destruct (Hlists _ _ Hin) as [El _]. subst l.
  apply in_split in Hin as (g1 & g2 & Hg).
  exists g1, g2. split; [exact Hg|].
  intros q l Hql. split.
  - apply Hlists. rewrite Hg. apply in_app_or in Hql as [H | H];
      apply in_or_app; [now left | right; now right].
  - intros ->. rewrite Hg, map_app in Hnd. simpl in Hnd.
    apply NoDup_remove_2 in Hnd. apply Hnd.
    rewrite <- map_app. apply in_map_iff. now exists (p, l).
Qed.

Lemma free_of_app (p : Z) (a b : list Sequence) :
  free_of p (a ++ b) -> free_of p a /\ free_of p b.
Proof.
  intros H. split; intros s r Hs Hr; apply (H s r); auto using in_or_app.
Qed.

(** C4. For a point [p] whose [m] records share one label, the builder's
    output is [pre ++ block ++ post] where [pre] and [post] hold no record of
    [p] and [block], the sequences of [p], consists of the
    [max(0, m - L + 1)] windows of width [L] at positions 0, 1, 2, ... of
    the point's records sorted ascending by date, each of length [L]; the
    labels returned alongside [block] all are the point's label. *)
Theorem create_sequences_windows (records : list DecodedRecord) (p label : Z)
  (L : nat) :
  let recs := records_of p records in
  let sorted := sort_by_date recs in
  let count := Z.to_nat (Z.max 0 (len recs - Z.of_nat L + 1)) in
  recs <> [] ->
  Forall (fun r => LABEL r = label) recs ->
  exists pre block post lpre lpost line,
    create_sequences (Z.of_nat L) records
    = Ok (pre ++ block ++ post, lpre ++ repeat label count ++ lpost, line)
    /\ free_of p pre /\ free_of p post
    /\ List.length lpre = List.length pre
    /\ Permutation sorted recs /\ Sorted date_le sorted
    /\ block = map (fun i => window L i sorted) (seq 0 count)
    /\ List.length block = count
    /\ Forall (fun s => List.length s = L) block.
Proof.
  intros recs sorted count Hne Hlab.
  destruct (group_by_point_split p records Hne) as (g1 & g2 & Hg & Hothers).
  assert (Hcount : count = (List.length recs + 1 - L)%nat)
    by (unfold count, len; lia).
  pose proof (point_sequences_same_label L label recs Hne Hlab) as Hps.
  cbv zeta in Hps. rewrite <- Hcount in Hps. fold sorted in Hps.
  assert (Hc : contribution (Z.of_nat L) recs
               = (map (fun i => window L i sorted) (seq 0 count),
                  repeat label count)).
  { unfold contribution. now rewrite Hps. }
  pose proof (other_groups_free (Z.of_nat L) p records (g1 ++ g2) Hothers)
    as Hfree.
  rewrite map_app, flat_map_app in Hfree. apply free_of_app in Hfree as [Hf1 Hf2].
  exists (flat_map (fun l => fst (contribution (Z.of_nat L) l)) (map snd g1)),
    (map (fun i => window L i sorted) (seq 0 count)),
    (flat_map (fun l => fst (contribution (Z.of_nat L) l)) (map snd g2)),
    (flat_map (fun l => snd (contribution (Z.of_nat L) l)) (map snd g1)),
    (flat_map (fun l => snd (contribution (Z.of_nat L) l)) (map snd g2)).
  eexists.
  split; [|split; [exact Hf1|split; [exact Hf2|split; [|split; [|split; [|split; [|split]]]]]]].
  - rewrite create_sequences_concat, Hg, map_app. cbn [map snd].
    rewrite !flat_map_app. cbn [flat_map]. fold recs. rewrite Hc.
    cbn [fst snd]. reflexivity.
  - clear. induction (map snd g1) as [|l ls IH]; [reflexivity|].
    cbn [flat_map]. rewrite !length_app, IH. f_equal.
    destruct (point_sequences_total (Z.of_nat L) l) as (ss & lb & E & _ & Hl).
    unfold contribution. rewrite E. simpl. now rewrite Hl.
  - apply sort_by_date_perm.
  - apply sort_by_date_sorted.
  - reflexivity.
  - now rewrite length_map, length_seq.
  - apply Forall_forall. intros s Hs.
    apply in_map_iff in Hs as [i [<- Hi]]. apply in_seq in Hi.
    unfold window. rewrite length_firstn, length_skipn.
    assert (List.length sorted = List.length recs)
      by (apply Permutation_length, sort_by_date_perm).
    lia.
Qed.

(** C5. A point [p] two of whose records disagree on the label is dropped
    whole: its group contributes no sequence and no label, and none of its
    records occurs in any sequence of the output. *)
Theorem create_sequences_drops_mixed_point (records : list DecodedRecord)
  (p : Z) (L : Z) (r1 r2 : DecodedRecord) :
  In r1 (records_of p records) ->
  In r2 (records_of p records) ->
  LABEL r1 <> LABEL r2 ->
  point_sequences L (records_of p records) = Ok ([], [])
  /\ exists sequences labels line,
       create_sequences L records = Ok (sequences, labels, line)
       /\ free_of p sequences.
Proof.
  intros H1 H2 Hne.
  pose proof (point_sequences_mixed L _ r1 r2 H1 H2 Hne) as Hps.
  split; [exact Hps|].
  assert (Hrec : records_of p records <> []) by (intros E; now rewrite E in H1).
  destruct (group_by_point_split p records Hrec) as (g1 & g2 & Hg & Hothers).
  pose proof (other_groups_free L p records (g1 ++ g2) Hothers) as Hfree.
  do 3 eexists. split; [apply create_sequences_concat|].
  rewrite Hg, map_app. cbn [map snd]. rewrite flat_map_app. cbn [flat_map].
  unfold contribution at 2. rewrite Hps. cbn [fst app].
  now rewrite map_app, flat_map_app in Hfree.
Qed.

Lemma create_sequences_windows_witness :
  let recs := records_of 1 SequenceExamples.two_points in
  let sorted := sort_by_date recs in
  let count := Z.to_nat (Z.max 0 (len recs - Z.of_nat 2 + 1)) in
  exists pre block post lpre lpost line,
    create_sequences (Z.of_nat 2) SequenceExamples.two_points
    = Ok (pre ++ block ++ post, lpre ++ repeat 2 count ++ lpost, line)
    /\ free_of 1 pre /\ free_of 1 post
    /\ List.length lpre = List.length pre
    /\ Permutation sorted recs /\ Sorted date_le sorted
    /\ block = map (fun i => window 2 i sorted) (seq 0 count)
    /\ List.length block = count
    /\ Forall (fun s => List.length s = 2%nat) block.
Proof.
  apply (create_sequences_windows SequenceExamples.two_points 1 2 2).
  - vm_compute. discriminate.
  - vm_compute. repeat constructor.
Defined.

(** The scenario of the specification, run: point 1 yields the three windows
    of width two in date order, all labelled CORN, and point 2 yields none. *)
Example create_sequences_two_points :
  create_sequences 2 SequenceExamples.two_points
  = Ok ([[SequenceExamples.rec "D1" 1 2; SequenceExamples.rec "D2" 1 2];
         [SequenceExamples.rec "D2" 1 2; SequenceExamples.rec "D3" 1 2];
         [SequenceExamples.rec "D3" 1 2; SequenceExamples.rec "D4" 1 2]],
        [2; 2; 2], Created 3 2).
Proof. vm_compute. reflexivity. Qed.

Lemma create_sequences_drops_mixed_point_witness :
  point_sequences 2 (records_of 2 SequenceExamples.two_points) = Ok ([], [])
  /\ exists sequences labels line,
       create_sequences 2 SequenceExamples.two_points
       = Ok (sequences, labels, line)
       /\ free_of 2 sequences.
Proof.
  apply (create_sequences_drops_mixed_point SequenceExamples.two_points 2 2
           (SequenceExamples.rec "D1" 2 2) (SequenceExamples.rec "D2" 2 0)).
  - vm_compute. left. reflexivity.
  - vm_compute. right. left. reflexivity.
  - vm_compute. discriminate.
Defined.

End SequenceFacts.

(** ** Facts about the splitter *)
Module SplitFacts.
Import Py PyFacts NN SplitVocabulary SplitChecks.

(** *** The over-sampler *)

Lemma insert_unique_In (c x : Z) (l : list Z) :
  In c (insert_unique x l) <-> c = x \/ In c l.
Proof.
  induction l as [|y l IH]; simpl; [intuition|].
  destruct (Z.ltb_spec x y); [simpl; intuition|].
  destruct (Z.eqb_spec x y); simpl; [subst; intuition|].
  rewrite IH. intuition.
Qed.

Lemma np_unique_In (c : Z) (y : list Z) : In c (np_unique y) <-> In c y.
Proof.
  unfold np_unique. induction y as [|x y IH]; simpl; [tauto|].
  rewrite insert_unique_In, IH. intuition.
Qed.

Lemma combine_seq_from {A : Type} (l : list A) (s j : nat) (x : A) :
  In (j, x) (combine (seq s (List.length l)) l)
  <-> (s <= j)%nat /\ nth_error l (j - s) = Some x.
Proof.
  revert s. induction l as [|a l IH]; intros s; cbn [List.length seq combine].
  - split; [intros [] | intros [_ H]]. now destruct (j - s)%nat.
  - cbn [In]. rewrite IH. split.
    + intros [E | [Hle Hn]].
      * inversion E; subst. split; [lia|]. now rewrite Nat.sub_diag.
      * split; [lia|].
        replace (j - s)%nat with (S (j - S s)) by lia. exact Hn.
    + intros [Hle Hn]. destruct (j - s)%nat as [|k] eqn:Ek.
      * left. simpl in Hn. inversion Hn; subst. f_equal. lia.
      * right. split; [lia|]. simpl in Hn.
        now replace (j - S s)%nat with k by lia.
Qed.

Lemma flatnonzero_In (y : list Z) (c : Z) (j : nat) :
  In j (flatnonzero y c) <-> nth_error y j = Some c.
Proof.
  unfold flatnonzero. rewrite in_map_iff. split.
  - intros [[j' v] [E H]]. simpl in E. subst j'.
    apply filter_In in H as [H Hv]. simpl in Hv. apply Z.eqb_eq in Hv. subst v.
    apply combine_seq_from in H as [_ H]. now rewrite Nat.sub_0_r in H.
  - intros H. exists (j, c). split; [reflexivity|].
    apply filter_In. split; [|simpl; apply Z.eqb_refl].
    apply combine_seq_from. rewrite Nat.sub_0_r. split; [lia | exact H].
Qed.

Lemma choice_In (g : GlobalRng) (offset : nat) (a : list nat) (k j : nat) :
  a <> [] -> In j (choice g offset a k) -> In j a.
Proof.
  intros Ha H. unfold choice in H. apply in_map_iff in H as [t [<- _]].
  apply nth_In. apply Nat.mod_upper_bound. now destruct a.
Qed.

Lemma strategy_classes (y : list Z) (c : Z) (n : nat) :
  In (c, n) (sampling_strategy_not_minority y) -> In c y.
Proof.
  unfold sampling_strategy_not_minority.
  destruct (class_minority (target_stats y)) as [minority|]; [|intros []].
  intros H. apply in_map_iff in H as [[c' n'] [E H]]. simpl in E.
  inversion E; subst. apply filter_In in H as [H _].
  unfold target_stats in H. apply in_map_iff in H as [c'' [E' H]].
  inversion E'; subst. now apply np_unique_In.
Qed.

(** Every bootstrapped position is a position of [y] that holds a class of
    the strategy. *)
Lemma bootstrap_In (g : GlobalRng) (y : list Z) (strategy : list (Z * nat))
  (offset j : nat) :
  (forall c n, In (c, n) strategy -> In c y) ->
  In j (bootstrap g offset y strategy) ->
  exists c, In c (map fst strategy) /\ nth_error y j = Some c.
Proof.
  revert offset. induction strategy as [|[c n] strategy IH]; intros offset Hs H.
  - destruct H.
  - cbn [bootstrap] in H. apply in_app_or in H as [H | H].
    + exists c. split; [now left|]. apply flatnonzero_In.
      apply (choice_In g offset _ n); [|exact H].
      destruct (In_nth_error y c (Hs c n (or_introl eq_refl))) as [i Hi].
      apply flatnonzero_In in Hi. intros E. now rewrite E in Hi.
    + destruct (IH (offset + n)%nat) as [c' [Hc' Hj]]; [|exact H|].
      * intros c' n' Hin. apply (Hs c' n'). now right.
      * exists c'. split; [now right | exact Hj].
Qed.

(** The resampled rows are the given rows followed by rows drawn among the
    given ones, each drawn row going with its own label. *)
Lemma fit_resample_spec (g : GlobalRng) (X y X' y' : list Z) :
  fit_resample g X y = Ok (X', y') ->
  List.length X = List.length y
  /\ exists extra,
       X' = X ++ map (fun j => nth j X 0) extra
       /\ y' = y ++ map (fun j => nth j y 0) extra
       /\ Forall (fun j => (j < List.length y)%nat) extra.
Proof.
  unfold fit_resample.
  destruct (List.length X =? 0)%nat; [discriminate|].
  destruct (List.length X =? List.length y)%nat eqn:El; [|discriminate].
  cbn [negb]. apply Nat.eqb_eq in El.
  destruct (List.length (np_unique y) <=? 1)%nat; [discriminate|].
  intros H. inversion H; subst. split; [exact El|].
  eexists. split; [reflexivity | split; [reflexivity|]].
  apply Forall_forall. intros j Hj.
  apply bootstrap_In in Hj as [c [_ Hj]]; [|apply strategy_classes].
  apply nth_error_Some. congruence.
Qed.

Lemma fit_resample_rows (g : GlobalRng) (X y X' y' : list Z) :
  fit_resample g X y = Ok (X', y') ->
  forall x, In x X' <-> In x X.
Proof.
  intros H. apply fit_resample_spec in H as [Hlen [extra [-> [_ Hextra]]]].
  intros x. rewrite in_app_iff. split; [|now left].
  intros [Hx | Hx]; [exact Hx|].
  apply in_map_iff in Hx as [j [<- Hj]].
  apply nth_In. rewrite Hlen. exact (proj1 (Forall_forall _ _) Hextra j Hj).
Qed.

(** *** The seeded splits *)

Lemma getitem_indices {A : Type} (arr : list A) (idx : list nat) (ys : list A) :
  Forall2 (fun i y => getitem arr (Z.of_nat i) = Ok y) idx ys ->
  map Some ys = map (nth_error arr) idx.
Proof.
  induction 1 as [|i y idx ys Hi _ IH]; [reflexivity|].
  simpl. rewrite IH. f_equal.
  rewrite getitem_nat in Hi. destruct (nth_error arr i); congruence.
Qed.

Lemma getitem_indices_total {A : Type} (arr : list A) (idx : list nat) :
  Forall (fun i => (i < List.length arr)%nat) idx ->
  exists ys, mapM (fun i => getitem arr (Z.of_nat i)) idx = Ok ys.
Proof.
  induction 1 as [|i idx Hi _ [ys IH]]; [now exists []|].
  cbn [mapM]. rewrite getitem_nat, IH.
  destruct (nth_error arr i) as [x|] eqn:E.
  - now exists (x :: ys).
  - apply nth_error_None in E. lia.
Qed.

Lemma map_Some_inj {A : Type} (l l' : list A) : map Some l = map Some l' -> l = l'.
Proof.
  revert l'. induction l as [|x l IH]; intros [|y l'] H; try discriminate.
  - reflexivity.
  - inversion H. f_equal. now apply IH.
Qed.

(** *** From points to sequences *)

Lemma indices_in_spec (points part : list Z) (i : Z) :
  In i (indices_in points part)
  <-> 0 <= i /\ exists p, nth_error points (Z.to_nat i) = Some p /\ In p part.
Proof.
  unfold indices_in. rewrite in_map_iff. split.
  - intros [[i' p] [E H]]. simpl in E. subst i'.
    apply filter_In in H as [H Hp]. apply In_enumerate in H as [Hi Hn].
    split; [exact Hi|]. exists p. split; [exact Hn|].
    simpl in Hp. apply existsb_exists in Hp as [q [Hq E]].
    apply Z.eqb_eq in E. now subst q.
  - intros [Hi [p [Hn Hp]]]. exists (i, p). split; [reflexivity|].
    apply filter_In. split; [now apply In_enumerate|].
    simpl. apply existsb_exists. exists p. split; [exact Hp | apply Z.eqb_refl].
Qed.

Lemma point_ids_spec (sequences : list Sequence) (points : list Z) :
  point_ids sequences = Ok points ->
  Forall2 (fun seq p => point_of seq = Some p) sequences points.
Proof.
  unfold point_ids. intros H. apply mapM_Forall2 in H.
  eapply Forall2_impl; [|exact H]. intros seq p.
  destruct seq as [|r seq]; [discriminate|].
  change (getitem (r :: seq) 0) with (Ok r). cbn [rbind point_of]. congruence.
Qed.

(** The sequences fetched for the indices of a part are exactly the input
    sequences whose point lies in the part. *)
Lemma part_members (sequences : list Sequence) (points part : list Z)
  (idx : list Z) (X : list Sequence) :
  Forall2 (fun seq p => point_of seq = Some p) sequences points ->
  (forall i, In i idx <-> In i (indices_in points part)) ->
  mapM (getitem sequences) idx = Ok X ->
  (forall seq, In seq X -> exists p, point_of seq = Some p /\ In p part)
  /\ (forall seq p, In seq sequences -> point_of seq = Some p -> In p part ->
      In seq X).
Proof.
  intros Hpts Hidx HX. apply mapM_Forall2 in HX. split.
  - intros seq Hseq.
    destruct (Forall2_In_r _ _ _ _ HX Hseq) as [i [Hi Hget]].
    apply Hidx, indices_in_spec in Hi as [Hi0 [p [Hn Hp]]].
    apply getitem_nonneg in Hget; [|exact Hi0].
    destruct (Forall2_nth_error_l _ _ _ _ _ Hpts Hget) as [p' [Hn' Hp']].
    exists p. split; [congruence | exact Hp].
  - intros seq p Hseq Hpoint Hp.
    apply In_nth_error in Hseq as [k Hk].
    destruct (Forall2_nth_error_l _ _ _ _ _ Hpts Hk) as [p' [Hn' Hp']].
    assert (p' = p) by congruence. subst p'.
    assert (Hi : In (Z.of_nat k) idx).
    { apply Hidx, indices_in_spec. split; [lia|]. exists p.
      now rewrite Nat2Z.id. }
    destruct (Forall2_In_l _ _ _ _ HX Hi) as [y [Hy Hget]].
    apply getitem_nonneg in Hget; [|lia]. rewrite Nat2Z.id in Hget.
    congruence.
Qed.

(** What a successful [assemble] went through. *)
Lemma assemble_inv (g : GlobalRng) (sequences : list Sequence) (labels : list Z)
  (points train_points val_points test_points : list Z) (r : SplitResult) :
  assemble g sequences labels points train_points val_points test_points = Ok r ->
  exists y resampled,
    mapM (getitem labels) (indices_in points train_points) = Ok y
    /\ fit_resample g (indices_in points train_points) y = Ok resampled
    /\ mapM (getitem sequences) (fst resampled) = Ok (X_train r)
    /\ mapM (getitem labels) (fst resampled) = Ok (y_train r)
    /\ mapM (getitem sequences) (indices_in points val_points) = Ok (X_val r)
    /\ mapM (getitem labels) (indices_in points val_points) = Ok (y_val r)
    /\ mapM (getitem sequences) (indices_in points test_points) = Ok (X_test r)
    /\ mapM (getitem labels) (indices_in points test_points) = Ok (y_test r).
Proof.
  unfold assemble.
  destruct (mapM (getitem labels) (indices_in points train_points))
    as [y|] eqn:E1; [|discriminate]. cbn [rbind].
  destruct (fit_resample g (indices_in points train_points) y)
    as [resampled|] eqn:E2; [|discriminate]. cbn [rbind].
  destruct (mapM (getitem sequences) (fst resampled)) as [Xtr|] eqn:E3;
    [|discriminate]. cbn [rbind].
  destruct (mapM (getitem labels) (fst resampled)) as [ytr|] eqn:E4;
    [|discriminate]. cbn [rbind].
  destruct (mapM (getitem sequences) (indices_in points val_points))
    as [Xva|] eqn:E5; [|discriminate]. cbn [rbind].
  destruct (mapM (getitem labels) (indices_in points val_points))
    as [yva|] eqn:E6; [|discriminate]. cbn [rbind].
  destruct (mapM (getitem sequences) (indices_in points test_points))
    as [Xte|] eqn:E7; [|discriminate]. cbn [rbind].
  destruct (mapM (getitem labels) (indices_in points test_points))
    as [yte|] eqn:E8; [|discriminate]. cbn [rbind].
  intros H. inversion H; subst. cbn. exists y, resampled. auto 10.
Qed.


(** *** One environment that meets the hypotheses *)

Lemma insert_unique_sorted (x : Z) (l : list Z) :
  StronglySorted Z.lt l -> StronglySorted Z.lt (insert_unique x l).
Proof.
  induction 1 as [|y l Hs IH Hy]; simpl; [repeat constructor|].
  destruct (Z.ltb_spec x y).
  - constructor; [now constructor|]. constructor; [assumption|].
    eapply Forall_impl; [|exact Hy]. intros z Hz. simpl in Hz. lia.
  - destruct (Z.eqb_spec x y); [now constructor|].
    constructor; [exact IH|]. apply Forall_forall. intros z Hz.
    apply insert_unique_In in Hz as [-> | Hz]; [lia|].
    exact (proj1 (Forall_forall _ _) Hy z Hz).
Qed.

Lemma np_unique_sorted (l : list Z) : StronglySorted Z.lt (np_unique l).
Proof.
  unfold np_unique. induction l as [|x l IH]; simpl; [constructor|].
  now apply insert_unique_sorted.
Qed.

Lemma ascending_set_NoDup (l : list Z) : NoDup (ascending_set l).
Proof.
  unfold ascending_set. induction (np_unique_sorted l) as [|y l' Hs IH Hy].
  - constructor.
  - constructor; [|exact IH]. intros Hin.
    pose proof (proj1 (Forall_forall _ _) Hy y Hin). lia.
Qed.

Lemma ascending_set_In (l : list Z) (x : Z) : In x (ascending_set l) <-> In x l.
Proof. apply np_unique_In. Qed.

Lemma reversing_permutation_Permutation (seed : Z) (n : nat) :
  Permutation (reversing_permutation seed n) (seq 0 n).
Proof. apply Permutation_sym, Permutation_rev. Qed.

(** *** Running the splitter on the graded points *)

Lemma mapM_total {A B : Type} (f : A -> result B) (l : list A) :
  (forall x, In x l -> exists y, f x = Ok y) -> exists ys, mapM f l = Ok ys.
Proof.
  induction l as [|x l IH]; intros H; [now exists []|].
  destruct (H x (or_introl eq_refl)) as [y Hy].
  destruct IH as [ys Hys]; [intros z Hz; apply H; now right|].
  exists (y :: ys). cbn [mapM]. now rewrite Hy, Hys.
Qed.

Lemma getitem_indices_in_total {A : Type} (l : list A) (points part : list Z) :
  List.length l = List.length points ->
  exists ys, mapM (getitem l) (indices_in points part) = Ok ys.
Proof.
  intros Hlen. apply mapM_total. intros i Hi.
  apply indices_in_spec in Hi as [Hi [p [Hn _]]].
  assert (Hlt : (Z.to_nat i < List.length l)%nat).
  { rewrite Hlen. apply nth_error_Some. congruence. }
  apply nth_error_Some in Hlt.
  destruct (nth_error l (Z.to_nat i)) as [x|] eqn:E; [|congruence].
  exists x. now apply getitem_nonneg.
Qed.

(** Once the training part is built, [assemble] goes through. *)
Lemma assemble_run (g : GlobalRng) (sequences : list Sequence)
  (labels points tr va te : list Z) (Xtr : list Sequence) (ytr : list Z) :
  train_part g sequences labels points tr = Ok (Xtr, ytr) ->
  List.length sequences = List.length points ->
  List.length labels = List.length points ->
  exists r,
    assemble g sequences labels points tr va te = Ok r
    /\ X_train r = Xtr /\ y_train r = ytr
    /\ mapM (getitem sequences) (indices_in points va) = Ok (X_val r)
    /\ mapM (getitem sequences) (indices_in points te) = Ok (X_test r).
Proof.
  unfold train_part, assemble. intros Htrain Hs Hl.
  destruct (mapM (getitem labels) (indices_in points tr)) as [y|];
    [|discriminate]. cbn [rbind] in *.
  destruct (fit_resample g (indices_in points tr) y) as [res|];
    [|discriminate]. cbn [rbind] in *.
  destruct (mapM (getitem sequences) (fst res)) as [X|]; [|discriminate].
  cbn [rbind] in *.
  destruct (mapM (getitem labels) (fst res)) as [y'|]; [|discriminate].
  cbn [rbind] in *. inversion Htrain; subst X y'. clear Htrain.
  destruct (getitem_indices_in_total sequences points va Hs) as [Xva ->].
  destruct (getitem_indices_in_total labels points va Hl) as [yva ->].
  destruct (getitem_indices_in_total sequences points te Hs) as [Xte ->].
  destruct (getitem_indices_in_total labels points te Hl) as [yte ->].
  cbn [rbind]. eexists. split; [reflexivity|]. cbn. auto.
Qed.

Lemma In_tuples (pool tr : list Z) :
  (forall x, In x tr -> In x pool) -> In tr (tuples (List.length tr) pool).
Proof.
  induction tr as [|x tr IH]; intros H; [now left|].
  cbn [List.length tuples]. apply in_flat_map. exists x.
  split; [apply H; now left|].
  apply in_map. apply IH. intros z Hz. apply H. now right.
Qed.

Lemma distinct_NoDup (l : list Z) : NoDup l -> distinct l = true.
Proof.
  induction 1 as [|x l Hx _ IH]; [reflexivity|].
  cbn [distinct]. rewrite IH, andb_true_r.
  destruct (existsb (Z.eqb x) l) eqn:E; [|reflexivity].
  apply existsb_exists in E as [z [Hz E]]. apply Z.eqb_eq in E. now subst z.
Qed.

Lemma In_arrangements (k n : nat) (tr : list Z) :
  List.length tr = k -> NoDup tr -> (forall x, In x tr -> In x (points_upto n)) ->
  In tr (arrangements k n).
Proof.
  intros <- Hnd Hin. apply filter_In.
  split; [now apply In_tuples | now apply distinct_NoDup].
Qed.

Lemma unbalanced_spec (y : list Z) :
  unbalanced y = true ->
  exists l1 l2, In l1 y /\ In l2 y /\ count l1 y <> count l2 y.
Proof.
  unfold unbalanced. intros H.
  apply existsb_exists in H as [l1 [H1 H]].
  apply existsb_exists in H as [l2 [H2 H]].
  exists l1, l2. repeat split; try assumption.
  apply negb_true_iff, Nat.eqb_neq in H. exact H.
Qed.

Lemma stays_unbalanced_always (g : GlobalRng) :
  forallb (stays_unbalanced g) (arrangements 2 5) = true.
Proof. vm_compute. reflexivity. Qed.

Lemma draws_differ_always : forallb draws_differ (arrangements 3 6) = true.
Proof. vm_compute. reflexivity. Qed.

(** *** What the over-sampler does to the class counts *)

Lemma map_const_repeat {A B : Type} (c : B) (l : list A) :
  map (fun _ => c) l = repeat c (List.length l).
Proof. induction l as [|x l IH]; simpl; [reflexivity | now rewrite IH]. Qed.

(** The rows drawn for a class all carry that class. *)
Lemma choice_labels (g : GlobalRng) (offset : nat) (y : list Z) (c : Z) (k : nat) :
  In c y ->
  map (fun j => nth j y 0) (choice g offset (flatnonzero y c) k) = repeat c k.
Proof.
  intros Hc. unfold choice. rewrite map_map.
  transitivity (map (fun _ : nat => c) (seq 0 k));
    [|now rewrite map_const_repeat, length_seq].
  apply map_ext. intros t.
  assert (Hne : flatnonzero y c <> []).
  { destruct (In_nth_error y c Hc) as [i Hi].
    apply flatnonzero_In in Hi. intros E. now rewrite E in Hi. }
  assert (Hin : In (nth (g (offset + t)%nat mod List.length (flatnonzero y c))
                      (flatnonzero y c) 0%nat) (flatnonzero y c)).
  { apply nth_In, Nat.mod_upper_bound. now destruct (flatnonzero y c). }
  apply flatnonzero_In in Hin. now apply nth_error_nth.
Qed.

Lemma count_repeat (c c' : Z) (k : nat) :
  count c (repeat c' k) = if c =? c' then k else 0%nat.
Proof.
  unfold count. destruct (Z.eqb_spec c c') as [->|Hne].
  - now apply count_occ_repeat_eq.
  - now apply count_occ_repeat_neq.
Qed.

Lemma dict_get_absent {V : Type} (d : list (Z * V)) (c : Z) :
  ~ In c (map fst d) -> dict_get Z.eqb d c = None.
Proof.
  induction d as [|[c' v] d IH]; simpl; [reflexivity|].
  intros H. destruct (Z.eqb_spec c c'); [subst; tauto|]. apply IH. tauto.
Qed.

(** Among the drawn rows, a class occurs as often as the strategy asks. *)
Lemma bootstrap_count (g : GlobalRng) (y : list Z) (strategy : list (Z * nat))
  (offset : nat) (c : Z) :
  (forall c' n', In (c', n') strategy -> In c' y) ->
  NoDup (map fst strategy) ->
  count c (map (fun j => nth j y 0) (bootstrap g offset y strategy))
  = match dict_get Z.eqb strategy c with Some n => n | None => 0%nat end.
Proof.
  revert offset. induction strategy as [|[c' n'] strategy IH];
    intros offset Hs Hnd; [reflexivity|].
  cbn [bootstrap dict_get]. inversion Hnd as [|? ? Hnotin Hnd']; subst.
  unfold count in *. rewrite map_app, count_occ_app.
  rewrite choice_labels by (apply (Hs c' n'); now left).
  fold (count c (repeat c' n')). rewrite count_repeat.
  rewrite IH; [|intros c'' n'' H; apply (Hs c'' n''); now right | exact Hnd'].
  destruct (Z.eqb_spec c c') as [->|Hne]; [|reflexivity].
  rewrite dict_get_absent by exact Hnotin. lia.
Qed.

Lemma np_unique_NoDup (y : list Z) : NoDup (np_unique y).
Proof. apply ascending_set_NoDup. Qed.

Lemma strategy_keys (y : list Z) (minority : Z) (M : nat) (U : list Z) :
  map fst (map (fun kv : Z * nat => (fst kv, (M - snd kv)%nat))
             (filter (fun kv => negb (fst kv =? minority))
                (map (fun c => (c, count c y)) U)))
  = filter (fun c => negb (c =? minority)) U.
Proof.
  induction U as [|c U IH]; [reflexivity|].
  cbn [map filter fst]. destruct (c =? minority); cbn [negb map fst];
    now rewrite IH.
Qed.

Lemma strategy_get (y : list Z) (minority : Z) (M : nat) (U : list Z) (c : Z) :
  dict_get Z.eqb
    (map (fun kv : Z * nat => (fst kv, (M - snd kv)%nat))
       (filter (fun kv => negb (fst kv =? minority))
          (map (fun c => (c, count c y)) U))) c
  = if existsb (Z.eqb c) U && negb (c =? minority)
    then Some (M - count c y)%nat else None.
Proof.
  induction U as [|c' U IH]; [reflexivity|].
  cbn [map filter fst existsb].
  destruct (Z.eqb_spec c' minority) as [E|Hne]; cbn [negb].
  - rewrite IH. destruct (Z.eqb_spec c minority) as [Ec|Hc].
    + cbn [negb]. now rewrite !andb_false_r.
    + destruct (Z.eqb_spec c c') as [Ec'|_]; [congruence | reflexivity].
  - cbn [map dict_get fst snd]. destruct (Z.eqb_spec c c') as [Ec|Hc].
    + subst c'. destruct (Z.eqb_spec c minority); [contradiction|].
      reflexivity.
    + exact IH.
Qed.

Lemma count_le_majority (y U : list Z) (c : Z) :
  In c U ->
  (count c y <= fold_right Nat.max 0 (map snd (map (fun c => (c, count c y)) U)))%nat.
Proof.
  induction U as [|c' U IH]; intros H; [destruct H|].
  cbn [map fold_right snd]. destruct H as [-> | H]; [lia|].
  specialize (IH H). lia.
Qed.

(** After over-sampling, every class but the minority one has the majority
    count, and the minority class has the count it had. *)
Lemma fit_resample_counts (g : GlobalRng) (X y X' y' : list Z) (c : Z) :
  fit_resample g X y = Ok (X', y') ->
  In c y ->
  count c y'
  = if match class_minority (target_stats y) with
       | Some minority => c =? minority
       | None => false
       end
    then count c y
    else n_sample_majority (target_stats y).
Proof.
  intros Hfit Hc. unfold fit_resample in Hfit.
  destruct (List.length X =? 0)%nat; [discriminate|].
  destruct (negb (List.length X =? List.length y)%nat); [discriminate|].
  destruct (List.length (np_unique y) <=? 1)%nat; [discriminate|].
  inversion Hfit; subst. clear Hfit.
  unfold count at 1. rewrite count_occ_app. fold (count c y).
  fold (count c (map (fun j => nth j y 0)
                   (bootstrap g 0 y (sampling_strategy_not_minority y)))).
  rewrite bootstrap_count; [|apply strategy_classes|].
  - unfold sampling_strategy_not_minority. cbv zeta.
    destruct (class_minority (target_stats y)) as [minority|] eqn:Em.
    + assert (Hget :
          dict_get Z.eqb
            (map (fun kv : Z * nat =>
                    (fst kv, (n_sample_majority (target_stats y) - snd kv)%nat))
               (filter (fun kv => negb (fst kv =? minority)) (target_stats y)))
            c
          = if existsb (Z.eqb c) (np_unique y) && negb (c =? minority)
            then Some (n_sample_majority (target_stats y) - count c y)%nat
            else None)
        by exact (strategy_get y minority _ (np_unique y) c).
      rewrite Hget.
      replace (existsb (Z.eqb c) (np_unique y)) with true.
      2:{ symmetry. apply existsb_exists. exists c.
          split; [now apply np_unique_In | apply Z.eqb_refl]. }
      cbn [andb]. destruct (c =? minority); cbn [negb]; [lia|].
      pose proof (count_le_majority y (np_unique y) c
                    (proj2 (np_unique_In c y) Hc)) as Hle.
      unfold n_sample_majority, target_stats. lia.
    + unfold class_minority, target_stats in Em.
      destruct (np_unique y) as [|u U] eqn:Eu; [|discriminate].
      apply np_unique_In in Hc. rewrite Eu in Hc. destruct Hc.
  - unfold sampling_strategy_not_minority. cbv zeta.
    destruct (class_minority (target_stats y)) as [minority|]; [|constructor].
    assert (Hkeys :
        map fst
          (map (fun kv : Z * nat =>
                  (fst kv, (n_sample_majority (target_stats y) - snd kv)%nat))
             (filter (fun kv => negb (fst kv =? minority)) (target_stats y)))
        = filter (fun c => negb (c =? minority)) (np_unique y))
      by exact (strategy_keys y minority _ (np_unique y)).
    rewrite Hkeys. apply NoDup_filter, np_unique_NoDup.
Qed.

(** The labels fetched for the resampled indices are the resampled labels. *)
Lemma resampled_labels (labels X y : list Z) (extra : list nat) :
  mapM (getitem labels) X = Ok y ->
  Forall (fun j => (j < List.length y)%nat) extra ->
  mapM (getitem labels) (X ++ map (fun j => nth j X 0) extra)
  = Ok (y ++ map (fun j => nth j y 0) extra).
Proof.
  intros HX Hextra. apply mapM_Forall2 in HX. apply mapM_Forall2.
  apply Forall2_app; [exact HX|].
  induction Hextra as [|j extra Hj _ IH]; [constructor|].
  cbn [map]. constructor; [|exact IH].
  assert (Hlen : List.length X = List.length y) by now apply Forall2_length in HX.
  destruct (nth_error X j) as [x|] eqn:Ex;
    [|apply nth_error_None in Ex; lia].
  destruct (Forall2_nth_error_l _ _ _ _ _ HX Ex) as [v [Hv Hget]].
  rewrite (nth_error_nth _ _ 0 Ex), (nth_error_nth _ _ 0 Hv). exact Hget.
Qed.

Section Environment.

Variable list_set : list Z -> list Z.
Variable permutation : Z -> nat -> list nat.

(** A set lists each of its elements once. *)
Hypothesis list_set_NoDup : forall l, NoDup (list_set l).
Hypothesis list_set_In : forall l x, In x (list_set l) <-> In x l.

(** A shuffle of [n] positions is a permutation of [0 .. n-1]. *)
Hypothesis permutation_Permutation :
  forall seed n, Permutation (permutation seed n) (seq 0 n).

(** The two parts of a split make up the input. *)
Lemma train_test_split_perm {A : Type} (arr : list A) (fraction : Q)
  (seed : Z) (train test : list A) :
  train_test_split permutation arr fraction seed = Ok (train, test) ->
  Permutation (train ++ test) arr.
Proof.
  unfold train_test_split.
  destruct (Qle_bool fraction 0 || Qle_bool 1 fraction); [discriminate|].
  set (n := List.length arr).
  set (n_test := Z.to_nat (Qceiling (round64 (fraction * inject_Z (Z.of_nat n))))).
  destruct (n - n_test =? 0)%nat eqn:En; [discriminate|].
  apply Nat.eqb_neq in En.
  set (perm := permutation seed n).
  destruct (mapM _ (firstn (n - n_test) (skipn n_test perm)))
    as [tr|] eqn:E1; [|discriminate].
  destruct (mapM _ (firstn n_test perm)) as [te|] eqn:E2; [|discriminate].
  cbn [rbind]. intros H. inversion H; subst tr te. clear H.
  apply mapM_Forall2, getitem_indices in E1.
  apply mapM_Forall2, getitem_indices in E2.
  pose proof (permutation_Permutation seed n) as Hperm. fold perm in Hperm.
  assert (Hlen : List.length perm = n).
  { rewrite (Permutation_length Hperm). apply length_seq. }
  rewrite firstn_all2 in E1 by (rewrite length_skipn; lia).
  assert (Hidx : Permutation (skipn n_test perm ++ firstn n_test perm)
                   (seq 0 n)).
  { rewrite Permutation_app_comm, firstn_skipn. exact Hperm. }
  apply (Permutation_map (nth_error arr)) in Hidx.
  rewrite map_app, <- E1, <- E2, <- map_app in Hidx.
  unfold n in Hidx. rewrite map_nth_error_seq in Hidx.
  apply Permutation_map_inv in Hidx as [l3 [E Hl3]].
  apply map_Some_inj in E. subst l3. now apply Permutation_sym.
Qed.

(** A split with a fraction strictly between 0 and 1 that leaves a
    non-empty training part succeeds, with parts of the expected sizes. *)
Lemma train_test_split_run {A : Type} (arr : list A) (fraction : Q)
  (seed : Z) (n_test : nat) :
  Qle_bool fraction 0 = false ->
  Qle_bool 1 fraction = false ->
  test_count fraction (List.length arr) = n_test ->
  (n_test < List.length arr)%nat ->
  exists train test,
    train_test_split permutation arr fraction seed = Ok (train, test)
    /\ Permutation (train ++ test) arr
    /\ List.length test = n_test
    /\ List.length train = (List.length arr - n_test)%nat.
Proof.
  intros H0 H1 Hn Hlt. unfold test_count in Hn.
  pose proof (permutation_Permutation seed (List.length arr)) as Hperm.
  assert (Hlen : List.length (permutation seed (List.length arr))
                 = List.length arr).
  { rewrite (Permutation_length Hperm). apply length_seq. }
  assert (Hbound : Forall (fun i => (i < List.length arr)%nat)
                     (permutation seed (List.length arr))).
  { apply Forall_forall. intros i Hi.
    apply (Permutation_in _ Hperm), in_seq in Hi. lia. }
  assert (Hrun : exists train test,
             train_test_split permutation arr fraction seed
             = Ok (train, test)).
  { unfold train_test_split. rewrite H0, H1, Hn. cbn [orb].
    replace (List.length arr - n_test =? 0)%nat with false
      by (symmetry; apply Nat.eqb_neq; lia).
    set (perm := permutation seed (List.length arr)) in *.
    destruct (getitem_indices_total arr
                (firstn (List.length arr - n_test) (skipn n_test perm)))
      as [tr ->].
    { apply Forall_forall. intros i Hi.
      apply (proj1 (Forall_forall _ _) Hbound).
      rewrite <- (firstn_skipn n_test perm). apply in_or_app. right.
      rewrite <- (firstn_skipn (List.length arr - n_test) (skipn n_test perm)).
      apply in_or_app. now left. }
    destruct (getitem_indices_total arr (firstn n_test perm)) as [te ->].
    { apply Forall_forall. intros i Hi.
      apply (proj1 (Forall_forall _ _) Hbound).
      rewrite <- (firstn_skipn n_test perm). apply in_or_app. now left. }
    now exists tr, te. }
  destruct Hrun as (train & test & Hrun).
  exists train, test. split; [exact Hrun|].
  pose proof (train_test_split_perm _ _ _ _ _ Hrun) as Hp.
  split; [exact Hp|].
  assert (Hte : List.length test = n_test).
  { revert Hrun. unfold train_test_split. rewrite H0, H1, Hn. cbn [orb].
    destruct (List.length arr - n_test =? 0)%nat; [discriminate|].
    destruct (mapM _ (firstn (List.length arr - n_test) _)) as [tr|];
      [|discriminate].
    destruct (mapM _ (firstn n_test _)) as [te|] eqn:E2; [|discriminate].
    cbn [rbind]. intros H. inversion H; subst.
    apply mapM_Forall2, Forall2_length in E2.
    rewrite <- E2, length_firstn, Hlen. lia. }
  split; [exact Hte|].
  apply Permutation_length in Hp. rewrite length_app in Hp. lia.
Qed.

(** The three point lists are a rearrangement of the unique points. *)
Lemma split_points_perm (fraction_test fraction_val : Q) (points : list Z)
  (train_points val_points test_points : list Z) :
  split_points list_set permutation fraction_test fraction_val points
  = Ok (train_points, val_points, test_points) ->
  Permutation (train_points ++ val_points ++ test_points) (list_set points).
Proof.
  unfold split_points. cbv zeta.
  destruct (train_test_split permutation (list_set points)
              (round64 fraction_test) 42)
    as [[tr1 te]|] eqn:E1; [|discriminate].
  cbn [rbind fst snd].
  destruct (divide (round64 fraction_val) (round64 (1 - round64 fraction_test)))
    as [ratio|]; [|discriminate].
  cbn [rbind].
  destruct (train_test_split permutation tr1 ratio 42)
    as [[tr va]|] eqn:E2; [|discriminate].
  cbn [rbind fst snd]. intros H. inversion H; subst. clear H.
  apply train_test_split_perm in E1, E2.
  rewrite app_assoc, E2. exact E1.
Qed.

(** C1. Whenever the splitter returns, the unique points of the input are
    divided into three lists with no point listed twice, within a list or
    across lists; each returned partition holds only sequences whose point
    is in its list, and every input sequence is in the partition of its
    point.  So no point has sequences in two partitions. *)
Theorem split_dataset_point_disjoint (fraction_test fraction_val : Q)
  (g : GlobalRng) (sequences : list Sequence) (labels : list Z)
  (r : SplitResult) :
  split_dataset list_set permutation fraction_test fraction_val g
    sequences labels = Ok r ->
  exists points train_points val_points test_points,
    point_ids sequences = Ok points
    /\ split_points list_set permutation fraction_test fraction_val points
       = Ok (train_points, val_points, test_points)
    /\ NoDup (train_points ++ val_points ++ test_points)
    /\ (forall p, In p (train_points ++ val_points ++ test_points)
                  <-> exists seq, In seq sequences /\ point_of seq = Some p)
    /\ (forall seq, In seq (X_train r) ->
          exists p, point_of seq = Some p /\ In p train_points)
    /\ (forall seq, In seq (X_val r) ->
          exists p, point_of seq = Some p /\ In p val_points)
    /\ (forall seq, In seq (X_test r) ->
          exists p, point_of seq = Some p /\ In p test_points)
    /\ (forall seq p, In seq sequences -> point_of seq = Some p ->
          (In p train_points -> In seq (X_train r))
          /\ (In p val_points -> In seq (X_val r))
          /\ (In p test_points -> In seq (X_test r))).
Proof.
  unfold split_dataset.
  destruct (point_ids sequences) as [points|] eqn:Epts; [|discriminate].
  cbn [rbind].
  destruct (split_points list_set permutation fraction_test fraction_val points)
    as [[[tr va] te]|] eqn:Esplit; [|discriminate].
  cbn [rbind]. intros Hasm.
  apply assemble_inv in Hasm
    as (y & res & _ & Hfit & HXtr & _ & HXva & _ & HXte & _).
  pose proof (point_ids_spec _ _ Epts) as Hpts.
  pose proof (split_points_perm _ _ _ _ _ _ Esplit) as Hperm.
  destruct res as [X' y'].
  pose proof (fit_resample_rows _ _ _ _ _ Hfit) as Hrows.
  destruct (part_members sequences points tr X' (X_train r) Hpts Hrows HXtr)
    as [Htr1 Htr2].
  destruct (part_members sequences points va _ (X_val r) Hpts
              (fun i => iff_refl _) HXva) as [Hva1 Hva2].
  destruct (part_members sequences points te _ (X_test r) Hpts
              (fun i => iff_refl _) HXte) as [Hte1 Hte2].
  exists points, tr, va, te.
  split; [reflexivity|]. split; [exact Esplit|]. split.
  { apply (Permutation_NoDup (Permutation_sym Hperm)), list_set_NoDup. }
  split.
  { intros p. split.
    - intros Hp. apply (Permutation_in _ Hperm) in Hp.
      apply (proj1 (list_set_In _ _)) in Hp.
      destruct (Forall2_In_r _ _ _ _ Hpts Hp) as [seq [Hseq Hpoint]].
      now exists seq.
    - intros [seq [Hseq Hpoint]].
      apply (Permutation_in _ (Permutation_sym Hperm)).
      apply (proj2 (list_set_In _ _)).
      destruct (Forall2_In_l _ _ _ _ Hpts Hseq) as [p' [Hp' Hpoint']].
      congruence. }
  split; [exact Htr1|]. split; [exact Hva1|]. split; [exact Hte1|].
  intros seq p Hseq Hpoint. repeat split; eauto.
Qed.


(** *** The splitter on the graded points *)

Lemma list_set_ascending (l : list Z) :
  Permutation (list_set l) (ascending_set l).
Proof.
  apply NoDup_Permutation;
    [apply list_set_NoDup | apply ascending_set_NoDup |].
  intros x. now rewrite list_set_In, ascending_set_In.
Qed.

(** With the notebook's fractions, the two splits of [n] unique points
    succeed as soon as both leave a non-empty training part. *)
Lemma split_points_run (points : list Z) (n n_test n_val : nat) :
  List.length (ascending_set points) = n ->
  test_count (round64 test_size) n = n_test ->
  (n_test < n)%nat ->
  test_count (val_ratio test_size val_size) (n - n_test) = n_val ->
  (n_val < n - n_test)%nat ->
  exists tr va te,
    split_points list_set permutation test_size val_size points
    = Ok (tr, va, te)
    /\ Permutation (tr ++ va ++ te) (ascending_set points)
    /\ List.length tr = (n - n_test - n_val)%nat.
Proof.
  intros Hn Htest Hlt Hval Hlt'.
  assert (Hlen : List.length (list_set points) = n).
  { now rewrite (Permutation_length (list_set_ascending points)). }
  destruct (train_test_split_run (list_set points) (round64 test_size) 42
              n_test)
    as (tr1 & te & Hrun1 & Hp1 & Hte & Htr1);
    [vm_compute; reflexivity | vm_compute; reflexivity
    | now rewrite Hlen | now rewrite Hlen |].
  rewrite Hlen in Htr1.
  destruct (train_test_split_run tr1 (val_ratio test_size val_size) 42 n_val)
    as (tr & va & Hrun2 & Hp2 & Hva & Htr);
    [vm_compute; reflexivity | vm_compute; reflexivity
    | now rewrite Htr1 | now rewrite Htr1 |].
  rewrite Htr1 in Htr.
  assert (Hdiv : divide (round64 val_size) (round64 (1 - round64 test_size))
                 = Ok (val_ratio test_size val_size))
    by (vm_compute; reflexivity).
  exists tr, va, te. split; [|split].
  - unfold split_points. cbv zeta. rewrite Hrun1. cbn [rbind fst snd].
    rewrite Hdiv. cbn [rbind]. rewrite Hrun2. reflexivity.
  - rewrite app_assoc, Hp2, Hp1. apply list_set_ascending.
  - exact Htr.
Qed.

(** The training points of [n] graded points, [k] of which go to
    training, are one of the arrangements of [k] points among [n]. *)
Lemma graded_training_points (points : list Z) (n n_test n_val : nat) :
  ascending_set points = points_upto n ->
  test_count (round64 test_size) n = n_test ->
  (n_test < n)%nat ->
  test_count (val_ratio test_size val_size) (n - n_test) = n_val ->
  (n_val < n - n_test)%nat ->
  exists tr va te,
    split_points list_set permutation test_size val_size points
    = Ok (tr, va, te)
    /\ In tr (arrangements (n - n_test - n_val) n).
Proof.
  intros Hpts Htest Hlt Hval Hlt'.
  destruct (split_points_run points n n_test n_val)
    as (tr & va & te & Hsplit & Hperm & Hlen); try assumption.
  { rewrite Hpts. unfold points_upto. now rewrite length_map, length_seq. }
  exists tr, va, te. split; [exact Hsplit|].
  apply In_arrangements; [exact Hlen| |].
  - pose proof (Permutation_NoDup (Permutation_sym Hperm)
                  (ascending_set_NoDup points)) as Hnd.
    now apply NoDup_app_remove_r in Hnd.
  - intros x Hx. rewrite <- Hpts.
    apply (Permutation_in _ Hperm). apply in_or_app. now left.
Qed.

(** C2. The over-sampler is built with [sampling_strategy='not minority'],
    which leaves the minority class as it is.  On five points where point
    [k] has [k] sequences of label [k], whatever the shuffle and whatever
    the global generator, the split succeeds and two labels of the returned
    training set occur a different number of times: the training set is
    not balanced to the majority count. *)
Theorem not_minority_leaves_training_unbalanced (g : GlobalRng) :
  exists r,
    split_dataset list_set permutation test_size val_size g
      (fst (SequenceExamples.graded 5)) (snd (SequenceExamples.graded 5))
    = Ok r
    /\ exists l1 l2,
         In l1 (y_train r) /\ In l2 (y_train r)
         /\ count l1 (y_train r) <> count l2 (y_train r).
Proof.
  destruct (graded_training_points (SequenceExamples.graded_points 5) 5 2 1)
    as (tr & va & te & Hsplit & Htr);
    [vm_compute; reflexivity | vm_compute; reflexivity | lia
    | vm_compute; reflexivity | simpl; lia |].
  pose proof (proj1 (forallb_forall _ _) (stays_unbalanced_always g) tr Htr)
    as Hchk.
  unfold stays_unbalanced in Hchk.
  destruct (train_part g (fst (SequenceExamples.graded 5))
              (snd (SequenceExamples.graded 5))
              (SequenceExamples.graded_points 5) tr)
    as [[Xtr ytr]|] eqn:Etp; [|discriminate].
  destruct (assemble_run g _ _ _ tr va te Xtr ytr Etp)
    as (r & Hr & _ & Hy & _); [reflexivity | reflexivity |].
  exists r. split.
  - unfold split_dataset.
    replace (point_ids (fst (SequenceExamples.graded 5)))
      with (Ok (SequenceExamples.graded_points 5))
      by (vm_compute; reflexivity).
    cbn [rbind]. rewrite Hsplit. cbn [rbind]. exact Hr.
  - rewrite Hy. now apply unbalanced_spec.
Qed.

(** C3. The two splits are seeded with [random_state=42], the over-sampler
    is not: it draws from the global generator.  On six points where point
    [k] has [k] sequences of label [k], whatever the shuffle, two runs on
    the same input that differ only in the state of the global generator
    return the same validation and test partitions and training sets that
    are not rearrangements of one another. *)
Theorem oversampling_follows_global_generator :
  exists r0 r1,
    split_dataset list_set permutation test_size val_size
      SequenceExamples.zeros
      (fst (SequenceExamples.graded 6)) (snd (SequenceExamples.graded 6))
    = Ok r0
    /\ split_dataset list_set permutation test_size val_size
         SequenceExamples.ones
         (fst (SequenceExamples.graded 6)) (snd (SequenceExamples.graded 6))
       = Ok r1
    /\ X_val r0 = X_val r1
    /\ X_test r0 = X_test r1
    /\ ~ Permutation (X_train r0) (X_train r1).
Proof.
  destruct (graded_training_points (SequenceExamples.graded_points 6) 6 2 1)
    as (tr & va & te & Hsplit & Htr);
    [vm_compute; reflexivity | vm_compute; reflexivity | lia
    | vm_compute; reflexivity | simpl; lia |].
  pose proof (proj1 (forallb_forall _ _) draws_differ_always tr Htr) as Hchk.
  unfold draws_differ in Hchk.
  destruct (train_part SequenceExamples.zeros _ _ _ tr)
    as [[X0 y0]|] eqn:E0; [|discriminate].
  destruct (train_part SequenceExamples.ones _ _ _ tr)
    as [[X1 y1]|] eqn:E1; [|discriminate].
  destruct (assemble_run _ _ _ _ tr va te X0 y0 E0)
    as (r0 & Hr0 & HX0 & _ & Hva0 & Hte0); [reflexivity | reflexivity |].
  destruct (assemble_run _ _ _ _ tr va te X1 y1 E1)
    as (r1 & Hr1 & HX1 & _ & Hva1 & Hte1); [reflexivity | reflexivity |].
  assert (Hpts : point_ids (fst (SequenceExamples.graded 6))
                 = Ok (SequenceExamples.graded_points 6))
    by (vm_compute; reflexivity).
  exists r0, r1. repeat split.
  - unfold split_dataset. rewrite Hpts. cbn [rbind]. rewrite Hsplit.
    cbn [rbind]. exact Hr0.
  - unfold split_dataset. rewrite Hpts. cbn [rbind]. rewrite Hsplit.
    cbn [rbind]. exact Hr1.
  - congruence.
  - congruence.
  - rewrite HX0, HX1. intros Hperm.
    apply (filter_length_permutation starts_at_D0) in Hperm.
    apply negb_true_iff, Nat.eqb_neq in Hchk. contradiction.
Qed.


End Environment.

(** *** The splitter in one environment *)

Lemma split_dataset_point_disjoint_witness :
  exists points train_points val_points test_points,
    point_ids (fst (SequenceExamples.graded 6)) = Ok points
    /\ split_points ascending_set reversing_permutation test_size val_size points
       = Ok (train_points, val_points, test_points)
    /\ NoDup (train_points ++ val_points ++ test_points)
    /\ (forall p, In p (train_points ++ val_points ++ test_points)
                  <-> exists seq, In seq (fst (SequenceExamples.graded 6))
                                  /\ point_of seq = Some p)
    /\ (forall seq, In seq (X_train SequenceExamples.graded_split) ->
          exists p, point_of seq = Some p /\ In p train_points)
    /\ (forall seq, In seq (X_val SequenceExamples.graded_split) ->
          exists p, point_of seq = Some p /\ In p val_points)
    /\ (forall seq, In seq (X_test SequenceExamples.graded_split) ->
          exists p, point_of seq = Some p /\ In p test_points)
    /\ (forall seq p, In seq (fst (SequenceExamples.graded 6)) ->
          point_of seq = Some p ->
          (In p train_points -> In seq (X_train SequenceExamples.graded_split))
          /\ (In p val_points -> In seq (X_val SequenceExamples.graded_split))
          /\ (In p test_points -> In seq (X_test SequenceExamples.graded_split))).
Proof.
  apply (split_dataset_point_disjoint ascending_set reversing_permutation
           ascending_set_NoDup ascending_set_In
           reversing_permutation_Permutation
           test_size val_size SequenceExamples.zeros
           (fst (SequenceExamples.graded 6)) (snd (SequenceExamples.graded 6))
           SequenceExamples.graded_split).
  vm_compute. reflexivity.
Defined.


Lemma not_minority_leaves_training_unbalanced_witness :
  exists r,
    split_dataset ascending_set reversing_permutation test_size val_size
      SequenceExamples.zeros
      (fst (SequenceExamples.graded 5)) (snd (SequenceExamples.graded 5))
    = Ok r
    /\ exists l1 l2,
         In l1 (y_train r) /\ In l2 (y_train r)
         /\ count l1 (y_train r) <> count l2 (y_train r).
Proof.
  apply (not_minority_leaves_training_unbalanced
           ascending_set reversing_permutation
           ascending_set_NoDup ascending_set_In
           reversing_permutation_Permutation SequenceExamples.zeros).
Defined.

Lemma oversampling_follows_global_generator_witness :
  exists r0 r1,
    split_dataset ascending_set reversing_permutation test_size val_size
      SequenceExamples.zeros
      (fst (SequenceExamples.graded 6)) (snd (SequenceExamples.graded 6))
    = Ok r0
    /\ split_dataset ascending_set reversing_permutation test_size val_size
         SequenceExamples.ones
         (fst (SequenceExamples.graded 6)) (snd (SequenceExamples.graded 6))
       = Ok r1
    /\ X_val r0 = X_val r1
    /\ X_test r0 = X_test r1
    /\ ~ Permutation (X_train r0) (X_train r1).
Proof.
  apply (oversampling_follows_global_generator
           ascending_set reversing_permutation
           ascending_set_NoDup ascending_set_In
           reversing_permutation_Permutation).
Defined.

(** The same two runs, evaluated: training points 2, 3 and 4 hold 2, 3 and 4
    sequences; label 2, the minority, keeps its two sequences, label 3 gets
    one more, drawn by the global generator. *)
Example graded_split_labels :
  y_train SequenceExamples.graded_split = [2; 2; 3; 3; 3; 4; 4; 4; 4; 3]
  /\ y_val SequenceExamples.graded_split = [1]
  /\ y_test SequenceExamples.graded_split = [5; 5; 5; 5; 5; 6; 6; 6; 6; 6; 6].
Proof. vm_compute. repeat split. Qed.

End SplitFacts.

(** ** More facts about the filename parser *)
Module ParserFacts.
Import Py Vocabulary PyFacts Dataset DatasetFacts.

Lemma split_nonempty (sep : ascii) (s : string) : split sep s <> [].
Proof.
  destruct s as [|c s]; cbn [split]; [discriminate|].
  destruct (Ascii.eqb c sep); [discriminate|].
  destruct (split sep s); discriminate.
Qed.

(** Joining undoes splitting. *)
Lemma join_split (sep : ascii) (s : string) :
  join (String sep EmptyString) (split sep s) = s.
Proof.
  unfold join. induction s as [|c s IH]; [reflexivity|].
  cbn [split]. pose proof (split_nonempty sep s) as Hne.
  destruct (split sep s) as [|p ps]; [congruence|].
  destruct (Ascii.eqb_spec c sep) as [->|_].
  - change (concat (String sep "") ("" :: p :: ps))
      with (String sep (concat (String sep "") (p :: ps))).
    now rewrite IH.
  - rewrite <- IH. now destruct ps.
Qed.

Lemma concat_app (sep : string) (l1 l2 : list string) :
  l1 <> [] -> l2 <> [] ->
  concat sep (l1 ++ l2) = (concat sep l1 ++ sep ++ concat sep l2)%string.
Proof.
  intros H1 H2. induction l1 as [|x l1 IH]; [congruence|].
  destruct l1 as [|y l1].
  - destruct l2 as [|z l2]; [congruence|]. reflexivity.
  - change (concat sep ((x :: y :: l1) ++ l2))
      with (x ++ sep ++ concat sep ((y :: l1) ++ l2))%string.
    rewrite IH by discriminate.
    change (concat sep (x :: y :: l1))
      with (x ++ sep ++ concat sep (y :: l1))%string.
    now rewrite !append_assoc.
Qed.

Lemma substring_whole (k : nat) (p : string) :
  (substring 0 k p ++ substring k (String.length p - k) p)%string = p.
Proof.
  revert k. induction p as [|c p IH]; intros k.
  - now destruct k.
  - destruct k as [|k]; cbn [substring String.length Nat.sub].
    + cbn [String.append]. f_equal.
      specialize (IH 0%nat). rewrite Nat.sub_0_r in IH.
      destruct p; [reflexivity|]. now cbn [substring String.append] in *.
    + cbn [String.append]. f_equal. apply IH.
Qed.

Lemma splitext_scan_whole (p : string) (i steps k : nat) (a b : string) :
  splitext_scan p i steps k = Some (a, b) -> (a ++ b)%string = p.
Proof.
  revert i. induction steps as [|steps IH]; intros i; cbn [splitext_scan];
    [discriminate|].
  destruct (negb (String.eqb (substring i 1 p) ".")); [|apply IH].
  intros H. inversion H. apply substring_whole.
Qed.

(** [splitext] cuts its argument in two. *)
Lemma splitext_whole (p : string) :
  (fst (splitext p) ++ snd (splitext p))%string = p.
Proof.
  unfold splitext.
  destruct (rfind "/" p <? rfind "." p).
  - destruct (splitext_scan _ _ _ _) as [[a b]|] eqn:E.
    + cbn [fst snd]. eapply splitext_scan_whole. exact E.
    + cbn [fst snd]. clear. induction p as [|c p IH]; [reflexivity|].
      cbn [String.append]. now rewrite IH.
  - cbn [fst snd]. clear. induction p as [|c p IH]; [reflexivity|].
    cbn [String.append]. now rewrite IH.
Qed.

Lemma int_unsigned_raises (s : string) (e : Exn) :
  int_unsigned s = Raise e -> e = ValueError.
Proof.
  unfold int_unsigned. destruct (int_digits s 0 false 0) as [[v count]|].
  - destruct (max_str_digits <? count)%nat; congruence.
  - congruence.
Qed.

(** [int] raises nothing but [ValueError]. *)
Lemma py_int_raises (s : string) (e : Exn) :
  py_int s = Raise e -> e = ValueError.
Proof.
  unfold py_int. destruct (lstrip s) as [|c s'].
  - apply int_unsigned_raises.
  - destruct c as [[] [] [] [] [] [] [] []];
      try apply int_unsigned_raises.
    destruct (int_unsigned s') as [v|e'] eqn:E; cbn [rbind]; [discriminate|].
    intros H. inversion H; subst. now apply int_unsigned_raises in E.
Qed.

Lemma getitem_minus_one {A : Type} (l : list A) (x : A) :
  getitem (l ++ [x]) (-1) = Ok x.
Proof. apply getitem_last. Qed.

(** The shape of the parts once the pattern test is passed. *)
Lemma six_parts (parts : list string) :
  (List.length parts <? 6)%nat = false ->
  exists a p d r crop s,
    parts = a :: p :: d :: r :: crop ++ [s] /\ crop <> [].
Proof.
  intros H. apply Nat.ltb_ge in H.
  destruct parts as [|a [|p [|d [|r tail]]]]; simpl in H; try lia.
  assert (Hne : tail <> []) by (destruct tail; [simpl in H; lia | discriminate]).
  destruct (exists_last Hne) as (crop & s & ->).
  exists a, p, d, r, crop, s. split; [reflexivity|].
  destruct crop; [|discriminate].
  simpl in H. lia.
Qed.

(** What [parse_filename] does once the parts are known. *)
Lemma parse_filename_parts (file p d r s : string) (crop : list string) :
  split "_" (fst (splitext file)) = "POINT" :: p :: d :: r :: crop ++ [s] ->
  crop <> [] ->
  parse_filename file
  = rbind (py_int p) (fun n =>
      Ok (Some (mkMeta n d r (join "_" crop) s
                  (enumeration_index (join "_" crop))))).
Proof.
  intros Hsplit Hcrop. unfold parse_filename.
  destruct (splitext file) as [name ext]. cbn [fst] in Hsplit. rewrite Hsplit.
  replace (List.length ("POINT" :: p :: d :: r :: crop ++ [s]) <? 6)%nat
    with false.
  2:{ symmetry. apply Nat.ltb_ge. destruct crop; [congruence|].
      simpl. rewrite length_app. simpl. lia. }
  cbn [hd orb]. replace ("POINT" =? "POINT")%string with true by reflexivity.
  cbn [negb].
  change (getitem ("POINT" :: p :: d :: r :: crop ++ [s]) 1) with (Ok p).
  cbn [rbind]. destruct (py_int p) as [n|e]; cbn [rbind]; [|reflexivity].
  change (getitem ("POINT" :: p :: d :: r :: crop ++ [s]) 2) with (Ok d).
  change (getitem ("POINT" :: p :: d :: r :: crop ++ [s]) 3) with (Ok r).
  cbn [rbind].
  change ("POINT" :: p :: d :: r :: crop ++ [s])
    with (("POINT" :: p :: d :: r :: crop) ++ [s]) at 1.
  rewrite getitem_last. cbn [rbind].
  change ("POINT" :: p :: d :: r :: crop ++ [s])
    with (["POINT"; p; d; r] ++ crop ++ [s]).
  change 4 with (len ["POINT"; p; d; r]).
  rewrite slice_middle, label_is_enumeration_index.
  reflexivity.
Qed.

(** The three outcomes of [parse_filename], told apart by the parts. *)
Lemma parse_filename_cases (file : string) :
  parse_filename file = Ok None
  \/ exists p d r crop s,
       split "_" (fst (splitext file)) = "POINT" :: p :: d :: r :: crop ++ [s]
       /\ crop <> []
       /\ parse_filename file
          = rbind (py_int p) (fun n =>
              Ok (Some (mkMeta n d r (join "_" crop) s
                          (enumeration_index (join "_" crop))))).
Proof.
  destruct (List.length (split "_" (fst (splitext file))) <? 6)%nat eqn:Hlen.
  - left. unfold parse_filename. destruct (splitext file) as [name ext].
    cbn [fst] in Hlen. now rewrite Hlen.
  - destruct (six_parts _ Hlen) as (a & p & d & r & crop & s & Hparts & Hcrop).
    destruct (String.eqb_spec a "POINT") as [->|Hne].
    + right. exists p, d, r, crop, s. split; [exact Hparts|].
      split; [exact Hcrop|]. now apply parse_filename_parts.
    + left. unfold parse_filename. destruct (splitext file) as [name ext].
      cbn [fst] in *. rewrite Hlen, Hparts. cbn [hd orb].
      apply String.eqb_neq in Hne. now rewrite Hne.
Qed.

Lemma parse_filename_inv (file : string) (m : Meta) :
  parse_filename file = Ok (Some m) ->
  exists p d r crop s n,
    split "_" (fst (splitext file)) = "POINT" :: p :: d :: r :: crop ++ [s]
    /\ crop <> []
    /\ py_int p = Ok n
    /\ m = mkMeta n d r (join "_" crop) s (enumeration_index (join "_" crop)).
Proof.
  intros H. destruct (parse_filename_cases file) as [E | E]; [congruence|].
  destruct E as (p & d & r & crop & s & Hparts & Hcrop & E).
  rewrite E in H. destruct (py_int p) as [n|e] eqn:Hint; cbn [rbind] in H;
    [|discriminate].
  inversion H. now exists p, d, r, crop, s, n.
Qed.

Lemma parse_filename_raise (file : string) (e : Exn) :
  parse_filename file = Raise e -> e = ValueError.
Proof.
  intros H. destruct (parse_filename_cases file) as [E | E]; [congruence|].
  destruct E as (p & d & r & crop & s & _ & _ & E).
  rewrite E in H. destruct (py_int p) as [n|e'] eqn:Hint; cbn [rbind] in H;
    [discriminate|].
  inversion H; subst e'. now apply py_int_raises in Hint.
Qed.

(** X1. [parse_filename] raises nothing but [ValueError], and raises it only
    for a name that meets the pattern (first segment POINT, six segments or
    more) and whose second segment [int] rejects. *)
Theorem parse_filename_raises_only_ValueError (file : string) (e : Exn) :
  parse_filename file = Raise e ->
  e = ValueError
  /\ exists p tail,
       split "_" (fst (splitext file)) = "POINT" :: p :: tail
       /\ (4 <= List.length tail)%nat
       /\ py_int p = Raise ValueError.
Proof.
  intros H. destruct (parse_filename_cases file) as [E | E]; [congruence|].
  destruct E as (p & d & r & crop & s & Hparts & Hcrop & E).
  rewrite E in H. destruct (py_int p) as [n|e'] eqn:Hint; cbn [rbind] in H;
    [discriminate|].
  inversion H; subst e'. pose proof (py_int_raises _ _ Hint) as ->.
  split; [reflexivity|]. exists p, (d :: r :: crop ++ [s]).
  split; [exact Hparts|]. split; [|exact Hint].
  destruct crop; [congruence|]. simpl. rewrite length_app. simpl. lia.
Qed.

Lemma parse_filename_raises_only_ValueError_witness :
  ValueError = ValueError
  /\ exists p tail,
       split "_" (fst (splitext Examples.bad_point_file)) = "POINT" :: p :: tail
       /\ (4 <= List.length tail)%nat
       /\ py_int p = Raise ValueError.
Proof.
  apply (parse_filename_raises_only_ValueError Examples.bad_point_file ValueError).
  reflexivity.
Defined.

(** X2. A name that parses can be put together again from what was parsed:
    it is POINT, a second segment whose [int] is the point, the date, the
    region, the crop type and the sensor type, joined by underscores and
    followed by the extension [splitext] took off. *)
Theorem parse_filename_rebuilds_name (file : string) (m : Meta) :
  parse_filename file = Ok (Some m) ->
  exists p,
    py_int p = Ok (POINT m)
    /\ file
       = (join "_" ["POINT"; p; DATE m; REGION m; CROP_TYPE m; SENSOR_TYPE m]
          ++ snd (splitext file))%string.
Proof.
  intros H.
  destruct (parse_filename_inv file m H)
    as (p & d & r & crop & s & n & Hparts & Hcrop & Hint & ->).
  exists p. split; [exact Hint|]. cbn [DATE REGION CROP_TYPE SENSOR_TYPE].
  rewrite <- (splitext_whole file) at 1. f_equal.
  rewrite <- (join_split "_" (fst (splitext file))), Hparts. unfold join.
  change ("POINT" :: p :: d :: r :: crop ++ [s])
    with (["POINT"; p; d; r] ++ (crop ++ [s])).
  change ["POINT"; p; d; r; concat "_" crop; s]
    with (["POINT"; p; d; r] ++ [concat "_" crop; s]).
  rewrite !concat_app; try discriminate; try assumption.
  - reflexivity.
  - destruct crop; discriminate.
Qed.

Lemma parse_filename_rebuilds_name_witness :
  exists p,
    py_int p = Ok 12
    /\ "POINT_12_20170601_R1_SPRING_WHEAT_RGB.png"
       = (join "_" ["POINT"; p; "20170601"; "R1"; "SPRING_WHEAT"; "RGB"]
          ++ snd (splitext "POINT_12_20170601_R1_SPRING_WHEAT_RGB.png"))%string.
Proof.
  apply (parse_filename_rebuilds_name
           "POINT_12_20170601_R1_SPRING_WHEAT_RGB.png"
           (mkMeta 12 "20170601" "R1" "SPRING_WHEAT" "RGB" 9)).
  reflexivity.
Defined.

Lemma enumeration_index_spec (crop_type : string) :
  -1 <= enumeration_index crop_type <= 9
  /\ (enumeration_index crop_type = -1 <-> ~ In crop_type crop_enumeration)
  /\ (0 <= enumeration_index crop_type ->
      nth_error crop_enumeration (Z.to_nat (enumeration_index crop_type))
      = Some crop_type).
Proof.
  unfold enumeration_index, crop_enumeration. cbn [index_of].
  repeat (match goal with
          | |- context [String.eqb crop_type ?x] =>
              destruct (String.eqb_spec crop_type x) as [->|?]
          end;
          [split; [lia|];
           split; [split; [intros E; vm_compute in E; discriminate E
                          | intros H; exfalso; apply H;
                            repeat first [left; reflexivity | right]]
                  | intros _; reflexivity]|]).
  split; [lia|]. split; [|lia].
  split; [|reflexivity]. intros _ H. simpl in H. intuition congruence.
Qed.

(** X3. The label of a name that parses lies between -1 and 9; it is -1
    exactly when the crop type is none of the ten crops of [crop_mapping],
    and otherwise it is the position of the crop type in that table. *)
Theorem parse_filename_label (file : string) (m : Meta) :
  parse_filename file = Ok (Some m) ->
  -1 <= LABEL m <= 9
  /\ (LABEL m = -1 <-> ~ In (CROP_TYPE m) (map fst crop_mapping))
  /\ (0 <= LABEL m -> In (CROP_TYPE m, LABEL m) crop_mapping).
Proof.
  intros H.
  destruct (parse_filename_inv file m H)
    as (p & d & r & crop & s & n & _ & _ & _ & ->).
  cbn [LABEL CROP_TYPE].
  destruct (enumeration_index_spec (join "_" crop)) as (Hrange & Hminus & Hnth).
  split; [exact Hrange|]. split; [exact Hminus|].
  intros Hpos. specialize (Hnth Hpos).
  set (i := enumeration_index (join "_" crop)) in *.
  assert (Hi : (Z.to_nat i < 10)%nat) by lia.
  replace i with (Z.of_nat (Z.to_nat i)) by lia.
  generalize dependent (Z.to_nat i). intros k Hnth Hk.
  do 10 (destruct k as [|k];
         [simpl in Hnth; inversion Hnth;
          repeat first [left; reflexivity | right]|]).
  lia.
Qed.

Lemma parse_filename_label_witness :
  -1 <= 9 <= 9
  /\ (9 = -1 <-> ~ In "SPRING_WHEAT" (map fst crop_mapping))
  /\ (0 <= 9 -> In ("SPRING_WHEAT", 9) crop_mapping).
Proof.
  apply (parse_filename_label "POINT_12_20170601_R1_SPRING_WHEAT_RGB.png"
           (mkMeta 12 "20170601" "R1" "SPRING_WHEAT" "RGB" 9)).
  reflexivity.
Defined.

End ParserFacts.

(** ** More facts about the collector and the filter *)
Module CollectorFacts.
Import Py Vocabulary GroupVocabulary CollectorVocabulary PyFacts Dataset.
Import DatasetFacts ParserFacts.

(** *** Dictionaries whose key test decides equality *)
Section DictFacts.

Context {K V : Type} (eqb : K -> K -> bool).
Hypothesis eqb_eq : forall a b, eqb a b = true <-> a = b.

Lemma eqb_same (a : K) : eqb a a = true.
Proof. now apply eqb_eq. Qed.

Lemma eqb_other (a b : K) : a <> b -> eqb a b = false.
Proof.
  intros H. destruct (eqb a b) eqn:E; [|reflexivity].
  now apply eqb_eq in E.
Qed.

Lemma dict_mem_In (d : list (K * V)) (k : K) :
  dict_mem eqb d k = true <-> In k (map fst d).
Proof.
  unfold dict_mem. induction d as [|[k' v] d IH]; simpl.
  - split; [discriminate | tauto].
  - destruct (eqb k k') eqn:E.
    + apply eqb_eq in E. subst. split; auto.
    + rewrite IH. split; [auto | intros [E' | H]; [|exact H]].
      subst. now rewrite eqb_same in E.
Qed.

Lemma dict_set_new (d : list (K * V)) (k : K) (v : V) :
  dict_mem eqb d k = false -> dict_set eqb d k v = d ++ [(k, v)].
Proof.
  unfold dict_mem. induction d as [|[k' v'] d IH]; simpl; [reflexivity|].
  destruct (eqb k k'); [discriminate|]. intros H. now rewrite IH.
Qed.

Lemma dict_get_set_same (d : list (K * V)) (k : K) (v : V) :
  dict_get eqb (dict_set eqb d k v) k = Some v.
Proof.
  induction d as [|[k' v'] d IH]; simpl.
  - now rewrite eqb_same.
  - destruct (eqb k k') eqn:E; simpl; now rewrite E.
Qed.

Lemma dict_get_set_other (d : list (K * V)) (k k' : K) (v : V) :
  k' <> k -> dict_get eqb (dict_set eqb d k v) k' = dict_get eqb d k'.
Proof.
  intros Hne. induction d as [|[k'' v''] d IH]; simpl.
  - now rewrite (eqb_other _ _ Hne).
  - destruct (eqb k k'') eqn:E; simpl.
    + apply eqb_eq in E. subst k''. now rewrite (eqb_other _ _ Hne).
    + now rewrite IH.
Qed.

Lemma dict_get_update_same (d : list (K * V)) (k : K) (f : V -> V) :
  dict_get eqb (dict_update eqb d k f) k = option_map f (dict_get eqb d k).
Proof.
  induction d as [|[k' v'] d IH]; simpl; [reflexivity|].
  destruct (eqb k k') eqn:E; simpl; now rewrite E.
Qed.

Lemma dict_get_update_other (d : list (K * V)) (k k' : K) (f : V -> V) :
  k' <> k -> dict_get eqb (dict_update eqb d k f) k' = dict_get eqb d k'.
Proof.
  intros Hne. induction d as [|[k'' v''] d IH]; simpl; [reflexivity|].
  destruct (eqb k k'') eqn:E; simpl.
  - apply eqb_eq in E. subst k''. now rewrite (eqb_other _ _ Hne).
  - now rewrite IH.
Qed.

Lemma dict_update_same_keys (d : list (K * V)) (k : K) (f : V -> V) :
  map fst (dict_update eqb d k f) = map fst d.
Proof.
  induction d as [|[k' v'] d IH]; simpl; [reflexivity|].
  destruct (eqb k k'); simpl; [reflexivity | now rewrite IH].
Qed.

Lemma dict_get_In (d : list (K * V)) (k : K) (v : V) :
  dict_get eqb d k = Some v -> In (k, v) d.
Proof.
  induction d as [|[k' v'] d IH]; simpl; [discriminate|].
  destruct (eqb k k') eqn:E.
  - apply eqb_eq in E. intros H. inversion H; subst. now left.
  - intros H. right. now apply IH.
Qed.

End DictFacts.

Lemma identifier_eqb_eq (a b : Identifier) : identifier_eqb a b = true <-> a = b.
Proof.
  destruct a as [[[p d] r] c], b as [[[p' d'] r'] c']. unfold identifier_eqb.
  rewrite !andb_true_iff, Z.eqb_eq, !String.eqb_eq.
  split; [intros [[[-> ->] ->] ->]; reflexivity | intros H; inversion H; auto].
Qed.

(** *** One accepted file *)

(** What the loop body does with a file that passes the name tests, parses
    and can be read. *)
Lemma process_file_accepted (fs : FileSystem) (file : string) (meta : Meta)
  (image_bytes : bytes) (st : ScanState) :
  endswith (lower file) ".png" = true ->
  startswith file "POINT_" = true ->
  parse_filename file = Ok (Some meta) ->
  read_file fs file = Some image_bytes ->
  process_file fs file st
  = (Ok tt,
     mkScanState (filed (groups st) meta image_bytes)
       (output st ++ Opened file
          :: (if existsb (String.eqb (SENSOR_TYPE meta)) sensors then []
              else [Printed (InvalidSensor (SENSOR_TYPE meta) file)]))).
Proof.
  intros Hpng Hpoint Hparse Hread. unfold process_file, filed.
  rewrite Hpng, Hpoint. cbn [negb]. unfold bind at 1, lift. rewrite Hparse.
  remember (existsb (String.eqb (SENSOR_TYPE meta)) sensors) as known.
  remember (negb (dict_mem identifier_eqb (groups st)
                    (POINT meta, DATE meta, REGION meta, CROP_TYPE meta)))
    as fresh.
  unfold open_read, bind, emit, ret, get_groups, put_groups, print, emit.
  cbn [groups output]. rewrite Hread. cbn [groups output]. rewrite <- Heqfresh.
  destruct fresh, known; cbn [groups output];
    rewrite <- ?app_assoc; reflexivity.
Qed.

(** Either the loop body leaves the groups alone, or it files an accepted
    file; in both cases it only adds to the output, and it raises nothing but
    [ValueError]. *)
Lemma process_file_cases (fs : FileSystem) (file : string) (st : ScanState) :
  (groups (snd (process_file fs file st)) = groups st
   \/ exists meta image_bytes,
        parse_filename file = Ok (Some meta)
        /\ groups (snd (process_file fs file st))
           = filed (groups st) meta image_bytes)
  /\ (exists more, output (snd (process_file fs file st)) = output st ++ more)
  /\ (forall e, fst (process_file fs file st) = Raise e -> e = ValueError).
Proof.
  destruct (endswith (lower file) ".png") eqn:Hpng.
  2:{ assert (E : process_file fs file st = (Ok tt, st))
        by (unfold process_file; now rewrite Hpng).
      rewrite E. cbn [fst snd]. split; [now left|]. split; [|discriminate].
      exists []. now rewrite app_nil_r. }
  destruct (startswith file "POINT_") eqn:Hpoint.
  2:{ assert (E : process_file fs file st = (Ok tt, st))
        by (unfold process_file; now rewrite Hpng, Hpoint).
      rewrite E. cbn [fst snd]. split; [now left|]. split; [|discriminate].
      exists []. now rewrite app_nil_r. }
  destruct (parse_filename file) as [[meta|]|e] eqn:Hparse.
  - destruct (read_file fs file) as [image_bytes|] eqn:Hread.
    + rewrite (process_file_accepted fs file meta image_bytes st)
        by assumption.
      cbn [fst snd groups output]. split; [right; eauto|].
      split; [eauto | discriminate].
    + assert (E : process_file fs file st
                  = (Ok tt, mkScanState (groups st)
                              (output st ++ [Opened file;
                                             Printed (ErrorReading file)]))).
      { unfold process_file. rewrite Hpng, Hpoint. cbn [negb].
        unfold bind at 1, lift. rewrite Hparse.
        unfold open_read, bind, emit, ret, print, emit. cbn [groups output].
        rewrite Hread. cbn [groups output]. now rewrite <- app_assoc. }
      rewrite E. cbn [fst snd groups output]. split; [now left|].
      split; [eauto | discriminate].
  - assert (E : process_file fs file st = (Ok tt, st)).
    { unfold process_file. rewrite Hpng, Hpoint. cbn [negb].
      unfold bind, lift. now rewrite Hparse. }
    rewrite E. cbn [fst snd]. split; [now left|]. split; [|discriminate].
    exists []. now rewrite app_nil_r.
  - rewrite (process_file_raises fs file st e) by assumption.
    cbn [fst snd]. split; [now left|]. split.
    + exists []. now rewrite app_nil_r.
    + intros e' H. inversion H; subst e'.
      now apply (parse_filename_raise file e).
Qed.

(** X4. A file that parses and can be read but carries a sensor tag outside
    the six required ones is reported, yet not ignored: when its identifier
    is new it still adds a group, whose slots are all empty and which the
    completeness filter will therefore drop. *)
Theorem unknown_sensor_still_files_a_group (fs : FileSystem) (file : string)
  (meta : Meta) (image_bytes : bytes) (st : ScanState) :
  endswith (lower file) ".png" = true ->
  startswith file "POINT_" = true ->
  parse_filename file = Ok (Some meta) ->
  read_file fs file = Some image_bytes ->
  existsb (String.eqb (SENSOR_TYPE meta)) sensors = false ->
  let identifier := (POINT meta, DATE meta, REGION meta, CROP_TYPE meta) in
  process_file fs file st
  = (Ok tt,
     mkScanState
       (if dict_mem identifier_eqb (groups st) identifier then groups st
        else groups st ++ [(identifier, new_record meta)])
       (output st ++ [Opened file;
                      Printed (InvalidSensor (SENSOR_TYPE meta) file)]))
  /\ completeb (new_record meta) = false.
Proof.
  intros Hpng Hpoint Hparse Hread Hknown identifier.
  split; [|reflexivity].
  rewrite (process_file_accepted fs file meta image_bytes st) by assumption.
  unfold filed. fold identifier. rewrite Hknown.
  destruct (dict_mem identifier_eqb (groups st) identifier) eqn:Hmem;
    cbn [negb]; [reflexivity|].
  now rewrite (dict_set_new identifier_eqb) by exact Hmem.
Qed.

Lemma unknown_sensor_still_files_a_group_witness :
  let identifier := (1, "20170601", "R1", "CORN") in
  process_file (Examples.readable_fs ["POINT_1_20170601_R1_CORN_SWIR.png"])
    "POINT_1_20170601_R1_CORN_SWIR.png" initial_state
  = (Ok tt,
     mkScanState
       (if dict_mem identifier_eqb (groups initial_state) identifier
        then groups initial_state
        else groups initial_state
             ++ [(identifier,
                  new_record (mkMeta 1 "20170601" "R1" "CORN" "SWIR" 2))])
       (output initial_state
        ++ [Opened "POINT_1_20170601_R1_CORN_SWIR.png";
            Printed (InvalidSensor "SWIR" "POINT_1_20170601_R1_CORN_SWIR.png")]))
  /\ completeb (new_record (mkMeta 1 "20170601" "R1" "CORN" "SWIR" 2)) = false.
Proof.
  apply (unknown_sensor_still_files_a_group
           (Examples.readable_fs ["POINT_1_20170601_R1_CORN_SWIR.png"])
           "POINT_1_20170601_R1_CORN_SWIR.png"
           (mkMeta 1 "20170601" "R1" "CORN" "SWIR" 2) ["001"%byte]
           initial_state); reflexivity.
Defined.

Lemma set_slot_get (sensor sensor' : string) (image_bytes : bytes)
  (v : GroupRecord) :
  dict_get String.eqb (rec_slots (set_slot sensor image_bytes v)) sensor'
  = if String.eqb sensor' sensor then Some (Some image_bytes)
    else dict_get String.eqb (rec_slots v) sensor'.
Proof.
  unfold set_slot. cbn [rec_slots].
  destruct (String.eqb_spec sensor' sensor) as [->|Hne].
  - apply (dict_get_set_same String.eqb String.eqb_eq).
  - now apply (dict_get_set_other String.eqb String.eqb_eq).
Qed.

(** The group of an accepted file after filing, and the other groups. *)
Lemma filed_get (g : Groups) (meta : Meta) (image_bytes : bytes) :
  let identifier := (POINT meta, DATE meta, REGION meta, CROP_TYPE meta) in
  let before := match dict_get identifier_eqb g identifier with
                | Some v => v
                | None => new_record meta
                end in
  dict_get identifier_eqb (filed g meta image_bytes) identifier
  = Some (if existsb (String.eqb (SENSOR_TYPE meta)) sensors
          then set_slot (SENSOR_TYPE meta) image_bytes before
          else before)
  /\ forall other, other <> identifier ->
       dict_get identifier_eqb (filed g meta image_bytes) other
       = dict_get identifier_eqb g other.
Proof.
  intros identifier before. unfold filed. fold identifier.
  set (g1 := if negb (dict_mem identifier_eqb g identifier)
             then dict_set identifier_eqb g identifier (new_record meta)
             else g).
  assert (H1 : dict_get identifier_eqb g1 identifier = Some before).
  { unfold g1, before, dict_mem.
    destruct (dict_get identifier_eqb g identifier) as [v|] eqn:E;
      cbn [negb]; [exact E|].
    apply (dict_get_set_same identifier_eqb identifier_eqb_eq). }
  assert (H2 : forall other, other <> identifier ->
                 dict_get identifier_eqb g1 other
                 = dict_get identifier_eqb g other).
  { intros other Hne. unfold g1.
    destruct (negb (dict_mem identifier_eqb g identifier)); [|reflexivity].
    now apply (dict_get_set_other identifier_eqb identifier_eqb_eq). }
  destruct (existsb (String.eqb (SENSOR_TYPE meta)) sensors).
  - split.
    + rewrite (dict_get_update_same identifier_eqb), H1. reflexivity.
    + intros other Hne.
      rewrite (dict_get_update_other identifier_eqb identifier_eqb_eq)
        by exact Hne.
      now apply H2.
  - split; [exact H1 | exact H2].
Qed.

(** X5. After a file of a required sensor is accepted, looking up its
    identifier finds a group whose slot for that sensor holds the bytes just
    read; the group's other slots are as they were (empty for a new group),
    and every other group is untouched. *)
Theorem stored_blob_is_found (fs : FileSystem) (file : string) (meta : Meta)
  (image_bytes : bytes) (st : ScanState) :
  endswith (lower file) ".png" = true ->
  startswith file "POINT_" = true ->
  parse_filename file = Ok (Some meta) ->
  read_file fs file = Some image_bytes ->
  existsb (String.eqb (SENSOR_TYPE meta)) sensors = true ->
  let identifier := (POINT meta, DATE meta, REGION meta, CROP_TYPE meta) in
  let before := match dict_get identifier_eqb (groups st) identifier with
                | Some v => v
                | None => new_record meta
                end in
  let after := groups (snd (process_file fs file st)) in
  fst (process_file fs file st) = Ok tt
  /\ (exists v,
        dict_get identifier_eqb after identifier = Some v
        /\ dict_get String.eqb (rec_slots v) (SENSOR_TYPE meta)
           = Some (Some image_bytes)
        /\ forall sensor, sensor <> SENSOR_TYPE meta ->
             dict_get String.eqb (rec_slots v) sensor
             = dict_get String.eqb (rec_slots before) sensor)
  /\ (forall other, other <> identifier ->
        dict_get identifier_eqb after other
        = dict_get identifier_eqb (groups st) other).
Proof.
  intros Hpng Hpoint Hparse Hread Hknown identifier before after.
  unfold after.
  rewrite (process_file_accepted fs file meta image_bytes st) by assumption.
  cbn [fst snd groups].
  destruct (filed_get (groups st) meta image_bytes) as [Hsame Hother].
  fold identifier in Hsame, Hother. fold before in Hsame.
  rewrite Hknown in Hsame.
  split; [reflexivity|]. split; [|exact Hother].
  exists (set_slot (SENSOR_TYPE meta) image_bytes before).
  split; [exact Hsame|]. split.
  - now rewrite set_slot_get, String.eqb_refl.
  - intros sensor Hne. rewrite set_slot_get.
    apply String.eqb_neq in Hne. now rewrite Hne.
Qed.

Lemma stored_blob_is_found_witness :
  let identifier := (1, "20170601", "R1", "CORN") in
  let before := match dict_get identifier_eqb (groups initial_state) identifier
                with
                | Some v => v
                | None => new_record (mkMeta 1 "20170601" "R1" "CORN" "RGB" 2)
                end in
  let after :=
    groups (snd (process_file (Examples.readable_fs [Examples.corn_file])
                   Examples.corn_file initial_state)) in
  fst (process_file (Examples.readable_fs [Examples.corn_file])
         Examples.corn_file initial_state) = Ok tt
  /\ (exists v,
        dict_get identifier_eqb after identifier = Some v
        /\ dict_get String.eqb (rec_slots v) "RGB" = Some (Some ["001"%byte])
        /\ forall sensor, sensor <> "RGB" ->
             dict_get String.eqb (rec_slots v) sensor
             = dict_get String.eqb (rec_slots before) sensor)
  /\ (forall other, other <> identifier ->
        dict_get identifier_eqb after other
        = dict_get identifier_eqb (groups initial_state) other).
Proof.
  apply (stored_blob_is_found (Examples.readable_fs [Examples.corn_file])
           Examples.corn_file (mkMeta 1 "20170601" "R1" "CORN" "RGB" 2)
           ["001"%byte] initial_state); reflexivity.
Defined.

(** *** Invariants of the whole scan *)

Lemma for_each_invariant {A : Type} (P : ScanState -> Prop)
  (body : A -> Scan unit) (l : list A) :
  (forall x st, P st -> P (snd (body x st))) ->
  forall st, P st -> P (snd (for_each l body st)).
Proof.
  intros Hbody. induction l as [|x l IH]; intros st Hst; [exact Hst|].
  cbn [for_each]. unfold bind. specialize (Hbody x st Hst).
  destruct (body x st) as [[[]|e] st']; simpl in *; auto.
Qed.

Lemma for_each_raise_only {A : Type} (body : A -> Scan unit) (l : list A) :
  (forall x st e, fst (body x st) = Raise e -> e = ValueError) ->
  forall st e, fst (for_each l body st) = Raise e -> e = ValueError.
Proof.
  intros Hbody. induction l as [|x l IH]; intros st e; [discriminate|].
  cbn [for_each]. unfold bind. specialize (Hbody x st).
  destruct (body x st) as [[[]|e'] st']; cbn [fst] in *.
  - apply IH.
  - intros H. inversion H; subst. now apply Hbody.
Qed.

Lemma collect_invariant (P : ScanState -> Prop) (fs : FileSystem) :
  (forall file st, P st -> P (snd (process_file fs file st))) ->
  forall st, P st -> P (snd (collect fs st)).
Proof.
  intros Hbody. unfold collect. apply for_each_invariant.
  intros sensor_dir st Hst.
  destruct (negb (isdir fs (path_join base_dir sensor_dir))); [exact Hst|].
  revert st Hst. apply for_each_invariant. intros [root files] st Hst.
  revert st Hst. apply for_each_invariant. exact Hbody.
Qed.

Lemma new_record_consistent (file : string) (meta : Meta) :
  parse_filename file = Ok (Some meta) ->
  consistent ((POINT meta, DATE meta, REGION meta, CROP_TYPE meta),
              new_record meta).
Proof.
  intros H.
  destruct (parse_filename_inv file meta H)
    as (p & d & r & crop & s & n & _ & _ & _ & ->).
  repeat split.
Qed.

Lemma set_slot_consistent (sensor : string) (image_bytes : bytes)
  (k : Identifier) (v : GroupRecord) :
  In sensor sensors -> consistent (k, v) ->
  consistent (k, set_slot sensor image_bytes v).
Proof.
  intros Hs (Hkey & Hlabel & Hwf). cbn [fst snd] in *.
  split; [exact Hkey|]. split; [exact Hlabel|]. cbn [fst snd].
  unfold well_formed, set_slot in *. cbn [rec_slots].
  rewrite dict_set_keys; [exact Hwf|]. now rewrite Hwf.
Qed.

Lemma filed_collected (g : Groups) (file : string) (meta : Meta)
  (image_bytes : bytes) :
  parse_filename file = Ok (Some meta) ->
  NoDup (map fst g) /\ Forall consistent g ->
  NoDup (map fst (filed g meta image_bytes))
  /\ Forall consistent (filed g meta image_bytes).
Proof.
  intros Hparse [Hnd Hall]. unfold filed.
  set (identifier := (POINT meta, DATE meta, REGION meta, CROP_TYPE meta)).
  set (g1 := if negb (dict_mem identifier_eqb g identifier)
             then dict_set identifier_eqb g identifier (new_record meta)
             else g).
  assert (H1 : NoDup (map fst g1) /\ Forall consistent g1).
  { unfold g1. destruct (dict_mem identifier_eqb g identifier) eqn:Hmem;
      cbn [negb]; [now split|].
    rewrite (dict_set_new identifier_eqb) by exact Hmem. split.
    - rewrite map_app. cbn [map fst].
      apply NoDup_app; [exact Hnd | constructor; [intros [] | constructor] |].
      intros k Hk [<- | []].
      apply (dict_mem_In identifier_eqb identifier_eqb_eq) in Hk. congruence.
    - apply Forall_app. split; [exact Hall|].
      constructor; [|constructor]. now apply (new_record_consistent file). }
  destruct H1 as [Hnd1 Hall1].
  destruct (existsb (String.eqb (SENSOR_TYPE meta)) sensors) eqn:Hknown;
    [|now split].
  split.
  - now rewrite dict_update_same_keys.
  - apply dict_update_Forall; [exact Hall1|].
    intros k v. apply set_slot_consistent.
    apply existsb_exists in Hknown as [x [Hx E]].
    apply String.eqb_eq in E. now subst x.
Qed.

(** X6. Whatever the tree holds, and whether the scan ends or is cut short
    by an exception, the groups the collector has built are keyed without
    repetition, each by the point, date, region and crop type of its own
    record, each labelled with the position of its crop type in the crop
    table (-1 for an unknown crop), and each with exactly one slot per
    required sensor. *)
Theorem collect_keeps_groups_consistent (fs : FileSystem) :
  collected (snd (collect fs initial_state)).
Proof.
  apply collect_invariant; [|split; constructor].
  intros file st Hst.
  destruct (process_file_cases fs file st) as [[E | E] _].
  - unfold collected. now rewrite E.
  - destruct E as (meta & image_bytes & Hparse & E).
    unfold collected. rewrite E. now apply (filed_collected _ file).
Qed.

Lemma extends_refl (st : ScanState) : extends st st.
Proof.
  split; [|exists []; now rewrite app_nil_r].
  intros id v H. now exists v.
Qed.

Lemma extends_trans (a b c : ScanState) : extends a b -> extends b c -> extends a c.
Proof.
  intros [Hab [m1 E1]] [Hbc [m2 E2]]. split.
  - intros id v H. destruct (Hab id v H) as [v' [H' Hp]].
    destruct (Hbc id v' H') as [v'' [H'' Hp']].
    exists v''. split; [exact H''|]. auto.
  - exists (m1 ++ m2). now rewrite E2, E1, app_assoc.
Qed.

Lemma for_each_extends {A : Type} (body : A -> Scan unit) (l : list A) :
  (forall x st, extends st (snd (body x st))) ->
  forall st, extends st (snd (for_each l body st)).
Proof.
  intros Hbody. induction l as [|x l IH]; intros st; [apply extends_refl|].
  cbn [for_each]. unfold bind. specialize (Hbody x st).
  destruct (body x st) as [[[]|e] st']; cbn [snd] in *; [|exact Hbody].
  eapply extends_trans; [exact Hbody | apply IH].
Qed.

Lemma process_file_extends (fs : FileSystem) (file : string) (st : ScanState) :
  extends st (snd (process_file fs file st)).
Proof.
  destruct (process_file_cases fs file st) as [[E | E] [Hout _]].
  - split; [|exact Hout]. rewrite E. intros id v H. now exists v.
  - destruct E as (meta & image_bytes & _ & E). split; [|exact Hout].
    rewrite E. intros id v H.
    destruct (filed_get (groups st) meta image_bytes) as [Hsame Hother].
    set (identifier := (POINT meta, DATE meta, REGION meta, CROP_TYPE meta))
      in *.
    assert (Hdec : id = identifier \/ id <> identifier).
    { destruct (identifier_eqb id identifier) eqn:Eid.
      - left. now apply identifier_eqb_eq.
      - right. intros ->.
        now rewrite (proj2 (identifier_eqb_eq identifier identifier) eq_refl)
          in Eid. }
    destruct Hdec as [-> | Hne].
    + rewrite H in Hsame. eexists. split; [exact Hsame|].
      intros sensor Hp.
      destruct (existsb (String.eqb (SENSOR_TYPE meta)) sensors); [|exact Hp].
      unfold presentb in *. rewrite set_slot_get.
      now destruct (String.eqb sensor (SENSOR_TYPE meta)).
    + exists v. split; [|auto]. now rewrite Hother.
Qed.

(** X7. The scan only ever adds: after it, normally ended or not, every
    group that was there is still there, every sensor slot that held bytes
    still holds bytes, and the output starts with what was printed before.
    The only exception it lets out is [ValueError]. *)
Theorem collect_only_adds (fs : FileSystem) (st : ScanState) :
  extends st (snd (collect fs st))
  /\ forall e, fst (collect fs st) = Raise e -> e = ValueError.
Proof.
  split.
  - unfold collect. apply for_each_extends. intros sensor_dir st'.
    destruct (negb (isdir fs (path_join base_dir sensor_dir)));
      [apply extends_refl|].
    apply for_each_extends. intros [root files] st''.
    apply for_each_extends. intros file st3. apply process_file_extends.
  - unfold collect. apply for_each_raise_only. intros sensor_dir st' e.
    destruct (negb (isdir fs (path_join base_dir sensor_dir)));
      [discriminate|].
    apply for_each_raise_only. intros [root files] st'' e'.
    apply for_each_raise_only. intros file st3 e''.
    apply (process_file_cases fs file st3).
Qed.


Lemma complete_groups_kept (g cg : Groups) :
  complete_groups g = Ok cg ->
  Forall (fun kv => all_present (snd kv) sensors = Ok true) cg.
Proof.
  revert cg. induction g as [|[k v] g IH]; intros cg; cbn [complete_groups].
  - intros H. inversion H. constructor.
  - destruct (all_present v sensors) as [keep|] eqn:Ev; [|discriminate].
    cbn [rbind]. destruct (complete_groups g) as [rest|]; [|discriminate].
    cbn [rbind]. intros H. inversion H; subst.
    destruct keep; [constructor; [exact Ev|] |]; now apply IH.
Qed.

(** X9. Filtering twice changes nothing: whenever the completeness filter
    returns, applying it to its own result returns that result again. *)
Theorem complete_groups_idempotent (g cg : Groups) :
  complete_groups g = Ok cg -> complete_groups cg = Ok cg.
Proof.
  intros H. apply complete_groups_kept in H.
  induction H as [|[k v] cg Hv _ IH]; [reflexivity|].
  cbn [complete_groups]. cbn [snd] in Hv. rewrite Hv. cbn [rbind].
  now rewrite IH.
Qed.

Lemma complete_groups_idempotent_witness :
  complete_groups
    [((1, "20170601", "R1", "CORN"), Examples.full_record 1);
     ((3, "20170601", "R1", "CORN"), Examples.full_record 3)]
  = Ok [((1, "20170601", "R1", "CORN"), Examples.full_record 1);
        ((3, "20170601", "R1", "CORN"), Examples.full_record 3)].
Proof.
  apply (complete_groups_idempotent Examples.three_groups). reflexivity.
Defined.

End CollectorFacts.

(** ** Facts about the cell that writes the HDF5 file *)
Module WriterFacts.
Import Py Dataset Writer.

Lemma repeat_all_empty (n : nat) :
  Forall (fun b : bytes => b = []) (repeat [] n).
Proof. induction n; simpl; constructor; auto. Qed.

(** X10. The cell that writes the HDF5 file never gets to its end: it
    creates each of the six sensor datasets empty and then asks to create a
    dataset of the same name again, which the file refuses.  Whatever the
    records, the cell fails, and the file, if it was opened at all, holds no
    byte of image data; with complete records whose points and labels fit 64
    bits, the failure is the refused second "RGB". *)
Theorem write_cell_never_completes (records : list GroupRecord) :
  exists e hf,
    write_cell records = (Failed e, hf)
    /\ (forall file, hf = Some file -> no_image_bytes file)
    /\ (forallb in_int64 (map rec_POINT records) = true ->
        forallb in_int64 (map rec_LABEL records) = true ->
        forall file, hf = Some file ->
          e = NameAlreadyExists "RGB"
          /\ map fst file
             = ["POINT"; "DATE"; "REGION"; "CROP_TYPE"; "LABEL"; "RGB"; "NDVI";
                "NDVI45"; "OSAVI"; "PSRI"; "GNDVI"]).
Proof.
  unfold write_cell.
  destruct (sensor_images "RGB" records) as [rgb|e];
    [|exists e, None; repeat split; discriminate].
  destruct (sensor_images "NDVI" records) as [ndvi|e];
    [|exists e, None; repeat split; discriminate].
  destruct (sensor_images "NDVI45" records) as [ndvi45|e];
    [|exists e, None; repeat split; discriminate].
  destruct (sensor_images "OSAVI" records) as [osavi|e];
    [|exists e, None; repeat split; discriminate].
  destruct (sensor_images "PSRI" records) as [psri|e];
    [|exists e, None; repeat split; discriminate].
  destruct (sensor_images "GNDVI" records) as [gndvi|e];
    [|exists e, None; repeat split; discriminate].
  unfold write_datasets, create_int64.
  destruct (forallb in_int64 (map rec_POINT records)) eqn:Hp.
  - destruct (forallb in_int64 (map rec_LABEL records)) eqn:Hl.
    + eexists. eexists. split; [reflexivity|]. split.
      * intros file H. inversion H; subst file. clear H.
        intros name data Hin. cbn in Hin.
        repeat (destruct Hin as [Hin | Hin];
                [inversion Hin; subst; apply repeat_all_empty|]).
        destruct Hin.
      * intros _ _ file H. inversion H. split; reflexivity.
    + eexists. eexists. split; [reflexivity|]. split.
      * intros file H. inversion H; subst file. clear H.
        intros name data Hin. cbn in Hin.
        repeat (destruct Hin as [Hin | Hin]; [discriminate Hin|]).
        destruct Hin.
      * intros _ Hl'. discriminate Hl'.
  - eexists. eexists. split; [reflexivity|]. split.
    + intros file H. inversion H; subst file. intros name data [].
    + intros Hp'. discriminate Hp'.
Qed.

End WriterFacts.

(** ** More facts about the sequence builder *)
Module BuilderFacts.
Import Py PyFacts NN SequenceVocabulary SequenceFacts.




(** *** Every sequence of the output *)

Lemma nodup_one (l : list Z) (x y : Z) :
  List.length (nodup Z.eq_dec l) = 1%nat -> In x l -> In y l -> x = y.
Proof.
  intros Hlen Hx Hy.
  apply (nodup_In Z.eq_dec) in Hx. apply (nodup_In Z.eq_dec) in Hy.
  destruct (nodup Z.eq_dec l) as [|a [|b rest]]; try discriminate.
  destruct Hx as [<-|[]], Hy as [<-|[]]. reflexivity.
Qed.

Lemma Forall2_map_repeat {A B C : Type} (P : B -> C -> Prop) (f : A -> B)
  (c : C) (l : list A) :
  (forall i, In i l -> P (f i) c) ->
  Forall2 P (map f l) (repeat c (List.length l)).
Proof.
  induction l as [|i l IH]; intros H; [constructor|].
  cbn [map List.length repeat]. constructor; [apply H; now left|].
  apply IH. intros j Hj. apply H. now right.
Qed.

Lemma Sorted_skipn {A : Type} (R : A -> A -> Prop) (n : nat) (l : list A) :
  Sorted R l -> Sorted R (skipn n l).
Proof.
  revert l. induction n as [|n IH]; intros l H; [exact H|].
  destruct l as [|x l]; [constructor|]. cbn [skipn]. apply IH.
  now inversion H.
Qed.

Lemma Sorted_firstn {A : Type} (R : A -> A -> Prop) (n : nat) (l : list A) :
  Sorted R l -> Sorted R (firstn n l).
Proof.
  revert l. induction n as [|n IH]; intros l H; [constructor|].
  destruct l as [|x l]; [constructor|]. cbn [firstn].
  inversion H as [|? ? Hs Hhd]; subst. constructor; [now apply IH|].
  destruct l as [|y l]; [destruct n; constructor|].
  destruct n; [constructor|]. cbn [firstn]. constructor. now inversion Hhd.
Qed.

Lemma slice_sorted {A : Type} (R : A -> A -> Prop) (l : list A) (lo hi : Z) :
  Sorted R l -> Sorted R (slice l lo hi).
Proof. intros H. unfold slice. now apply Sorted_firstn, Sorted_skipn. Qed.

(** The sequences of one point: each is sorted by date, made of records of
    the point, and labelled with the label all its records carry. *)
Lemma contribution_sequences (L : Z) (q : Z) (records : list DecodedRecord) :
  Forall2
    (fun s l =>
       Sorted date_le s
       /\ Forall (fun r => In r records /\ POINT r = q /\ LABEL r = l) s)
    (fst (contribution L (records_of q records)))
    (snd (contribution L (records_of q records))).
Proof.
  unfold contribution, point_sequences.
  set (recs := records_of q records).
  pose proof (sort_by_date_perm recs) as Hperm.
  pose proof (sort_by_date_sorted recs) as Hsorted.
  destruct (len (label_set (sort_by_date recs)) =? 1) eqn:E; cbn [negb];
    [|constructor].
  destruct (sort_by_date recs) as [|r0 sorted] eqn:Es; [discriminate E|].
  change (getitem (r0 :: sorted) 0) with (Ok r0). cbn [rbind fst snd].
  unfold range, replicate.
  set (n := Z.to_nat (len (r0 :: sorted) - L + 1)).
  replace (repeat (LABEL r0) n)
    with (repeat (LABEL r0) (List.length (map Z.of_nat (seq 0 n))))
    by now rewrite length_map, length_seq.
  apply Forall2_map_repeat. intros i _. split.
  - now apply slice_sorted.
  - apply Forall_forall. intros r Hr. apply slice_incl in Hr.
    assert (Hin : In r recs) by (eapply Permutation_in; eauto).
    apply filter_In in Hin as [Hin Hq]. apply Z.eqb_eq in Hq.
    split; [exact Hin|]. split; [exact Hq|].
    apply Z.eqb_eq in E. unfold len in E.
    apply (nodup_one (map LABEL (r0 :: sorted))).
    + unfold label_set in E. lia.
    + now apply in_map.
    + apply in_map. now left.
Qed.

Lemma contribution_lengths (L : nat) (recs : list DecodedRecord) :
  Forall (fun s => List.length s = L) (fst (contribution (Z.of_nat L) recs)).
Proof.
  unfold contribution, point_sequences.
  destruct (len (label_set (sort_by_date recs)) =? 1); cbn [negb];
    [|constructor].
  destruct (sort_by_date recs) as [|r0 sorted] eqn:Es; [constructor|].
  change (getitem (r0 :: sorted) 0) with (Ok r0). cbn [rbind fst].
  apply Forall_forall. intros s Hs. unfold range in Hs.
  rewrite map_map in Hs. apply in_map_iff in Hs as [i [<- Hi]].
  apply in_seq in Hi. unfold len in Hi.
  rewrite slice_window by lia.
  rewrite length_firstn, length_skipn. lia.
Qed.

Lemma Forall2_flat_map {A B C : Type} (P : B -> C -> Prop)
  (f : A -> list B) (g : A -> list C) (l : list A) :
  (forall x, In x l -> Forall2 P (f x) (g x)) ->
  Forall2 P (flat_map f l) (flat_map g l).
Proof.
  induction l as [|x l IH]; intros H; [constructor|].
  cbn [flat_map]. apply Forall2_app; [apply H; now left|].
  apply IH. intros y Hy. apply H. now right.
Qed.

Lemma group_lists (records : list DecodedRecord) (l : list DecodedRecord) :
  In l (map snd (group_by_point records)) ->
  exists q, l = records_of q records /\ l <> [].
Proof.
  intros H. apply in_map_iff in H as [[q l'] [E H]]. simpl in E. subst l'.
  destruct (group_by_point_grouped records) as (_ & Hlists & _).
  exists q. now apply Hlists.
Qed.

(** X11. The builder never raises, whatever the records and whatever the
    window width, negative widths included.  It returns as many labels as
    sequences, and the line it prints carries the number of sequences and
    the number of distinct points among the records. *)
Theorem create_sequences_never_raises (L : Z) (records : list DecodedRecord) :
  exists sequences labels,
    create_sequences L records
    = Ok (sequences, labels,
          Created (len sequences)
            (len (nodup Z.eq_dec (map POINT records))))
    /\ List.length labels = List.length sequences.
Proof.
  rewrite create_sequences_concat.
  destruct (group_by_point_grouped records) as (Hnd & Hlists & Hkeys).
  assert (Hcount : List.length (group_by_point records)
                   = List.length (nodup Z.eq_dec (map POINT records))).
  { rewrite <- (length_map fst). apply Permutation_length.
    apply NoDup_Permutation; [exact Hnd | apply NoDup_nodup|].
    intros q. rewrite nodup_In. split.
    - intros Hq. apply in_map_iff in Hq as [[q' l] [E Hin]]. simpl in E.
      subst q'. destruct (Hlists _ _ Hin) as [-> Hne].
      destruct (records_of q records) as [|r rs] eqn:Er; [congruence|].
      assert (Hr : In r (records_of q records)) by (rewrite Er; now left).
      apply filter_In in Hr as [Hr Hq]. apply Z.eqb_eq in Hq.
      apply in_map_iff. now exists r.
    - intros Hq. apply in_map_iff in Hq as [r [<- Hr]]. now apply Hkeys. }
  eexists. eexists. split.
  - unfold len at 2. rewrite Hcount. reflexivity.
  - induction (map snd (group_by_point records)) as [|l ls IH];
      [reflexivity|].
    cbn [flat_map]. rewrite !length_app, IH. f_equal.
    destruct (point_sequences_total L l) as (ss & lb & E & _ & Hl).
    unfold contribution. rewrite E. simpl. now rewrite Hl.
Qed.

(** X12. Each sequence the builder returns is made of records of the input
    that belong to one point and carry one label, which is the label
    returned at the same position. *)
Theorem create_sequences_homogeneous (L : Z) (records : list DecodedRecord) :
  exists sequences labels line,
    create_sequences L records = Ok (sequences, labels, line)
    /\ Forall2
         (fun s l =>
            exists p,
              Forall (fun r => In r records /\ POINT r = p /\ LABEL r = l) s)
         sequences labels.
Proof.
  do 3 eexists. split; [apply create_sequences_concat|].
  apply Forall2_flat_map. intros l Hl.
  destruct (group_lists records l Hl) as [q [-> _]].
  eapply Forall2_impl; [|apply contribution_sequences].
  intros s lab [_ H]. now exists q.
Qed.

(** X13. For a window width [L] that is not negative, each sequence the
    builder returns has exactly [L] records, in ascending order of their
    date tokens. *)
Theorem create_sequences_sorted_windows (L : nat) (records : list DecodedRecord) :
  exists sequences labels line,
    create_sequences (Z.of_nat L) records = Ok (sequences, labels, line)
    /\ Forall (fun s => List.length s = L /\ Sorted date_le s) sequences.
Proof.
  do 3 eexists. split; [apply create_sequences_concat|].
  apply Forall_forall. intros s Hs.
  apply in_flat_map in Hs as [l [Hl Hs]].
  destruct (group_lists records l Hl) as [q [-> _]]. split.
  - exact (proj1 (Forall_forall _ _) (contribution_lengths L _) s Hs).
  - pose proof (contribution_sequences (Z.of_nat L) q records) as H.
    revert Hs. induction H as [|s' lab ss ls [Hsorted _] _ IH];
      intros Hs; [destruct Hs|].
    destruct Hs as [<- | Hs]; [exact Hsorted | now apply IH].
Qed.

End BuilderFacts.

(** ** More facts about the splitter *)
Module PartitionFacts.
Import Py PyFacts NN FloatVocabulary FloatFacts SplitVocabulary
  PartitionVocabulary SplitFacts.

(** *** Fetching by position *)

Lemma mapM_app {A B : Type} (f : A -> result B) (l1 l2 : list A)
  (ys : list B) :
  mapM f (l1 ++ l2) = Ok ys ->
  exists y1 y2, mapM f l1 = Ok y1 /\ mapM f l2 = Ok y2 /\ ys = y1 ++ y2.
Proof.
  intros H. apply mapM_Forall2 in H. apply Forall2_app_inv_l in H
    as (y1 & y2 & H1 & H2 & ->).
  exists y1, y2. split; [now apply mapM_Forall2|].
  split; [now apply mapM_Forall2 | reflexivity].
Qed.

Lemma mapM_raise {A B : Type} (f : A -> result B) (l : list A) (e : Exn) :
  mapM f l = Raise e -> exists x, In x l /\ f x = Raise e.
Proof.
  induction l as [|x l IH]; cbn [mapM]; [discriminate|].
  destruct (f x) as [y|e'] eqn:Ef; cbn [rbind].
  - destruct (mapM f l) as [ys|e'] eqn:Em; cbn [rbind]; [discriminate|].
    intros H. inversion H; subst e'.
    destruct (IH eq_refl) as [z [Hz Hfz]]. exists z. split; [now right|].
    exact Hfz.
  - intros H. inversion H; subst e'. exists x. split; [now left | exact Ef].
Qed.

Lemma getitem_raise {A : Type} (l : list A) (i : Z) (e : Exn) :
  getitem l i = Raise e -> e = IndexError.
Proof.
  unfold getitem.
  destruct ((if i <? 0 then len l + i else i) <? 0); [congruence|].
  destruct (nth_error l _); congruence.
Qed.

Lemma indices_in_from (points part : list Z) :
  indices_in points part = indices_from 0 points part.
Proof.
  unfold indices_in, indices_from, enumerate, range, len.
  now rewrite Nat2Z.id.
Qed.

Lemma indices_from_ge (k : nat) (points part : list Z) (i : Z) :
  In i (indices_from k points part) -> Z.of_nat k <= i.
Proof.
  unfold indices_from. intros H.
  apply in_map_iff in H as [[i' p] [E H]]. simpl in E. subst i'.
  apply filter_In in H as [H _]. apply in_combine_l in H.
  apply in_map_iff in H as [j [<- Hj]]. apply in_seq in Hj. lia.
Qed.

Lemma indices_from_cons (k : nat) (p : Z) (points part : list Z) :
  indices_from k (p :: points) part
  = if existsb (Z.eqb p) part
    then Z.of_nat k :: indices_from (S k) points part
    else indices_from (S k) points part.
Proof.
  unfold indices_from. cbn [List.length seq map combine filter snd].
  now destruct (existsb (Z.eqb p) part).
Qed.

(** Fetching the positions of a part gives the entries that stand at the
    points of the part, in their order. *)
Lemma getitem_indices_from {A : Type} (part points : list Z) (l pre X : list A) :
  mapM (getitem (pre ++ l)) (indices_from (List.length pre) points part) = Ok X ->
  X = select part points l.
Proof.
  revert l pre X. induction points as [|p points IH]; intros l pre X H.
  - inversion H. reflexivity.
  - destruct l as [|x l].
    + rewrite app_nil_r in H. unfold select. cbn [combine filter map].
      destruct (indices_from (List.length pre) (p :: points) part)
        as [|i idx] eqn:E; [now inversion H|].
      assert (Hi : Z.of_nat (List.length pre) <= i).
      { apply (indices_from_ge _ (p :: points) part). rewrite E. now left. }
      cbn [mapM] in H. unfold getitem in H.
      replace (i <? 0) with false in H by (symmetry; apply Z.ltb_ge; lia).
      replace (i <? 0) with false in H by (symmetry; apply Z.ltb_ge; lia).
      replace (nth_error pre (Z.to_nat i)) with (@None A) in H
        by (symmetry; apply nth_error_None; lia).
      discriminate H.
    + rewrite indices_from_cons in H. unfold select.
      cbn [combine filter fst].
      assert (Hpre : pre ++ x :: l = (pre ++ [x]) ++ l)
        by now rewrite <- app_assoc.
      assert (Hlen : S (List.length pre) = List.length (pre ++ [x]))
        by (rewrite length_app; simpl; lia).
      destruct (existsb (Z.eqb p) part).
      * cbn [mapM] in H. rewrite getitem_nat in H.
        rewrite nth_error_app2, Nat.sub_diag in H by lia.
        cbn [nth_error rbind] in H. rewrite Hpre, Hlen in H.
        destruct (mapM _ _) as [X'|] eqn:E; [|discriminate].
        cbn [rbind] in H. inversion H; subst X. cbn [map snd]. f_equal.
        now apply (IH l (pre ++ [x])).
      * rewrite Hpre, Hlen in H. now apply (IH l (pre ++ [x])).
Qed.

Lemma getitem_indices_in {A : Type} (part points : list Z) (l X : list A) :
  mapM (getitem l) (indices_in points part) = Ok X ->
  X = select part points l.
Proof.
  rewrite indices_in_from. exact (getitem_indices_from part points l [] X).
Qed.

Lemma nth_error_combine {A B : Type} (l : list A) (l' : list B) (j : nat)
  (a : A) (b : B) :
  nth_error l j = Some a -> nth_error l' j = Some b -> In (a, b) (combine l l').
Proof.
  revert l l'. induction j as [|j IH]; intros [|x l] [|y l'] Ha Hb;
    try discriminate.
  - inversion Ha; inversion Hb; subst. now left.
  - right. now apply IH.
Qed.

(** The rows fetched for drawn positions are rows fetched before, each with
    the label fetched with it. *)
Lemma drawn_rows {A B : Type} (xs : list A) (ys : list B) (idx : list Z)
  (X : list A) (Y : list B) (extra : list nat) (DX : list A) (DY : list B) :
  Forall2 (fun i x => getitem xs i = Ok x) idx X ->
  Forall2 (fun i y => getitem ys i = Ok y) idx Y ->
  Forall (fun j => (j < List.length idx)%nat) extra ->
  mapM (getitem xs) (map (fun j => nth j idx 0) extra) = Ok DX ->
  mapM (getitem ys) (map (fun j => nth j idx 0) extra) = Ok DY ->
  exists dup,
    DX = map fst dup /\ DY = map snd dup
    /\ Forall (fun xy => In xy (combine X Y)) dup.
Proof.
  intros HX HY Hextra. revert DX DY.
  induction Hextra as [|j extra Hj _ IH]; intros DX DY H1 H2.
  - inversion H1; inversion H2. exists []. repeat split. constructor.
  - cbn [map mapM] in H1, H2.
    destruct (getitem xs (nth j idx 0)) as [x|] eqn:Ex; [|discriminate].
    destruct (getitem ys (nth j idx 0)) as [y|] eqn:Ey; [|discriminate].
    cbn [rbind] in H1, H2.
    destruct (mapM (getitem xs) _) as [DX'|]; [|discriminate].
    destruct (mapM (getitem ys) _) as [DY'|]; [|discriminate].
    cbn [rbind] in H1, H2. inversion H1; inversion H2; subst.
    destruct (IH DX' DY' eq_refl eq_refl) as (dup & -> & -> & Hdup).
    exists ((x, y) :: dup). split; [reflexivity|]. split; [reflexivity|].
    constructor; [|exact Hdup].
    assert (Hn : nth_error idx j = Some (nth j idx 0))
      by now apply nth_error_nth'.
    destruct (Forall2_nth_error_l _ _ _ _ _ HX Hn) as [x' [Hx' Hgx]].
    destruct (Forall2_nth_error_l _ _ _ _ _ HY Hn) as [y' [Hy' Hgy]].
    cbn beta in Hgx, Hgy.
    assert (x' = x) by congruence. assert (y' = y) by congruence. subst.
    now apply (nth_error_combine _ _ j).
Qed.

(** *** The minority and the majority of the over-sampler *)

(** [min] returns the first entry of least count. *)
Lemma min_key_first (stats : list (Z * nat)) (best : Z * nat) :
  exists pre post,
    best :: stats = pre ++ min_key stats best :: post
    /\ (forall x, In x pre -> (snd (min_key stats best) < snd x)%nat)
    /\ (forall x, In x post -> (snd (min_key stats best) <= snd x)%nat).
Proof.
  revert best. induction stats as [|[c n] stats IH]; intros best.
  - exists [], []. repeat split; intros x [].
  - cbn [min_key]. destruct (n <? snd best)%nat eqn:Eb.
    + apply Nat.ltb_lt in Eb.
      destruct (IH (c, n)) as (pre & post & E & Hpre & Hpost).
      exists (best :: pre), post. rewrite E. split; [reflexivity|].
      split; [|exact Hpost].
      intros x [<- | Hx]; [|now apply Hpre].
      assert (Hin : In (c, n) (pre ++ min_key stats (c, n) :: post))
        by (rewrite <- E; now left).
      apply in_app_or in Hin as [Hin | [Hin | Hin]].
      * specialize (Hpre _ Hin). simpl in Hpre. lia.
      * rewrite Hin. simpl. lia.
      * specialize (Hpost _ Hin). simpl in Hpost. lia.
    + apply Nat.ltb_ge in Eb.
      destruct (IH best) as (pre & post & E & Hpre & Hpost).
      destruct pre as [|b pre]; cbn [app] in E.
      * injection E as Hbest Hstats. exists [], ((c, n) :: post).
        cbn [app]. rewrite <- Hbest, Hstats.
        split; [reflexivity|]. split; [intros x []|].
        intros x [<- | Hx]; [exact Eb|].
        rewrite Hbest. now apply Hpost.
      * injection E as Hb Hstats. subst b.
        exists (best :: (c, n) :: pre), post.
        split; [cbn [app]; do 2 f_equal; exact Hstats|].
        split; [|exact Hpost].
        pose proof (Hpre best (or_introl eq_refl)) as Hbest.
        intros x [<- | [<- | Hx]]; [exact Hbest | simpl; lia|].
        apply Hpre. now right.
Qed.

Lemma sorted_after (l1 l2 : list Z) (a x : Z) :
  StronglySorted Z.lt (l1 ++ a :: l2) -> In x l2 -> a < x.
Proof.
  induction l1 as [|b l1 IH]; cbn [app]; intros H Hx.
  - apply StronglySorted_inv in H as [_ H].
    exact (proj1 (Forall_forall _ _) H x Hx).
  - apply StronglySorted_inv in H as [H _]. now apply IH.
Qed.

Lemma class_minority_spec (y : list Z) (m : Z) :
  class_minority (target_stats y) = Some m -> minority_of y m.
Proof.
  unfold class_minority, target_stats.
  pose proof (np_unique_sorted y) as Hsorted.
  assert (HU : forall c, In c (np_unique y) <-> In c y)
    by (intros c; apply np_unique_In).
  set (f := fun c => (c, count c y)) in *.
  destruct (np_unique y) as [|u U] eqn:EU; [discriminate|].
  cbn [map]. intros H. inversion H as [Hm]. clear H.
  destruct (min_key_first (map f U) (f u)) as (pre & post & E & Hpre & Hpost).
  set (r := min_key (map f U) (f u)) in *.
  change (f u :: map f U) with (map f (u :: U)) in E.
  assert (Hr : In r (map f (u :: U))) by (rewrite E; apply in_elt).
  apply in_map_iff in Hr as [m' [Hfm Hm']].
  assert (m' = m) by (rewrite <- Hfm in Hm; exact Hm). subst m'.
  assert (Hkeys : u :: U = map fst pre ++ m :: map fst post).
  { transitivity (map fst (map f (u :: U))).
    - rewrite map_map. unfold f. cbn [fst]. now rewrite map_id.
    - rewrite E, map_app. cbn [map]. now rewrite <- Hfm. }
  rewrite Hm. split; [now apply HU|].
  intros d Hd. apply HU in Hd.
  assert (Hfd : In (f d) (pre ++ r :: post))
    by (rewrite <- E; now apply in_map).
  rewrite <- Hfm in Hpre, Hpost. cbn [snd] in Hpre, Hpost.
  apply in_app_or in Hfd as [Hin | [Hin | Hin]].
  - specialize (Hpre _ Hin). cbn in Hpre. split; lia.
  - rewrite <- Hfm in Hin. inversion Hin; subst d. split; lia.
  - pose proof (Hpost _ Hin) as Hle. cbn in Hle. split; [exact Hle|].
    intros _. apply Z.lt_le_incl.
    apply (sorted_after (map fst pre) (map fst post)).
    + now rewrite <- Hkeys.
    + change d with (fst (f d)). now apply in_map.
Qed.

Lemma max_attained (l : list nat) :
  l <> [] -> In (fold_right Nat.max 0%nat l) l.
Proof.
  induction l as [|a l IH]; [congruence|]. intros _. cbn [fold_right].
  destruct l as [|b l]; [left; cbn; lia|].
  specialize (IH ltac:(discriminate)).
  destruct (Nat.max_spec a (fold_right Nat.max 0%nat (b :: l)))
    as [[_ ->] | [_ ->]]; [now right | now left].
Qed.

Lemma n_sample_majority_spec (y : list Z) :
  y <> [] -> majority_count y (n_sample_majority (target_stats y)).
Proof.
  intros Hy. unfold n_sample_majority, target_stats. split.
  - assert (Hne : map snd (map (fun c => (c, count c y)) (np_unique y))
                  <> []).
    { destruct y as [|c y]; [congruence|].
      assert (Hc : In c (np_unique (c :: y)))
        by (apply np_unique_In; now left).
      destruct (np_unique (c :: y)); [destruct Hc | discriminate]. }
    pose proof (max_attained _ Hne) as Hin.
    rewrite map_map in Hin. cbn [snd] in Hin.
    apply in_map_iff in Hin as [d [Hd Hin]].
    exists d. split; [now apply np_unique_In|].
    now rewrite map_map.
  - intros d. destruct (in_dec Z.eq_dec d y) as [Hd | Hd].
    + apply count_le_majority. now apply np_unique_In.
    + unfold count. rewrite (proj1 (count_occ_not_In Z.eq_dec y d) Hd). lia.
Qed.

(** *** Sizes of a split *)

(** A split whose fraction is a positive float takes at least one entry out
    of a non-empty list: the float product does not round to zero. *)
Lemma test_count_positive (f : Q) (n : nat) :
  on_grid f -> Qle_bool f 0 = false -> (0 < n)%nat ->
  (0 < test_count f n)%nat.
Proof.
  intros Hgrid Hf Hn.
  assert (Hpos : (0 < f)%Q).
  { apply Qnot_le_lt. intros H. apply Qle_bool_iff in H. congruence. }
  pose proof (on_grid_positive f Hgrid Hpos) as Hmin.
  assert (Hprod : (2 ^ (-1074) <= f * inject_Z (Z.of_nat n))%Q).
  { eapply Qle_trans; [exact Hmin|].
    rewrite <- (Qmult_1_r f) at 1.
    apply Qmult_le_l; [exact Hpos|].
    change 1%Q with (inject_Z 1). rewrite <- Zle_Qle. lia. }
  apply round64_positive in Hprod.
  pose proof (Qle_ceiling (round64 (f * inject_Z (Z.of_nat n)))) as Hc.
  pose proof (Qlt_le_trans _ _ _ Hprod Hc) as H.
  change 0%Q with (inject_Z 0) in H. rewrite <- Zlt_Qlt in H.
  unfold test_count. lia.
Qed.

(** [1 - test_size] is not zero for a float [test_size] below 1. *)
Lemma one_minus_positive (f : Q) :
  on_grid f -> Qle_bool 1 f = false -> (0 < round64 (1 - f))%Q.
Proof.
  intros Hgrid Hf. apply round64_positive, on_grid_positive.
  - now apply on_grid_complement.
  - assert (Hlt : (f < 1)%Q).
    { apply Qnot_le_lt. intros H. apply Qle_bool_iff in H. congruence. }
    rewrite <- (Qplus_opp_r f). unfold Qminus.
    apply Qplus_lt_l. exact Hlt.
Qed.

Section Environment.

Variable list_set : list Z -> list Z.
Variable permutation : Z -> nat -> list nat.

Hypothesis list_set_NoDup : forall l, NoDup (list_set l).
Hypothesis list_set_In : forall l x, In x (list_set l) <-> In x l.
Hypothesis permutation_Permutation :
  forall seed n, Permutation (permutation seed n) (seq 0 n).

(** What a successful split went through: a fraction strictly between 0 and
    1, and parts of [ceil(fraction * n)] and of the remaining entries, the
    latter not empty. *)
Lemma train_test_split_inv {A : Type} (arr : list A) (fraction : Q)
  (seed : Z) (train test : list A) :
  train_test_split permutation arr fraction seed = Ok (train, test) ->
  Qle_bool fraction 0 = false
  /\ Qle_bool 1 fraction = false
  /\ (test_count fraction (List.length arr) < List.length arr)%nat
  /\ List.length test = test_count fraction (List.length arr)
  /\ List.length train
     = (List.length arr - test_count fraction (List.length arr))%nat.
Proof.
  intros H.
  assert (Hchecks : Qle_bool fraction 0 = false
                    /\ Qle_bool 1 fraction = false
                    /\ (test_count fraction (List.length arr)
                        < List.length arr)%nat).
  { revert H. unfold train_test_split, test_count.
    destruct (Qle_bool fraction 0); [discriminate|].
    destruct (Qle_bool 1 fraction); [discriminate|]. cbn [orb].
    destruct (_ =? 0)%nat eqn:En; [discriminate|].
    apply Nat.eqb_neq in En. intros _. repeat split. lia. }
  destruct Hchecks as (H0 & H1 & Hlt).
  destruct (train_test_split_run permutation permutation_Permutation
              arr fraction seed _ H0 H1 eq_refl Hlt)
    as (train' & test' & Hrun & _ & Hte & Htr).
  rewrite H in Hrun. inversion Hrun; subst train' test'. auto.
Qed.

Lemma train_test_split_raise {A : Type} (arr : list A) (fraction : Q)
  (seed : Z) (e : Exn) :
  train_test_split permutation arr fraction seed = Raise e -> e = ValueError.
Proof.
  intros H.
  destruct (Qle_bool fraction 0) eqn:H0;
    [unfold train_test_split in H; rewrite H0 in H; cbn in H; congruence|].
  destruct (Qle_bool 1 fraction) eqn:H1;
    [unfold train_test_split in H; rewrite H0, H1 in H; cbn in H; congruence|].
  destruct (List.length arr - test_count fraction (List.length arr)
            =? 0)%nat eqn:En.
  - unfold train_test_split in H. unfold test_count in En.
    rewrite H0, H1, En in H. cbn in H. congruence.
  - apply Nat.eqb_neq in En.
    destruct (train_test_split_run permutation permutation_Permutation
                arr fraction seed _ H0 H1 eq_refl)
      as (train & test & Hrun & _); [lia|]. congruence.
Qed.

(** Both splits of a successful [split_points], the ratio of the second one
    being the float [val_size / (1 - test_size)]. *)
Lemma split_points_inv (fraction_test fraction_val : Q) (points : list Z)
  (tr va te : list Z) :
  split_points list_set permutation fraction_test fraction_val points
  = Ok (tr, va, te) ->
  exists tr1,
    train_test_split permutation (list_set points) (round64 fraction_test) 42
    = Ok (tr1, te)
    /\ train_test_split permutation tr1
         (val_ratio fraction_test fraction_val) 42 = Ok (tr, va).
Proof.
  unfold split_points, val_ratio. cbv zeta.
  destruct (train_test_split permutation (list_set points)
              (round64 fraction_test) 42)
    as [[tr1 te']|] eqn:E1; [|discriminate].
  cbn [rbind fst snd]. unfold divide.
  destruct (Qeq_bool (round64 (1 - round64 fraction_test)) 0);
    [discriminate|].
  cbn [rbind].
  destruct (train_test_split permutation tr1 _ 42) as [[tr' va']|] eqn:E2;
    [|discriminate].
  cbn [rbind fst snd]. intros H. inversion H; subst. now exists tr1.
Qed.

Lemma split_points_raise (fraction_test fraction_val : Q) (points : list Z)
  (e : Exn) :
  split_points list_set permutation fraction_test fraction_val points
  = Raise e ->
  e = ValueError.
Proof.
  unfold split_points. cbv zeta.
  destruct (train_test_split permutation (list_set points)
              (round64 fraction_test) 42)
    as [[tr1 te]|e1] eqn:E1; cbn [rbind fst snd].
  - unfold divide.
    destruct (Qeq_bool (round64 (1 - round64 fraction_test)) 0) eqn:Ez.
    + apply train_test_split_inv in E1 as (_ & H1 & _).
      apply Qeq_bool_iff in Ez.
      pose proof (one_minus_positive _ (round64_on_grid fraction_test) H1)
        as Hpos.
      rewrite Ez in Hpos. discriminate Hpos.
    + cbn [rbind].
      destruct (train_test_split permutation tr1 _ 42) as [[tr va]|e2] eqn:E2;
        cbn [rbind]; [discriminate|].
      intros H. inversion H; subst e2.
      now apply train_test_split_raise in E2.
  - intros H. inversion H; subst e1. now apply train_test_split_raise in E1.
Qed.

Lemma list_set_length (l : list Z) :
  List.length (list_set l) = List.length (nodup Z.eq_dec l).
Proof.
  apply Permutation_length, NoDup_Permutation;
    [apply list_set_NoDup | apply NoDup_nodup |].
  intros x. now rewrite list_set_In, nodup_In.
Qed.

(** X15. The sizes of the three point lists depend on the number [n] of
    distinct points only, and they are taken in float arithmetic:
    [ceil(test_size * n)] points go to the test list, the product being
    rounded to a double before [ceil]; [ceil(ratio * (n - n_test))] of the
    others go to the validation list, where [ratio] is the double
    [val_size / (1 - test_size)]; the rest, at least one point, is the
    training list. *)
Theorem split_points_sizes (fraction_test fraction_val : Q) (points : list Z)
  (train_points val_points test_points : list Z) :
  split_points list_set permutation fraction_test fraction_val points
  = Ok (train_points, val_points, test_points) ->
  let n := List.length (nodup Z.eq_dec points) in
  let n_test :=
    Z.to_nat
      (Qceiling (round64 (round64 fraction_test * inject_Z (Z.of_nat n)))) in
  let ratio :=
    round64 (round64 fraction_val / round64 (1 - round64 fraction_test)) in
  let n_val :=
    Z.to_nat
      (Qceiling (round64 (ratio * inject_Z (Z.of_nat (n - n_test))))) in
  List.length test_points = n_test
  /\ List.length val_points = n_val
  /\ List.length train_points = (n - n_test - n_val)%nat
  /\ (0 < List.length train_points)%nat.
Proof.
  intros H. apply split_points_inv in H as (tr1 & H1 & H2).
  apply train_test_split_inv in H1 as (_ & _ & _ & Hte & Htr1).
  apply train_test_split_inv in H2 as (_ & _ & Hlt & Hva & Htr).
  rewrite list_set_length in Hte, Htr1. rewrite Htr1 in Hlt, Hva, Htr.
  unfold test_count, val_ratio in *.
  cbv zeta. rewrite Hte, Hva, Htr. repeat split. lia.
Qed.

(** *** The six returned lists *)

Lemma split_dataset_inv (fraction_test fraction_val : Q) (g : GlobalRng)
  (sequences : list Sequence) (labels : list Z) (r : SplitResult) :
  split_dataset list_set permutation fraction_test fraction_val g
    sequences labels = Ok r ->
  exists points tr va te,
    point_ids sequences = Ok points
    /\ split_points list_set permutation fraction_test fraction_val points
       = Ok (tr, va, te)
    /\ assemble g sequences labels points tr va te = Ok r.
Proof.
  unfold split_dataset. intros H.
  destruct (point_ids sequences) as [points|]; [|discriminate].
  cbn [rbind] in H.
  destruct (split_points list_set permutation fraction_test fraction_val points)
    as [[[tr va] te]|] eqn:Esplit; [|discriminate].
  cbn [rbind] in H. exists points, tr, va, te.
  split; [reflexivity|]. split; [exact Esplit | exact H].
Qed.

(** X16. The validation and test lists are cut out of the input without
    reordering: each holds the sequences, or labels, that stand at the
    positions of its points, in input order, each once. *)
Theorem split_dataset_held_out_in_order (fraction_test fraction_val : Q)
  (g : GlobalRng) (sequences : list Sequence) (labels : list Z)
  (r : SplitResult) :
  split_dataset list_set permutation fraction_test fraction_val g
    sequences labels = Ok r ->
  exists points train_points val_points test_points,
    point_ids sequences = Ok points
    /\ split_points list_set permutation fraction_test fraction_val points
       = Ok (train_points, val_points, test_points)
    /\ X_val r = select val_points points sequences
    /\ y_val r = select val_points points labels
    /\ X_test r = select test_points points sequences
    /\ y_test r = select test_points points labels.
Proof.
  intros H. apply split_dataset_inv in H
    as (points & tr & va & te & Hpts & Hsplit & Hasm).
  apply assemble_inv in Hasm
    as (y & res & _ & _ & _ & _ & HXva & Hyva & HXte & Hyte).
  exists points, tr, va, te.
  split; [exact Hpts|]. split; [exact Hsplit|].
  split; [now apply getitem_indices_in|].
  split; [now apply getitem_indices_in|].
  split; now apply getitem_indices_in.
Qed.

(** X17. The training lists start with the training sequences and labels of
    the input, in input order; what over-sampling appends after them are
    copies of these, each copy of a sequence with the label of that
    sequence. *)
Theorem split_dataset_training_layout (fraction_test fraction_val : Q)
  (g : GlobalRng) (sequences : list Sequence) (labels : list Z)
  (r : SplitResult) :
  split_dataset list_set permutation fraction_test fraction_val g
    sequences labels = Ok r ->
  exists points train_points val_points test_points copies,
    point_ids sequences = Ok points
    /\ split_points list_set permutation fraction_test fraction_val points
       = Ok (train_points, val_points, test_points)
    /\ X_train r = select train_points points sequences ++ map fst copies
    /\ y_train r = select train_points points labels ++ map snd copies
    /\ Forall
         (fun xy =>
            In xy (combine (select train_points points sequences)
                     (select train_points points labels)))
         copies.
Proof.
  intros H. apply split_dataset_inv in H
    as (points & tr & va & te & Hpts & Hsplit & Hasm).
  apply assemble_inv in Hasm
    as (y & [X' y'] & Hy & Hfit & HXtr & Hytr & _).
  cbn [fst] in HXtr, Hytr.
  destruct (fit_resample_spec _ _ _ _ _ Hfit)
    as [Hlen [extra [-> [_ Hextra]]]].
  apply mapM_app in HXtr as (X & DX & HX & HDX & EX).
  apply mapM_app in Hytr as (Y & DY & HY & HDY & EY).
  rewrite <- Hlen in Hextra.
  destruct (drawn_rows sequences labels _ X Y extra DX DY
              (proj1 (mapM_Forall2 _ _ _) HX) (proj1 (mapM_Forall2 _ _ _) HY)
              Hextra HDX HDY)
    as (copies & -> & -> & Hcopies).
  apply getitem_indices_in in HX, HY. subst X Y.
  exists points, tr, va, te, copies. auto 6.
Qed.

(** X18. Over-sampling with [sampling_strategy='not minority'] balances
    every class but one.  With [y] the labels of the training sequences of
    the input, [m] the label of [y] that occurs least often (the smallest
    such label when several do) and [M] the number of times the most
    frequent label of [y] occurs: in [y_train] the label [m] occurs as
    often as in [y], and every other label of [y] occurs [M] times. *)
Theorem split_dataset_training_counts (fraction_test fraction_val : Q)
  (g : GlobalRng) (sequences : list Sequence) (labels : list Z)
  (r : SplitResult) :
  split_dataset list_set permutation fraction_test fraction_val g
    sequences labels = Ok r ->
  exists points train_points val_points test_points m M,
    point_ids sequences = Ok points
    /\ split_points list_set permutation fraction_test fraction_val points
       = Ok (train_points, val_points, test_points)
    /\ minority_of (select train_points points labels) m
    /\ majority_count (select train_points points labels) M
    /\ forall c, In c (select train_points points labels) ->
         count c (y_train r)
         = if c =? m then count c (select train_points points labels)
           else M.
Proof.
  intros H. apply split_dataset_inv in H
    as (points & tr & va & te & Hpts & Hsplit & Hasm).
  apply assemble_inv in Hasm
    as (y & [X' y'] & Hy & Hfit & _ & Hytr & _).
  cbn [fst] in Hytr.
  assert (Hsel : y = select tr points labels)
    by now apply getitem_indices_in.
  assert (Hne : y <> []).
  { intros ->. revert Hfit. unfold fit_resample.
    destruct (_ =? 0)%nat; [discriminate|].
    destruct (negb _); [discriminate|]. discriminate. }
  destruct (class_minority (target_stats y)) as [m|] eqn:Em.
  2:{ exfalso. unfold class_minority, target_stats in Em.
      destruct y as [|c y]; [congruence|].
      assert (Hc : In c (np_unique (c :: y)))
        by (apply np_unique_In; now left).
      destruct (np_unique (c :: y)); [destruct Hc | discriminate]. }
  exists points, tr, va, te, m, (n_sample_majority (target_stats y)).
  rewrite <- Hsel.
  split; [exact Hpts|]. split; [exact Hsplit|].
  split; [now apply class_minority_spec|].
  split; [now apply n_sample_majority_spec|].
  intros c Hc.
  pose proof (fit_resample_counts g _ y X' y' c Hfit Hc) as Hcount.
  rewrite Em in Hcount. rewrite <- Hcount.
  destruct (fit_resample_spec _ _ _ _ _ Hfit)
    as [_ [extra [EX [Ey Hextra]]]].
  subst X' y'. rewrite (resampled_labels _ _ _ _ Hy Hextra) in Hytr.
  congruence.
Qed.

(** X19. When the splitter returns, none of the three point lists is empty,
    so the input had sequences of at least three points; the validation and
    test lists are not empty either, and the labels of the training
    sequences of the input hold at least two classes. *)
Theorem split_dataset_needs_three_points (fraction_test fraction_val : Q)
  (g : GlobalRng) (sequences : list Sequence) (labels : list Z)
  (r : SplitResult) :
  split_dataset list_set permutation fraction_test fraction_val g
    sequences labels = Ok r ->
  exists points train_points val_points test_points,
    point_ids sequences = Ok points
    /\ split_points list_set permutation fraction_test fraction_val points
       = Ok (train_points, val_points, test_points)
    /\ train_points <> [] /\ val_points <> [] /\ test_points <> []
    /\ (3 <= List.length (nodup Z.eq_dec points))%nat
    /\ X_val r <> [] /\ X_test r <> []
    /\ (2 <= List.length
               (nodup Z.eq_dec (select train_points points labels)))%nat.
Proof.
  intros H. apply split_dataset_inv in H
    as (points & tr & va & te & Hpts & Hsplit & Hasm).
  pose proof (split_points_perm list_set permutation
                permutation_Permutation _ _ _ _ _ _ Hsplit)
    as Hperm.
  pose proof Hsplit as Hinv.
  apply split_points_inv in Hinv as (tr1 & H1 & H2).
  apply train_test_split_inv in H1 as (Hf1 & _ & Hlt1 & Hte & Htr1).
  apply train_test_split_inv in H2 as (Hf2 & _ & Hlt2 & Hva & Htr).
  assert (Hte_pos : (0 < List.length te)%nat).
  { rewrite Hte. apply test_count_positive;
      [apply round64_on_grid | exact Hf1 | lia]. }
  assert (Hva_pos : (0 < List.length va)%nat).
  { rewrite Hva. apply test_count_positive;
      [apply round64_on_grid | exact Hf2 | lia]. }
  assert (Htr_pos : (0 < List.length tr)%nat) by lia.
  apply assemble_inv in Hasm
    as (y & [X' y'] & Hy & Hfit & _ & _ & HXva & _ & HXte & _).
  pose proof (point_ids_spec _ _ Hpts) as Hfor.
  assert (Hmember : forall part X,
             (forall p, In p part -> In p (tr ++ va ++ te)) ->
             (0 < List.length part)%nat ->
             mapM (getitem sequences) (indices_in points part) = Ok X ->
             X <> []).
  { intros part X Hpart Hpos HX.
    destruct part as [|p part]; [simpl in Hpos; lia|].
    assert (Hp : In p (list_set points)).
    { apply (Permutation_in _ Hperm), Hpart. now left. }
    apply (proj1 (list_set_In _ _)) in Hp.
    destruct (Forall2_In_r _ _ _ _ Hfor Hp) as [seq [Hseq Hpoint]].
    destruct (part_members sequences points (p :: part) _ X Hfor
                (fun i => iff_refl _) HX) as [_ Hin].
    intros ->. exact (Hin seq p Hseq Hpoint (or_introl eq_refl)). }
  exists points, tr, va, te.
  split; [exact Hpts|]. split; [exact Hsplit|].
  split; [intros ->; simpl in Htr_pos; lia|].
  split; [intros ->; simpl in Hva_pos; lia|].
  split; [intros ->; simpl in Hte_pos; lia|].
  split.
  { rewrite <- list_set_length, <- (Permutation_length Hperm), !length_app.
    lia. }
  split.
  { apply (Hmember va); [|exact Hva_pos | exact HXva].
    intros p Hp. rewrite !in_app_iff. auto. }
  split.
  { apply (Hmember te); [|exact Hte_pos | exact HXte].
    intros p Hp. rewrite !in_app_iff. auto. }
  apply getitem_indices_in in Hy. subst y.
  revert Hfit. unfold fit_resample.
  destruct (_ =? 0)%nat; [discriminate|].
  destruct (negb _); [discriminate|].
  destruct (List.length (np_unique _) <=? 1)%nat eqn:E; [discriminate|].
  intros _. apply Nat.leb_gt in E.
  replace (List.length (nodup Z.eq_dec (select tr points labels)))
    with (List.length (np_unique (select tr points labels))); [lia|].
  apply Permutation_length, NoDup_Permutation;
    [apply np_unique_NoDup | apply NoDup_nodup |].
  intros c. now rewrite np_unique_In, nodup_In.
Qed.

(** *** How the splitter fails *)

Lemma point_ids_raise (sequences : list Sequence) (e : Exn) :
  point_ids sequences = Raise e -> e = IndexError /\ In [] sequences.
Proof.
  unfold point_ids. intros H. apply mapM_raise in H as [seq [Hseq H]].
  destruct seq as [|r seq]; [|discriminate].
  split; [|exact Hseq]. cbn in H. congruence.
Qed.

Lemma fit_resample_raise (g : GlobalRng) (X y : list Z) (e : Exn) :
  fit_resample g X y = Raise e -> e = ValueError.
Proof.
  unfold fit_resample.
  destruct (_ =? 0)%nat; [congruence|].
  destruct (negb _); [congruence|].
  destruct (_ <=? 1)%nat; [congruence | discriminate].
Qed.

(** Fetching positions of the points from a list that is long enough does
    not fail. *)
Lemma fetch_raise {A : Type} (l : list A) (points : list Z) (idx : list Z)
  (e : Exn) :
  (forall i, In i idx -> exists part, In i (indices_in points part)) ->
  mapM (getitem l) idx = Raise e ->
  e = IndexError /\ (List.length l < List.length points)%nat.
Proof.
  intros Hidx H. apply mapM_raise in H as [i [Hi H]].
  split; [exact (getitem_raise _ _ _ H)|].
  destruct (Hidx i Hi) as [part Hin].
  apply indices_in_spec in Hin as [Hi0 [p [Hn _]]].
  assert (Hlt : (Z.to_nat i < List.length points)%nat)
    by (apply nth_error_Some; congruence).
  destruct (nth_error l (Z.to_nat i)) as [x|] eqn:E.
  - apply (getitem_nonneg l i x Hi0) in E. congruence.
  - apply nth_error_None in E. lia.
Qed.

Lemma assemble_raise (g : GlobalRng) (sequences : list Sequence)
  (labels points tr va te : list Z) (e : Exn) :
  List.length points = List.length sequences ->
  assemble g sequences labels points tr va te = Raise e ->
  e = ValueError
  \/ (e = IndexError /\ (List.length labels < List.length sequences)%nat).
Proof.
  intros Hlen. unfold assemble.
  assert (Hsame : forall part i,
             In i (indices_in points part) ->
             exists part', In i (indices_in points part'))
    by (intros part i Hi; now exists part).
  assert (Hseq : forall idx e',
             (forall i, In i idx -> exists part, In i (indices_in points part)) ->
             mapM (getitem sequences) idx <> Raise e').
  { intros idx e' Hidx H. apply (fetch_raise _ points) in H as [_ H];
      [lia | exact Hidx]. }
  assert (Hlab : forall idx e',
             (forall i, In i idx -> exists part, In i (indices_in points part)) ->
             mapM (getitem labels) idx = Raise e' ->
             e' = IndexError
             /\ (List.length labels < List.length sequences)%nat).
  { intros idx e' Hidx H. rewrite <- Hlen. now apply (fetch_raise _ _ idx). }
  destruct (mapM (getitem labels) (indices_in points tr)) as [y|e1] eqn:E1;
    cbn [rbind];
    [|intros H; inversion H; subst e1; right; exact (Hlab _ _ (Hsame tr) E1)].
  destruct (fit_resample g (indices_in points tr) y) as [[X' y']|e2] eqn:E2;
    cbn [rbind fst];
    [|intros H; inversion H; subst e2; left;
      now apply fit_resample_raise in E2].
  assert (Hres : forall i, In i X' ->
                   exists part, In i (indices_in points part)).
  { intros i Hi. exists tr. now apply (fit_resample_rows _ _ _ _ _ E2). }
  destruct (mapM (getitem sequences) X') as [Xtr|e3] eqn:E3; cbn [rbind];
    [|now destruct (Hseq X' e3 Hres)].
  destruct (mapM (getitem labels) X') as [ytr|e4] eqn:E4; cbn [rbind];
    [|intros H; inversion H; subst e4; right; exact (Hlab _ _ Hres E4)].
  destruct (mapM (getitem sequences) (indices_in points va)) as [Xva|e5] eqn:E5;
    cbn [rbind]; [|now destruct (Hseq _ e5 (Hsame va))].
  destruct (mapM (getitem labels) (indices_in points va)) as [yva|e6] eqn:E6;
    cbn [rbind];
    [|intros H; inversion H; subst e6; right; exact (Hlab _ _ (Hsame va) E6)].
  destruct (mapM (getitem sequences) (indices_in points te)) as [Xte|e7] eqn:E7;
    cbn [rbind]; [|now destruct (Hseq _ e7 (Hsame te))].
  destruct (mapM (getitem labels) (indices_in points te)) as [yte|e8] eqn:E8;
    cbn [rbind];
    [|intros H; inversion H; subst e8; right; exact (Hlab _ _ (Hsame te) E8)].
  discriminate.
Qed.

Lemma split_dataset_raise (fraction_test fraction_val : Q) (g : GlobalRng)
  (sequences : list Sequence) (labels : list Z) (e : Exn) :
  split_dataset list_set permutation fraction_test fraction_val g
    sequences labels = Raise e ->
  e = ValueError
  \/ (e = IndexError
      /\ (In [] sequences
          \/ (List.length labels < List.length sequences)%nat)).
Proof.
  unfold split_dataset.
  destruct (point_ids sequences) as [points|e1] eqn:Epts; cbn [rbind].
  - destruct (split_points list_set permutation fraction_test fraction_val
                points) as [[[tr va] te]|e2] eqn:Esplit; cbn [rbind].
    + intros H. apply assemble_raise in H as [H | [H1 H2]]; auto.
      apply point_ids_spec, Forall2_length in Epts. now symmetry.
    + intros H. inversion H; subst e2. left.
      now apply split_points_raise in Esplit.
  - intros H. inversion H; subst e1.
    apply point_ids_raise in Epts as [-> Hin]. auto.
Qed.

(** X20. The splitter fails in two ways only.  [IndexError] needs an empty
    sequence or fewer labels than sequences; everything else, fractions out
    of range, too few points for a split or a single class to over-sample,
    is a [ValueError].  In particular the division [val_size / (1 -
    test_size)] never fails: it is reached only after the first split has
    accepted [test_size], which is then below 1. *)
Theorem split_dataset_failures (fraction_test fraction_val : Q)
  (g : GlobalRng) (sequences : list Sequence) (labels : list Z) (e : Exn) :
  split_dataset list_set permutation fraction_test fraction_val g
    sequences labels = Raise e ->
  (e = ValueError \/ e = IndexError)
  /\ (e = IndexError ->
      In [] sequences \/ (List.length labels < List.length sequences)%nat).
Proof.
  intros H. apply split_dataset_raise in H as [-> | [-> H]].
  - split; [now left | discriminate].
  - split; [now right | intros _; exact H].
Qed.

End Environment.

(** *** The theorems in one environment *)

Lemma split_points_sizes_witness :
  test_count (round64 test_size) 100 = 30%nat
  /\ test_count (val_ratio test_size val_size) 70 = 16%nat
  /\ (let n :=
        List.length (nodup Z.eq_dec (map Z.of_nat (seq 1 100))) in
      let n_test :=
        Z.to_nat
          (Qceiling (round64 (round64 test_size * inject_Z (Z.of_nat n)))) in
      let ratio :=
        round64 (round64 val_size / round64 (1 - round64 test_size)) in
      let n_val :=
        Z.to_nat
          (Qceiling (round64 (ratio * inject_Z (Z.of_nat (n - n_test))))) in
      List.length (rev (map Z.of_nat (seq 71 30))) = n_test
      /\ List.length (map Z.of_nat (seq 1 16)) = n_val
      /\ List.length (map Z.of_nat (seq 17 54)) = (n - n_test - n_val)%nat
      /\ (0 < List.length (map Z.of_nat (seq 17 54)))%nat).
Proof.
  split; [vm_compute; reflexivity|]. split; [vm_compute; reflexivity|].
  apply (split_points_sizes ascending_set reversing_permutation
           ascending_set_NoDup ascending_set_In
           reversing_permutation_Permutation
           test_size val_size (map Z.of_nat (seq 1 100))
           (map Z.of_nat (seq 17 54)) (map Z.of_nat (seq 1 16))
           (rev (map Z.of_nat (seq 71 30)))).
  vm_compute. reflexivity.
Defined.

Lemma split_dataset_held_out_in_order_witness :
  exists points train_points val_points test_points,
    point_ids (fst (SequenceExamples.graded 6)) = Ok points
    /\ split_points ascending_set reversing_permutation test_size val_size
         points
       = Ok (train_points, val_points, test_points)
    /\ X_val SequenceExamples.graded_split
       = select val_points points (fst (SequenceExamples.graded 6))
    /\ y_val SequenceExamples.graded_split
       = select val_points points (snd (SequenceExamples.graded 6))
    /\ X_test SequenceExamples.graded_split
       = select test_points points (fst (SequenceExamples.graded 6))
    /\ y_test SequenceExamples.graded_split
       = select test_points points (snd (SequenceExamples.graded 6)).
Proof.
  apply (split_dataset_held_out_in_order ascending_set reversing_permutation
           test_size val_size SequenceExamples.zeros
           (fst (SequenceExamples.graded 6)) (snd (SequenceExamples.graded 6))
           SequenceExamples.graded_split).
  vm_compute. reflexivity.
Defined.

Lemma split_dataset_training_layout_witness :
  exists points train_points val_points test_points copies,
    point_ids (fst (SequenceExamples.graded 6)) = Ok points
    /\ split_points ascending_set reversing_permutation test_size val_size
         points
       = Ok (train_points, val_points, test_points)
    /\ X_train SequenceExamples.graded_split
       = select train_points points (fst (SequenceExamples.graded 6))
         ++ map fst copies
    /\ y_train SequenceExamples.graded_split
       = select train_points points (snd (SequenceExamples.graded 6))
         ++ map snd copies
    /\ Forall
         (fun xy =>
            In xy
              (combine
                 (select train_points points (fst (SequenceExamples.graded 6)))
                 (select train_points points (snd (SequenceExamples.graded 6)))))
         copies.
Proof.
  apply (split_dataset_training_layout ascending_set reversing_permutation
           test_size val_size SequenceExamples.zeros
           (fst (SequenceExamples.graded 6)) (snd (SequenceExamples.graded 6))
           SequenceExamples.graded_split).
  vm_compute. reflexivity.
Defined.

Lemma split_dataset_training_counts_witness :
  exists points train_points val_points test_points m M,
    point_ids (fst (SequenceExamples.graded 6)) = Ok points
    /\ split_points ascending_set reversing_permutation test_size val_size
         points
       = Ok (train_points, val_points, test_points)
    /\ minority_of
         (select train_points points (snd (SequenceExamples.graded 6))) m
    /\ majority_count
         (select train_points points (snd (SequenceExamples.graded 6))) M
    /\ forall c,
         In c (select train_points points (snd (SequenceExamples.graded 6))) ->
         count c (y_train SequenceExamples.graded_split)
         = if c =? m
           then count c
                  (select train_points points
                     (snd (SequenceExamples.graded 6)))
           else M.
Proof.
  apply (split_dataset_training_counts ascending_set reversing_permutation
           test_size val_size SequenceExamples.zeros
           (fst (SequenceExamples.graded 6)) (snd (SequenceExamples.graded 6))
           SequenceExamples.graded_split).
  vm_compute. reflexivity.
Defined.

Lemma split_dataset_needs_three_points_witness :
  exists points train_points val_points test_points,
    point_ids (fst (SequenceExamples.graded 6)) = Ok points
    /\ split_points ascending_set reversing_permutation test_size val_size
         points
       = Ok (train_points, val_points, test_points)
    /\ train_points <> [] /\ val_points <> [] /\ test_points <> []
    /\ (3 <= List.length (nodup Z.eq_dec points))%nat
    /\ X_val SequenceExamples.graded_split <> []
    /\ X_test SequenceExamples.graded_split <> []
    /\ (2 <= List.length
               (nodup Z.eq_dec
                  (select train_points points
                     (snd (SequenceExamples.graded 6)))))%nat.
Proof.
  apply (split_dataset_needs_three_points ascending_set reversing_permutation
           ascending_set_NoDup ascending_set_In
           reversing_permutation_Permutation
           test_size val_size SequenceExamples.zeros
           (fst (SequenceExamples.graded 6)) (snd (SequenceExamples.graded 6))
           SequenceExamples.graded_split).
  vm_compute. reflexivity.
Defined.

Lemma split_dataset_failures_witness :
  (IndexError = ValueError \/ IndexError = IndexError)
  /\ (IndexError = IndexError ->
      In (@nil DecodedRecord) [[]]
      \/ (List.length (@nil Z) < List.length [@nil DecodedRecord])%nat).
Proof.
  apply (split_dataset_failures ascending_set reversing_permutation
           reversing_permutation_Permutation
           test_size val_size SequenceExamples.zeros [[]] [] IndexError).
  reflexivity.
Defined.

End PartitionFacts.

(** ** The splitter on the output of the sequence builder *)
Module PipelineFacts.
Import Py PyFacts NN SequenceVocabulary SequenceFacts BuilderFacts
  PartitionFacts.

Lemma contributions_parallel (L : Z) (ls : list (list DecodedRecord)) :
  List.length (flat_map (fun l => snd (contribution L l)) ls)
  = List.length (flat_map (fun l => fst (contribution L l)) ls).
Proof.
  induction ls as [|l ls IH]; [reflexivity|].
  cbn [flat_map]. rewrite !length_app, IH. f_equal.
  destruct (point_sequences_total L l) as (ss & lb & E & _ & Hl).
  unfold contribution. rewrite E. simpl. now rewrite Hl.
Qed.

Lemma contributions_nonempty (L : Z) (ls : list (list DecodedRecord)) :
  1 <= L -> ~ In [] (flat_map (fun l => fst (contribution L l)) ls).
Proof.
  intros HL Hin. apply in_flat_map in Hin as [l [_ Hin]].
  rewrite <- (Z2Nat.id L) in Hin by lia.
  pose proof (proj1 (Forall_forall _ _)
                (contribution_lengths (Z.to_nat L) l) [] Hin) as Hlen.
  simpl in Hlen. lia.
Qed.

Section Environment.

Variable list_set : list Z -> list Z.
Variable permutation : Z -> nat -> list nat.

Hypothesis permutation_Permutation :
  forall seed n, Permutation (permutation seed n) (seq 0 n).

(** X21. What the builder returns for a window width of at least 1 is
    always fit for the splitter: the sequences are not empty and come with
    one label each, so the splitter either returns or raises [ValueError],
    never [IndexError]. *)
Theorem split_of_created_sequences (L : Z) (records : list DecodedRecord)
  (sequences : list Sequence) (labels : list Z) (line : Line)
  (fraction_test fraction_val : Q) (g : GlobalRng) :
  1 <= L ->
  create_sequences L records = Ok (sequences, labels, line) ->
  (exists r,
     split_dataset list_set permutation fraction_test fraction_val g
       sequences labels = Ok r)
  \/ split_dataset list_set permutation fraction_test fraction_val g
       sequences labels = Raise ValueError.
Proof.
  intros HL Hcreate. rewrite create_sequences_concat in Hcreate.
  inversion Hcreate; subst sequences labels. clear Hcreate.
  destruct (split_dataset _ _ _ _ _ _ _) as [r|e] eqn:E;
    [left; now exists r | right].
  apply (split_dataset_raise list_set permutation permutation_Permutation)
    in E as [-> | [_ [Hin | Hlen]]]; [reflexivity | |].
  - now apply contributions_nonempty in Hin.
  - rewrite contributions_parallel in Hlen. lia.
Qed.

End Environment.

Lemma split_of_created_sequences_witness :
  (exists r,
     split_dataset ascending_set reversing_permutation test_size val_size
       SequenceExamples.zeros
       (fst (SequenceExamples.graded 6)) (snd (SequenceExamples.graded 6))
     = Ok r)
  \/ split_dataset ascending_set reversing_permutation test_size val_size
       SequenceExamples.zeros
       (fst (SequenceExamples.graded 6)) (snd (SequenceExamples.graded 6))
     = Raise ValueError.
Proof.
  apply (split_of_created_sequences ascending_set reversing_permutation
           SplitFacts.reversing_permutation_Permutation 3
           (SequenceExamples.graded_records 6)
           (fst (SequenceExamples.graded 6)) (snd (SequenceExamples.graded 6))
           (Created 21 6) test_size val_size SequenceExamples.zeros).
  - lia.
  - vm_compute. reflexivity.
Defined.

End PipelineFacts.

(** ** Facts about the class weights *)
Module WeightFacts.
Import Py PyFacts NN SplitFacts Weights.

Lemma np_unique_length (y : list Z) :
  List.length (np_unique y) = List.length (nodup Z.eq_dec y).
Proof.
  apply Permutation_length, NoDup_Permutation;
    [apply np_unique_NoDup | apply NoDup_nodup |].
  intros c. now rewrite np_unique_In, nodup_In.
Qed.

Lemma rank_np_unique (c : Z) (y : list Z) :
  rank c y = len (filter (fun d => d <? c) (np_unique y)).
Proof.
  unfold rank, len. f_equal. apply Permutation_length, NoDup_Permutation.
  - apply NoDup_nodup.
  - apply NoDup_filter, np_unique_NoDup.
  - intros d. rewrite nodup_In, !filter_In, np_unique_In. reflexivity.
Qed.

(** In an ascending list without repetition, an element stands at the
    position given by the number of elements below it. *)
Lemma sorted_position (l : list Z) (c : Z) :
  StronglySorted Z.lt l -> In c l ->
  nth_error l (List.length (filter (fun d => d <? c) l)) = Some c.
Proof.
  induction 1 as [|a l Hs IH Ha]; intros Hin; [destruct Hin|].
  cbn [filter]. destruct Hin as [-> | Hin].
  - rewrite Z.ltb_irrefl.
    replace (filter (fun d => d <? c) l) with (@nil Z); [reflexivity|].
    symmetry. apply DatasetFacts.filter_none.
    eapply Forall_impl; [|exact Ha]. intros d Hd. simpl in Hd.
    apply Z.ltb_ge. lia.
  - pose proof (proj1 (Forall_forall _ _) Ha c Hin) as Hlt.
    replace (a <? c) with true by (symmetry; apply Z.ltb_lt; exact Hlt).
    cbn [List.length nth_error]. now apply IH.
Qed.

Lemma dict_get_enumerate_from {V : Type} (l : list V) (s j : nat) :
  dict_get Z.eqb (combine (map Z.of_nat (seq s (List.length l))) l)
    (Z.of_nat (s + j))
  = nth_error l j.
Proof.
  revert s j. induction l as [|x l IH]; intros s j;
    cbn [List.length seq map combine dict_get].
  - now destruct j.
  - destruct j as [|j].
    + rewrite Nat.add_0_r, Z.eqb_refl. reflexivity.
    + replace (Z.of_nat (s + S j) =? Z.of_nat s) with false
        by (symmetry; apply Z.eqb_neq; lia).
      replace (s + S j)%nat with (S s + j)%nat by lia. apply IH.
Qed.

Lemma dict_get_enumerate {V : Type} (l : list V) (j : nat) :
  dict_get Z.eqb (enumerate l) (Z.of_nat j) = nth_error l j.
Proof.
  unfold enumerate, range, len. rewrite Nat2Z.id.
  exact (dict_get_enumerate_from l 0 j).
Qed.

Lemma dict_mem_enumerate {V : Type} (l : list V) (i : Z) :
  dict_mem Z.eqb (enumerate l) i = true <-> 0 <= i < len l.
Proof.
  unfold dict_mem, len. split.
  - destruct (dict_get Z.eqb (enumerate l) i) as [x|] eqn:E; [|discriminate].
    intros _. apply CollectorFacts.dict_get_In in E; [|apply Z.eqb_eq].
    apply In_enumerate in E as [Hi Hn].
    split; [exact Hi|].
    assert (Z.to_nat i < List.length l)%nat
      by (apply nth_error_Some; congruence).
    lia.
  - intros [Hi Hlt]. rewrite <- (Z2Nat.id i Hi), dict_get_enumerate.
    destruct (nth_error l (Z.to_nat i)) eqn:E; [reflexivity|].
    apply nth_error_None in E. lia.
Qed.

(** X22. The dict of class weights is keyed by rank, not by label: it has
    the keys 0 .. k-1 for the k distinct labels of [y_train], and the weight
    of a label, the float [len(y) / (k * count)] with a float product and a
    float quotient, is stored under the number of distinct labels below it,
    whatever the value of the label itself. *)
Theorem class_weights_keyed_by_rank (y_train : list Z) (c : Z) :
  In c y_train ->
  dict_get Z.eqb (class_weights y_train) (rank c y_train)
  = Some (round64
            (inject_Z (len y_train)
             / round64 (inject_Z (len (nodup Z.eq_dec y_train))
                        * inject_Z (Z.of_nat (count c y_train)))))
  /\ (forall i,
        dict_mem Z.eqb (class_weights y_train) i = true
        <-> 0 <= i < len (nodup Z.eq_dec y_train)).
Proof.
  intros Hc. split.
  - unfold class_weights. rewrite rank_np_unique. unfold len at 1.
    rewrite dict_get_enumerate. unfold compute_class_weight.
    rewrite nth_error_map, sorted_position;
      [|apply np_unique_sorted | now apply np_unique_In].
    cbn [option_map]. unfold len. now rewrite np_unique_length.
  - intros i. unfold class_weights. rewrite dict_mem_enumerate.
    unfold compute_class_weight, len.
    now rewrite length_map, np_unique_length.
Qed.

Lemma class_weights_keyed_by_rank_witness :
  dict_get Z.eqb (class_weights [0; 0; 0; 1]) 0
  = Some (6004799503160661 # 9007199254740992)
  /\ dict_get Z.eqb (class_weights [0; 0; 0; 1]) (rank 0 [0; 0; 0; 1])
     = Some (round64
               (inject_Z (len [0; 0; 0; 1])
                / round64 (inject_Z (len (nodup Z.eq_dec [0; 0; 0; 1]))
                           * inject_Z (Z.of_nat (count 0 [0; 0; 0; 1])))))
  /\ (forall i,
        dict_mem Z.eqb (class_weights [0; 0; 0; 1]) i = true
        <-> 0 <= i < len (nodup Z.eq_dec [0; 0; 0; 1])).
Proof.
  split; [vm_compute; reflexivity|].
  apply (class_weights_keyed_by_rank [0; 0; 0; 1] 0). simpl. auto.
Defined.

End WeightFacts.
